(** * shaka-player: the stream video source and the duration source

    A shallow embedding of [shaka.player.StreamVideoSource] and of
    [shaka.dash.DurationSegmentIndexSource], with the properties of the
    streaming core that follow from them.

    The numbers of the video source, which it compares, adds and
    subtracts, are modelled as exact rationals ([Q]); the one infinite value
    it uses, [Number.POSITIVE_INFINITY], has a constructor of its own.  The
    numbers that the duration source divides are binary64 values with the
    rounding of IEEE 754 ([Double]), since the number of segments depends on
    it.  Objects that the code mutates are threaded explicitly; a promise is
    modelled by the way it settles. *)

From Stdlib Require Import List String Bool Arith ZArith QArith Qminmax Qround.
From Stdlib Require Import Permutation Lia Lqa DecimalString SpecFloat.
Import ListNotations.

Local Open Scope string_scope.
Local Open Scope list_scope.
Local Open Scope Q_scope.

(* ===================================================================== *)
(** * JavaScript values *)
(* ===================================================================== *)

Module Js.

(** An [Error] object.  The player tags its own errors with a [type]
    property; an error thrown by the runtime has none. *)
Record Error : Type := mkError {
  error_type : option string;
  message : string
}.

Definition streamError (msg : string) : Error := mkError (Some "stream") msg.

(** What the runtime throws on a property access through null or
    undefined. *)
Definition typeError : Error := mkError None "TypeError".

(** The completion of a synchronous call. *)
Inductive completion (A : Type) : Type :=
| Normal (a : A)
| Throw (e : Error).
Arguments Normal {A} a.
Arguments Throw {A} e.

Definition bind {A B} (c : completion A) (k : A -> completion B)
  : completion B :=
  match c with
  | Normal a => k a
  | Throw e => Throw e
  end.

(** How a promise settles; [Pending] is a promise that some later event
    settles. *)
Inductive promise (A : Type) : Type :=
| Resolved (a : A)
| Rejected (e : Error)
| Pending.
Arguments Resolved {A} a.
Arguments Rejected {A} e.
Arguments Pending {A}.

(** [Promise.all] over promises that have settled: the values in order,
    or the first rejection. *)
Fixpoint all {A} (ps : list (promise A)) : promise (list A) :=
  match ps with
  | [] => Resolved []
  | Resolved a :: rest =>
      match all rest with
      | Resolved l => Resolved (a :: l)
      | Rejected e => Rejected e
      | Pending => Pending
      end
  | Rejected e :: _ => Rejected e
  | Pending :: rest =>
      match all rest with
      | Rejected e => Rejected e
      | _ => Pending
      end
  end.

(** A number that may be [Number.POSITIVE_INFINITY]. *)
Inductive number : Type :=
| Finite (q : Q)
| POSITIVE_INFINITY.

(** [Math.min(x, q)] for a finite [q]. *)
Definition min (x : number) (q : Q) : number :=
  match x with
  | Finite e => Finite (Qmin e q)
  | POSITIVE_INFINITY => Finite q
  end.

(** [a > b] on finite numbers. *)
Definition gt (a b : Q) : bool := negb (Qle_bool a b).

(** Truthiness of a nullable number: null and 0 are falsy. *)
Definition truthy (x : option Q) : bool :=
  match x with
  | Some q => negb (Qeq_bool q 0)
  | None => false
  end.

(** A nullable number in a comparison: null converts to 0. *)
Definition toNumber (x : option Q) : Q :=
  match x with
  | Some q => q
  | None => 0
  end.

(** A JavaScript object used as a map from property names to values.
    Properties are kept in the order in which they were first set, which is
    the order in which [for (k in o)] and [MapUtils.values] visit them. *)
Definition object (V : Type) : Type := list (string * V).

Fixpoint get {V} (o : object V) (k : string) : option V :=
  match o with
  | [] => None
  | (k', v) :: rest => if String.eqb k' k then Some v else get rest k
  end.

Fixpoint set {V} (o : object V) (k : string) (v : V) : object V :=
  match o with
  | [] => [(k, v)]
  | (k', v') :: rest =>
      if String.eqb k' k then (k', v) :: rest else (k', v') :: set rest k v
  end.

Definition values {V} (o : object V) : list V := map snd o.

Definition keys {V} (o : object V) : list string := map fst o.

Definition empty {V} (o : object V) : bool :=
  match o with [] => true | _ => false end.

End Js.

Notation "x <- c ;; k" := (Js.bind c (fun x => k))
  (at level 61, c at next level, right associativity).

(* ===================================================================== *)
(** * Binary64 numbers *)
(* ===================================================================== *)

Module Double.

(** A JavaScript number as a binary64 value, in the Standard Library's
    specification of IEEE 754 ([SpecFloat]): a signed zero, a signed
    infinity, NaN, or sign, mantissa and exponent of a finite number. *)
Definition t : Type := spec_float.

(** The 53 bits of precision of binary64, and the exponent of its
    infinities. *)
Definition prec : Z := 53.
Definition emax : Z := 1024.

(** The double nearest to an integer, which is the integer itself up to
    2^53. *)
Definition ofZ (n : Z) : t := binary_normalize prec emax n 0 false.

(** [x / y], rounded to the nearest double, ties to even. *)
Definition div (x y : t) : t := SFdiv prec emax x y.

(** A nullable number in a division: null converts to +0. *)
Definition toNumber (x : option t) : t :=
  match x with
  | Some d => d
  | None => S754_zero false
  end.

Definition signed (negative : bool) (m : positive) : Z :=
  if negative then Z.neg m else Z.pos m.

(** Zeros and finite numbers, as opposed to NaN and the infinities. *)
Definition isFinite (x : t) : bool :=
  match x with
  | S754_zero _ | S754_finite _ _ _ => true
  | S754_infinity _ | S754_nan => false
  end.

Definition isZero (x : t) : bool :=
  match x with
  | S754_zero _ => true
  | _ => false
  end.

(** Finite numbers above 0. *)
Definition isPositive (x : t) : bool :=
  match x with
  | S754_finite false _ _ => true
  | _ => false
  end.

(** The rational that a zero or a finite double is (and 0 for NaN and the
    infinities, which are no rationals). *)
Definition toQ (x : t) : Q :=
  match x with
  | S754_finite s m e =>
      match e with
      | Zneg k => Qmake (signed s m) (2 ^ k)%positive
      | _ => inject_Z (signed s m * 2 ^ e)%Z
      end
  | _ => 0
  end.

(** What [Math.ceil] returns: an integer, or the NaN or the infinity that
    it was given.  The sign of a zero result is not kept: no comparison and
    no loop bound tells -0 from 0. *)
Inductive integer : Type :=
| Int (n : Z)
| NaN
| Infinity (negative : bool).

(** [Math.ceil(x)]. *)
Definition ceil (x : t) : integer :=
  match x with
  | S754_zero _ => Int 0
  | S754_infinity s => Infinity s
  | S754_nan => NaN
  | S754_finite s m e =>
      Int match e with
          | Zneg k => (- (- signed s m / Z.pos (2 ^ k)%positive))%Z
          | _ => (signed s m * 2 ^ e)%Z
          end
  end.

End Double.

(* ===================================================================== *)
(** * shaka.media: segment references and segment indexes *)
(* ===================================================================== *)

Module Media.

(** Modelled from the spec: [shaka.media.SegmentReference] and
    [shaka.media.SegmentIndex] are not among the sources.  A reference has an
    index (monotonic per stream), a start time, an end time, which only the
    trailing reference of a live stream may lack, a url and an optional byte
    range; an index is an ordered sequence of references with [length()],
    [first()] and [last()]. *)
Record SegmentReference : Type := mkSegmentReference {
  index : Z;
  startTime : Q;
  endTime : option Q;
  url : string;
  byteRange : option (Z * Z)
}.

(** [objectId] is the identity of the JavaScript object: two indexes are
    the same object exactly when they were made by the same [new]. *)
Record SegmentIndex : Type := mkSegmentIndex {
  objectId : nat;
  references : list SegmentReference
}.

Definition length (i : SegmentIndex) : nat := List.length (references i).

Definition first (i : SegmentIndex) : option SegmentReference :=
  hd_error (references i).

Definition last (i : SegmentIndex) : option SegmentReference :=
  hd_error (rev (references i)).

End Media.

(* ===================================================================== *)
(** * shaka.util.MultiMap *)
(* ===================================================================== *)

Module Util.

(** Modelled from the spec: [shaka.util.MultiMap] is not among the
    sources.  It is the spec's [stream_sets_by_type]: per content type, the
    ordered list of the values pushed for it.  [has], [get], [push], [set],
    [clear], [keys] and [getAll] are the methods the video source calls. *)
Definition MultiMap (V : Type) : Type := Js.object (list V).

Definition has {V} (m : MultiMap V) (k : string) : bool :=
  match Js.get m k with Some _ => true | None => false end.

Definition get {V} (m : MultiMap V) (k : string) : option (list V) :=
  Js.get m k.

Definition push {V} (m : MultiMap V) (k : string) (v : V) : MultiMap V :=
  match Js.get m k with
  | Some l => Js.set m k (l ++ [v])
  | None => Js.set m k [v]
  end.

Definition set {V} (m : MultiMap V) (k : string) (l : list V) : MultiMap V :=
  Js.set m k l.

Definition clear {V} (m : MultiMap V) : MultiMap V := [].

Definition getAll {V} (m : MultiMap V) : list V := List.concat (Js.values m).

End Util.

(* ===================================================================== *)
(** * shaka.media: the manifest as the video source sees it *)
(* ===================================================================== *)

Module Info.

(** [shaka.media.ISegmentIndexSource] as the video source uses it: the
    only method it calls is [create()], and [created] is how the promise
    that [create()] returns settles. *)
Record ISegmentIndexSource : Type := mkSource {
  created : Js.promise Media.SegmentIndex
}.

(** [shaka.media.StreamInfo]: one representation. *)
Record StreamInfo : Type := mkStreamInfo {
  uniqueId : nat;
  fullMimeType : string;
  bandwidth : option Q;
  width : option Q;
  height : option Q;
  segmentIndexSource : ISegmentIndexSource;
  enabled : bool
}.

(** [shaka.media.StreamSetInfo]: an adaptation set. *)
Record StreamSetInfo : Type := mkStreamSetInfo {
  setId : nat;
  contentType : string;
  lang : string;
  main : bool;
  streamInfos : list StreamInfo
}.

(** [shaka.media.PeriodInfo]. *)
Record PeriodInfo : Type := mkPeriodInfo {
  start : Q;
  duration : option Q;
  streamSetInfos : list StreamSetInfo
}.

(** [shaka.media.ManifestInfo]. *)
Record ManifestInfo : Type := mkManifestInfo {
  live : bool;
  updateUrl : option string;
  updatePeriod : option Q;
  minBufferTime : Q;
  periodInfos : list PeriodInfo
}.

End Info.

(* ===================================================================== *)
(** * shaka.player: the tracks that the listings return *)
(* ===================================================================== *)

(** The track classes are not among the sources.  Each constructor takes the
    fields in the order below and leaves [active] (and, for a text track,
    [enabled]) false. *)

Module VideoTrack.
Record t : Type := mk {
  id : nat;
  bandwidth : option Q;
  width : option Q;
  height : option Q;
  active : bool
}.
End VideoTrack.

Module AudioTrack.
Record t : Type := mk {
  id : nat;
  bandwidth : option Q;
  lang : string;
  active : bool
}.
End AudioTrack.

Module TextTrack.
Record t : Type := mk {
  id : nat;
  lang : string;
  active : bool;
  enabled : bool
}.
End TextTrack.

(* ===================================================================== *)
(** * shaka.player.StreamVideoSource *)
(* ===================================================================== *)

Module Player.

Import Info.

(** ** Collaborators

    The classes below are not among the sources; each record holds the part
    of the object that the video source reads or writes. *)

(** [shaka.media.IStream]: [getStreamInfo()], [getEnabled()],
    [hasStarted()] and [hasEnded()]. *)
Record Stream : Type := mkStream {
  getStreamInfo : option StreamInfo;
  getEnabled : bool;
  hasStarted : bool;
  hasEnded : bool
}.

(** [shaka.media.IAbrManager]: [getInitialVideoTrackId()] and whether
    [start()] was called. *)
Record AbrManager : Type := mkAbrManager {
  getInitialVideoTrackId : option nat;
  abrStarted : bool
}.

(** [shaka.player.DrmSchemeInfo.Restrictions]. *)
Record Restrictions : Type := mkRestrictions {
  maxWidth : option Q;
  maxHeight : option Q;
  maxBandwidth : option Q;
  minBandwidth : option Q
}.

(** The part of the [HTMLVideoElement] that the video source drives. *)
Record Video : Type := mkVideo {
  playbackRate : Q;
  currentTime : Q
}.

(** The limits that [computeStreamLimits] returns. *)
Record StreamLimits : Type := mkStreamLimits {
  limitStart : Q;
  limitEnd : Q
}.

(** ** The object

    The fields of the constructor, then the part of the browser that the
    methods act on: the duration of the [MediaSource] and the types of the
    SourceBuffers added to it, in order (the video source never removes
    one), the timeouts armed with [window.setTimeout] (their delays in
    milliseconds, the n-th one having handle n), the events listened to, and
    the warnings logged. *)
Record StreamVideoSource : Type := mkStreamVideoSource {
  manifestInfo : option ManifestInfo;
  video : option Video;
  streamSetsByType : Util.MultiMap StreamSetInfo;
  abrManager_ : AbrManager;
  loaded_ : bool;
  lang_ : string;
  subsNeeded_ : bool;
  cachedRestrictions_ : option Restrictions;
  originalPlaybackRate_ : Q;
  streamsByType_ : Js.object Stream;
  updateTimer_ : option nat;
  mediaSourceDuration : option Q;
  sourceBuffers : list string;
  timeouts : list Q;
  listening : list string;
  warnings : list string
}.

(** [shaka.player.StreamVideoSource.MIN_UPDATE_INTERVAL_]. *)
Definition MIN_UPDATE_INTERVAL_ : Q := 3.

(** A property read through a reference that may be null. *)
Definition deref {A} (o : option A) : Js.completion A :=
  match o with
  | Some a => Js.Normal a
  | None => Js.Throw Js.typeError
  end.

(** ** computeStreamLimits *)

(** One turn of the loop over [segmentIndexes]: the new [startTime] and
    [endTime]. *)
Definition computeStreamLimits_step (this : StreamVideoSource)
    (acc : Q * Js.number) (segmentIndex : Media.SegmentIndex)
  : Js.completion (Q * Js.number) :=
  let (startTime, endTime) := acc in
  if Nat.eqb (Media.length segmentIndex) 0 then
    Js.Normal (0, Js.Finite 0)
  else
    first <- deref (Media.first segmentIndex) ;;
    let startTime := Qmax startTime (Media.startTime first) in
    manifest <- deref (manifestInfo this) ;;
    last <- deref (Media.last segmentIndex) ;;
    if live manifest then
      let t := Media.startTime last - minBufferTime manifest in
      Js.Normal (startTime, Js.min endTime (Qmax 0 t))
    else
      match Media.endTime last with
      | Some e => Js.Normal (startTime, Js.min endTime e)
      | None => Js.Normal (startTime, endTime)
      end.

Fixpoint computeStreamLimits_loop (this : StreamVideoSource)
    (acc : Q * Js.number) (segmentIndexes : list Media.SegmentIndex)
  : Js.completion (Q * Js.number) :=
  match segmentIndexes with
  | [] => Js.Normal acc
  | segmentIndex :: rest =>
      acc' <- computeStreamLimits_step this acc segmentIndex ;;
      computeStreamLimits_loop this acc' rest
  end.

(** The comparison of the limits that ends the function. *)
Definition checkDisjoint (startTime endTime : Q) : option StreamLimits :=
  if Js.gt startTime endTime then None
  else Some (mkStreamLimits startTime endTime).

Definition computeStreamLimits (this : StreamVideoSource)
    (segmentIndexes : list Media.SegmentIndex)
  : Js.completion (option StreamLimits) :=
  acc <- computeStreamLimits_loop this (0, Js.POSITIVE_INFINITY)
           segmentIndexes ;;
  let (startTime, endTime) := acc in
  match endTime with
  | Js.POSITIVE_INFINITY =>
      (* Fallback to the period's duration if necessary. *)
      manifest <- deref (manifestInfo this) ;;
      period <- deref (hd_error (periodInfos manifest)) ;;
      match duration period with
      | Some periodDuration =>
          if Js.truthy (Some periodDuration)
          then Js.Normal (checkDisjoint startTime periodDuration)
          else Js.Normal None
      | None => Js.Normal None
      end
  | Js.Finite endTime =>
      Js.Normal (checkDisjoint startTime endTime)
  end.

(** ** The track listings *)

(** [activeId] of the three listings: the id of the StreamInfo that the
    stream of [type] plays, and 0 when there is no such stream or it plays
    nothing. *)
Definition activeId (this : StreamVideoSource) (type : string) : nat :=
  match Js.get (streamsByType_ this) type with
  | Some stream =>
      match getStreamInfo stream with
      | Some activeStreamInfo => uniqueId activeStreamInfo
      | None => 0%nat
      end
  | None => 0%nat
  end.

Definition getVideoTracks (this : StreamVideoSource) : list VideoTrack.t :=
  match Util.get (streamSetsByType this) "video" with
  | None => []
  | Some videoSets =>
      let activeId := activeId this "video" in
      flat_map (fun streamSetInfo =>
        flat_map (fun streamInfo =>
          (* If not enabled, it has been restricted and should not be used. *)
          if negb (enabled streamInfo) then []
          else
            let id := uniqueId streamInfo in
            [VideoTrack.mk id (bandwidth streamInfo) (width streamInfo)
               (height streamInfo) (Nat.eqb id activeId)])
          (streamInfos streamSetInfo))
        videoSets
  end.

Definition getAudioTracks (this : StreamVideoSource) : list AudioTrack.t :=
  match Util.get (streamSetsByType this) "audio" with
  | None => []
  | Some audioSets =>
      let activeId := activeId this "audio" in
      flat_map (fun streamSetInfo =>
        let lang := lang streamSetInfo in
        map (fun streamInfo =>
          let id := uniqueId streamInfo in
          AudioTrack.mk id (bandwidth streamInfo) lang (Nat.eqb id activeId))
          (streamInfos streamSetInfo))
        audioSets
  end.

(** The text track of one StreamInfo; reading [getEnabled()] throws when
    the track is the active one and there is no text stream. *)
Definition newTextTrack (this : StreamVideoSource) (activeId : nat)
    (lang : string) (streamInfo : StreamInfo) : Js.completion TextTrack.t :=
  let id := uniqueId streamInfo in
  if Nat.eqb id activeId then
    stream <- deref (Js.get (streamsByType_ this) "text") ;;
    Js.Normal (TextTrack.mk id lang true (getEnabled stream))
  else Js.Normal (TextTrack.mk id lang false false).

(** The tracks of a list of items, in order, up to the first throw. *)
Fixpoint collect {A B} (f : A -> Js.completion (list B)) (l : list A)
  : Js.completion (list B) :=
  match l with
  | [] => Js.Normal []
  | a :: rest =>
      tracks <- f a ;;
      more <- collect f rest ;;
      Js.Normal (tracks ++ more)
  end.

Definition getTextTracks (this : StreamVideoSource)
  : Js.completion (list TextTrack.t) :=
  match Util.get (streamSetsByType this) "text" with
  | None => Js.Normal []
  | Some textSets =>
      let activeId := activeId this "text" in
      collect (fun streamSetInfo =>
        let lang := lang streamSetInfo in
        collect (fun streamInfo =>
          track <- newTextTrack this activeId lang streamInfo ;;
          Js.Normal [track])
          (streamInfos streamSetInfo))
        textSets
  end.

(** ** Assignments to the fields of [this] *)

Definition set_manifestInfo (v : option ManifestInfo)
    (this : StreamVideoSource) : StreamVideoSource :=
  mkStreamVideoSource
    v (video this) (streamSetsByType this) (abrManager_ this) (loaded_ this)
    (lang_ this) (subsNeeded_ this) (cachedRestrictions_ this)
    (originalPlaybackRate_ this) (streamsByType_ this) (updateTimer_ this)
    (mediaSourceDuration this) (sourceBuffers this) (timeouts this)
    (listening this) (warnings this).

Definition set_video (v : option Video)
    (this : StreamVideoSource) : StreamVideoSource :=
  mkStreamVideoSource
    (manifestInfo this) v (streamSetsByType this) (abrManager_ this)
    (loaded_ this) (lang_ this) (subsNeeded_ this) (cachedRestrictions_ this)
    (originalPlaybackRate_ this) (streamsByType_ this) (updateTimer_ this)
    (mediaSourceDuration this) (sourceBuffers this) (timeouts this)
    (listening this) (warnings this).

Definition set_streamSetsByType (v : Util.MultiMap StreamSetInfo)
    (this : StreamVideoSource) : StreamVideoSource :=
  mkStreamVideoSource
    (manifestInfo this) (video this) v (abrManager_ this) (loaded_ this)
    (lang_ this) (subsNeeded_ this) (cachedRestrictions_ this)
    (originalPlaybackRate_ this) (streamsByType_ this) (updateTimer_ this)
    (mediaSourceDuration this) (sourceBuffers this) (timeouts this)
    (listening this) (warnings this).

Definition set_abrManager_ (v : AbrManager)
    (this : StreamVideoSource) : StreamVideoSource :=
  mkStreamVideoSource
    (manifestInfo this) (video this) (streamSetsByType this) v (loaded_ this)
    (lang_ this) (subsNeeded_ this) (cachedRestrictions_ this)
    (originalPlaybackRate_ this) (streamsByType_ this) (updateTimer_ this)
    (mediaSourceDuration this) (sourceBuffers this) (timeouts this)
    (listening this) (warnings this).

Definition set_loaded_ (v : bool)
    (this : StreamVideoSource) : StreamVideoSource :=
  mkStreamVideoSource
    (manifestInfo this) (video this) (streamSetsByType this)
    (abrManager_ this) v (lang_ this) (subsNeeded_ this)
    (cachedRestrictions_ this) (originalPlaybackRate_ this)
    (streamsByType_ this) (updateTimer_ this) (mediaSourceDuration this)
    (sourceBuffers this) (timeouts this) (listening this) (warnings this).

Definition set_lang_ (v : string)
    (this : StreamVideoSource) : StreamVideoSource :=
  mkStreamVideoSource
    (manifestInfo this) (video this) (streamSetsByType this)
    (abrManager_ this) (loaded_ this) v (subsNeeded_ this)
    (cachedRestrictions_ this) (originalPlaybackRate_ this)
    (streamsByType_ this) (updateTimer_ this) (mediaSourceDuration this)
    (sourceBuffers this) (timeouts this) (listening this) (warnings this).

Definition set_subsNeeded_ (v : bool)
    (this : StreamVideoSource) : StreamVideoSource :=
  mkStreamVideoSource
    (manifestInfo this) (video this) (streamSetsByType this)
    (abrManager_ this) (loaded_ this) (lang_ this) v
    (cachedRestrictions_ this) (originalPlaybackRate_ this)
    (streamsByType_ this) (updateTimer_ this) (mediaSourceDuration this)
    (sourceBuffers this) (timeouts this) (listening this) (warnings this).

Definition set_cachedRestrictions_ (v : option Restrictions)
    (this : StreamVideoSource) : StreamVideoSource :=
  mkStreamVideoSource
    (manifestInfo this) (video this) (streamSetsByType this)
    (abrManager_ this) (loaded_ this) (lang_ this) (subsNeeded_ this) v
    (originalPlaybackRate_ this) (streamsByType_ this) (updateTimer_ this)
    (mediaSourceDuration this) (sourceBuffers this) (timeouts this)
    (listening this) (warnings this).

Definition set_originalPlaybackRate_ (v : Q)
    (this : StreamVideoSource) : StreamVideoSource :=
  mkStreamVideoSource
    (manifestInfo this) (video this) (streamSetsByType this)
    (abrManager_ this) (loaded_ this) (lang_ this) (subsNeeded_ this)
    (cachedRestrictions_ this) v (streamsByType_ this) (updateTimer_ this)
    (mediaSourceDuration this) (sourceBuffers this) (timeouts this)
    (listening this) (warnings this).

Definition set_streamsByType_ (v : Js.object Stream)
    (this : StreamVideoSource) : StreamVideoSource :=
  mkStreamVideoSource
    (manifestInfo this) (video this) (streamSetsByType this)
    (abrManager_ this) (loaded_ this) (lang_ this) (subsNeeded_ this)
    (cachedRestrictions_ this) (originalPlaybackRate_ this) v
    (updateTimer_ this) (mediaSourceDuration this) (sourceBuffers this)
    (timeouts this) (listening this) (warnings this).

Definition set_updateTimer_ (v : option nat)
    (this : StreamVideoSource) : StreamVideoSource :=
  mkStreamVideoSource
    (manifestInfo this) (video this) (streamSetsByType this)
    (abrManager_ this) (loaded_ this) (lang_ this) (subsNeeded_ this)
    (cachedRestrictions_ this) (originalPlaybackRate_ this)
    (streamsByType_ this) v (mediaSourceDuration this) (sourceBuffers this)
    (timeouts this) (listening this) (warnings this).

Definition set_mediaSourceDuration (v : option Q)
    (this : StreamVideoSource) : StreamVideoSource :=
  mkStreamVideoSource
    (manifestInfo this) (video this) (streamSetsByType this)
    (abrManager_ this) (loaded_ this) (lang_ this) (subsNeeded_ this)
    (cachedRestrictions_ this) (originalPlaybackRate_ this)
    (streamsByType_ this) (updateTimer_ this) v (sourceBuffers this)
    (timeouts this) (listening this) (warnings this).

Definition set_sourceBuffers (v : list string)
    (this : StreamVideoSource) : StreamVideoSource :=
  mkStreamVideoSource
    (manifestInfo this) (video this) (streamSetsByType this)
    (abrManager_ this) (loaded_ this) (lang_ this) (subsNeeded_ this)
    (cachedRestrictions_ this) (originalPlaybackRate_ this)
    (streamsByType_ this) (updateTimer_ this) (mediaSourceDuration this) v
    (timeouts this) (listening this) (warnings this).

Definition set_timeouts (v : list Q)
    (this : StreamVideoSource) : StreamVideoSource :=
  mkStreamVideoSource
    (manifestInfo this) (video this) (streamSetsByType this)
    (abrManager_ this) (loaded_ this) (lang_ this) (subsNeeded_ this)
    (cachedRestrictions_ this) (originalPlaybackRate_ this)
    (streamsByType_ this) (updateTimer_ this) (mediaSourceDuration this)
    (sourceBuffers this) v (listening this) (warnings this).

Definition set_listening (v : list string)
    (this : StreamVideoSource) : StreamVideoSource :=
  mkStreamVideoSource
    (manifestInfo this) (video this) (streamSetsByType this)
    (abrManager_ this) (loaded_ this) (lang_ this) (subsNeeded_ this)
    (cachedRestrictions_ this) (originalPlaybackRate_ this)
    (streamsByType_ this) (updateTimer_ this) (mediaSourceDuration this)
    (sourceBuffers this) (timeouts this) v (warnings this).

Definition set_warnings (v : list string)
    (this : StreamVideoSource) : StreamVideoSource :=
  mkStreamVideoSource
    (manifestInfo this) (video this) (streamSetsByType this)
    (abrManager_ this) (loaded_ this) (lang_ this) (subsNeeded_ this)
    (cachedRestrictions_ this) (originalPlaybackRate_ this)
    (streamsByType_ this) (updateTimer_ this) (mediaSourceDuration this)
    (sourceBuffers this) (timeouts this) (listening this) v.

(** [shaka.log.warning]. *)
Definition log_warning (msg : string) (this : StreamVideoSource)
  : StreamVideoSource :=
  set_warnings (warnings this ++ [msg]) this.

(** [this.eventManager.listen(target, type, ...)]. *)
Definition listen (type : string) (this : StreamVideoSource)
  : StreamVideoSource :=
  set_listening (listening this ++ [type]) this.

(** [window.setTimeout(callback, delay)]: the handle of the new timeout. *)
Definition setTimeout (delay : Q) (this : StreamVideoSource)
  : StreamVideoSource * nat :=
  (set_timeouts (timeouts this ++ [delay]) this,
   S (List.length (timeouts this))).

(** ** Updates of the StreamInfo objects

    The Info objects of the manifest are the objects that
    [streamSetsByType] holds, so a write to a StreamInfo is made through
    every path that reaches it. *)

Definition set_enabled (v : bool) (streamInfo : StreamInfo) : StreamInfo :=
  mkStreamInfo (uniqueId streamInfo) (fullMimeType streamInfo)
    (bandwidth streamInfo) (width streamInfo) (height streamInfo)
    (segmentIndexSource streamInfo) v.

Definition mapStreamSetInfo (f : StreamInfo -> StreamInfo)
    (streamSetInfo : StreamSetInfo) : StreamSetInfo :=
  mkStreamSetInfo (setId streamSetInfo) (contentType streamSetInfo)
    (lang streamSetInfo) (main streamSetInfo)
    (map f (streamInfos streamSetInfo)).

Definition mapPeriodInfo (f : StreamInfo -> StreamInfo)
    (periodInfo : PeriodInfo) : PeriodInfo :=
  mkPeriodInfo (start periodInfo) (duration periodInfo)
    (map (mapStreamSetInfo f) (streamSetInfos periodInfo)).

Definition set_periodInfos (v : list PeriodInfo) (manifest : ManifestInfo)
  : ManifestInfo :=
  mkManifestInfo (live manifest) (updateUrl manifest) (updatePeriod manifest)
    (minBufferTime manifest) v.

Definition mapManifestInfo (f : StreamInfo -> StreamInfo)
    (manifest : ManifestInfo) : ManifestInfo :=
  set_periodInfos (map (mapPeriodInfo f) (periodInfos manifest)) manifest.

Definition mapMultiMap (f : StreamInfo -> StreamInfo)
    (m : Util.MultiMap StreamSetInfo) : Util.MultiMap StreamSetInfo :=
  map (fun entry => (fst entry, map (mapStreamSetInfo f) (snd entry))) m.

(** ** attach, load, getConfigurations, setRestrictions *)

Definition attach (this : StreamVideoSource) (video : Video)
  : StreamVideoSource * Js.promise unit :=
  if negb (loaded_ this) then
    (this, Js.Rejected (Js.streamError "Cannot call attach() right now."))
  else
    let this := set_video (Some video) this in
    let this := listen "sourceopen" this in
    let this := listen "bandwidth" this in
    (* The promise settles when the streams have started. *)
    (this, Js.Pending).

(** [shaka.media.StreamConfig], not among the sources: the id of a stream
    set and what [getBasicMimeType()] returns. *)
Record StreamConfig : Type := mkStreamConfig {
  id : nat;
  getBasicMimeType : string
}.

Section Collaborators.

(** [shaka.media.StreamInfoProcessor.process], not among the sources: it
    filters the periods in place, and [process] gives the periods as it
    leaves them. *)
Variable process : list PeriodInfo -> list PeriodInfo.

(** [shaka.media.PeriodInfo.getConfigs], not among the sources. *)
Variable getConfigs : PeriodInfo -> list StreamConfig.

Definition load (this : StreamVideoSource) (preferredLanguage : string)
  : StreamVideoSource * Js.promise unit :=
  if loaded_ this then
    (this, Js.Rejected (Js.streamError "Cannot call load() right now."))
  else
    match manifestInfo this with
    | None =>
        (this, Js.Rejected
                 (Js.streamError "The manifest does not specify any content."))
    | Some manifest =>
        if Nat.eqb (List.length (periodInfos manifest)) 0 then
          (this, Js.Rejected
                   (Js.streamError
                      "The manifest does not specify any content."))
        else
          let this := set_lang_ preferredLanguage this in
          let manifest := set_periodInfos (process (periodInfos manifest))
                            manifest in
          let this := set_manifestInfo (Some manifest) this in
          let cannotDisplay :=
            Js.Rejected (Js.streamError
              ("The manifest specifies content that cannot " ++
               "be displayed on this browser/platform.")%string) in
          (* TODO(story 1890046): Support multiple periods. *)
          match periodInfos manifest with
          | [] => (this, cannotDisplay)
          | period :: _ =>
              if Nat.eqb (List.length (streamSetInfos period)) 0 then
                (this, cannotDisplay)
              else (set_loaded_ true this, Js.Resolved tt)
          end
    end.

Definition getConfigurations (this : StreamVideoSource)
  : Js.completion (list StreamConfig) :=
  if loaded_ this then
    manifest <- deref (manifestInfo this) ;;
    period <- deref (hd_error (periodInfos manifest)) ;;
    Js.Normal (getConfigs period)
  else Js.Normal [].

(** The body of the innermost loop of [setRestrictions]. *)
Definition restrict (restrictions : Restrictions) (streamInfo : StreamInfo)
  : StreamInfo :=
  let exceeds (limit value : option Q) :=
    Js.truthy limit && Js.gt (Js.toNumber value) (Js.toNumber limit) in
  let below (limit value : option Q) :=
    Js.truthy limit && Js.gt (Js.toNumber limit) (Js.toNumber value) in
  let enabled := true in
  let enabled :=
    if exceeds (maxWidth restrictions) (width streamInfo)
    then false else enabled in
  let enabled :=
    if exceeds (maxHeight restrictions) (height streamInfo)
    then false else enabled in
  let enabled :=
    if exceeds (maxBandwidth restrictions) (bandwidth streamInfo)
    then false else enabled in
  let enabled :=
    if below (minBandwidth restrictions) (bandwidth streamInfo)
    then false else enabled in
  set_enabled enabled streamInfo.

Definition setRestrictions (this : StreamVideoSource)
    (restrictions : Restrictions)
  : StreamVideoSource * Js.completion unit :=
  if negb (loaded_ this) then
    (log_warning "Cannot call setRestrictions() right now." this,
     Js.Normal tt)
  else
    let this := set_cachedRestrictions_ (Some restrictions) this in
    match manifestInfo this with
    | None => (this, Js.Throw Js.typeError)
    | Some manifest =>
        let this :=
          set_manifestInfo
            (Some (mapManifestInfo (restrict restrictions) manifest)) this in
        let this :=
          set_streamSetsByType
            (mapMultiMap (restrict restrictions) (streamSetsByType this))
            this in
        (this, Js.Normal tt)
    end.

(** ** sortByLanguage_ and selectConfigurations *)

(** [shaka.util.LanguageUtils], not among the sources: the two ends of
    [MatchType] and [match(fuzz, preference, candidate)]. *)
Variable MatchType_MIN MatchType_MAX : nat.
Variable LanguageUtils_match : nat -> string -> string -> bool.

(** The index of the first element that [test] accepts. *)
Fixpoint findIndex {A} (test : A -> bool) (l : list A) : option nat :=
  match l with
  | [] => None
  | a :: rest =>
      if test a then Some 0%nat
      else option_map S (findIndex test rest)
  end.

(** [streamSets.splice(i, 1); streamSets.splice(0, 0, set)] for the set at
    index [i]. *)
Definition moveToFront {A} (i : nat) (l : list A) : list A :=
  match nth_error l i with
  | Some set => set :: (firstn i l ++ skipn (S i) l)
  | None => l
  end.

(** The loop over the fuzz levels: the array after the move, if a language
    matched. *)
Fixpoint sortByLanguage_fuzz (lang_ : string) (levels : list nat)
    (streamSets : list StreamSetInfo) : option (list StreamSetInfo) :=
  match levels with
  | [] => None
  | fuzz :: higher =>
      match findIndex (fun set => LanguageUtils_match fuzz lang_ (lang set))
              streamSets with
      | Some i => Some (moveToFront i streamSets)
      | None => sortByLanguage_fuzz lang_ higher streamSets
      end
  end.

(** The fuzz levels from [MatchType.MIN] to [MatchType.MAX]. *)
Definition fuzzLevels : list nat :=
  seq MatchType_MIN (S MatchType_MAX - MatchType_MIN).

(** The array is sorted in place; the result is the array afterwards. *)
Definition sortByLanguage_ (this : StreamVideoSource)
    (streamSets : list StreamSetInfo) : list StreamSetInfo :=
  (* Do a fuzzy match and stop on the lowest successful fuzz level. *)
  match sortByLanguage_fuzz (lang_ this) fuzzLevels streamSets with
  | Some sorted => sorted
  | None =>
      (* If no languages matched, move the "main" set, if any, to the
         front. *)
      match findIndex main streamSets with
      | Some i => moveToFront i streamSets
      | None => streamSets
      end
  end.

(** [streamSetsById[id]], where a later stream set of the period replaces
    an earlier one of the same id. *)
Definition streamSetsById (period : PeriodInfo) (id : nat)
  : option StreamSetInfo :=
  find (fun streamSet => Nat.eqb (setId streamSet) id)
    (rev (streamSetInfos period)).

(** The stream sets pushed for one type of [configs].  A config whose id
    names no stream set of the period yields undefined, on which the later
    reads throw; the model throws at the lookup. *)
Fixpoint pushConfigs (period : PeriodInfo) (type : string)
    (cfgList : list StreamConfig) (m : Util.MultiMap StreamSetInfo)
  : Js.completion (Util.MultiMap StreamSetInfo) :=
  match cfgList with
  | [] => Js.Normal m
  | cfg :: rest =>
      streamSet <- deref (streamSetsById period (id cfg)) ;;
      pushConfigs period type rest (Util.push m type streamSet)
  end.

Definition selectType (period : PeriodInfo)
    (m : Util.MultiMap StreamSetInfo) (entry : string * list StreamConfig)
  : Js.completion (Util.MultiMap StreamSetInfo) :=
  let (type, cfgList) := entry in
  if String.eqb type "video" then
    (* We only choose one video stream set. *)
    cfg <- deref (hd_error cfgList) ;;
    pushConfigs period type [cfg] m
  else if String.eqb type "audio" then
    (* We choose mutually compatible stream sets for audio. *)
    cfg <- deref (hd_error cfgList) ;;
    let basicMimeType := getBasicMimeType cfg in
    pushConfigs period type
      (filter (fun cfg => String.eqb (getBasicMimeType cfg) basicMimeType)
         cfgList) m
  else
    (* We choose all stream sets otherwise. *)
    pushConfigs period type cfgList m.

Fixpoint selectTypes (period : PeriodInfo)
    (m : Util.MultiMap StreamSetInfo)
    (configs : Util.MultiMap StreamConfig)
  : Js.completion (Util.MultiMap StreamSetInfo) :=
  match configs with
  | [] => Js.Normal m
  | entry :: rest =>
      m' <- selectType period m entry ;;
      selectTypes period m' rest
  end.

(** [streamSets[0].lang || this.lang_]. *)
Definition langOr (streamSets : list StreamSetInfo) (lang_ : string)
  : Js.completion string :=
  set <- deref (hd_error streamSets) ;;
  Js.Normal (if String.eqb (lang set) "" then lang_ else lang set).

(** The part of [selectConfigurations] that sorts the sets of [type] by
    language and decides whether subtitles are needed: for audio
    [subsNeeded_] is cleared when the language of the first set matches the
    preference, for text when it does not. *)
Definition sortType (type : string) (clearWhenMatched : bool)
    (this : StreamVideoSource) : Js.completion StreamVideoSource :=
  match Util.get (streamSetsByType this) type with
  | None => Js.Normal this
  | Some streamSets =>
      let streamSets := sortByLanguage_ this streamSets in
      let this :=
        set_streamSetsByType (Util.set (streamSetsByType this) type streamSets)
          this in
      lang <- langOr streamSets (lang_ this) ;;
      let matched := LanguageUtils_match MatchType_MAX (lang_ this) lang in
      if Bool.eqb matched clearWhenMatched
      then Js.Normal (set_subsNeeded_ false this)
      else Js.Normal this
  end.

Definition selectConfigurations (this : StreamVideoSource)
    (configs : Util.MultiMap StreamConfig)
  : StreamVideoSource * Js.completion unit :=
  if negb (loaded_ this) then
    (log_warning "Cannot call selectConfigurations() right now." this,
     Js.Normal tt)
  else
    match manifestInfo this with
    | None => (this, Js.Throw Js.typeError)
    | Some manifest =>
        match periodInfos manifest with
        | [] => (this, Js.Throw Js.typeError)
        | period :: _ =>
            (* Use the IDs to convert the map of configs into a map of
               stream sets. *)
            let this :=
              set_streamSetsByType (Util.clear (streamSetsByType this))
                this in
            match selectTypes period (streamSetsByType this) configs with
            | Js.Throw e => (this, Js.Throw e)
            | Js.Normal m =>
                let this := set_streamSetsByType m this in
                (* Assume subs will be needed. *)
                let this := set_subsNeeded_ true this in
                (* If the audio language matches the user's language
                   preference, then subs are not needed. *)
                match sortType "audio" true this with
                | Js.Throw e => (this, Js.Throw e)
                | Js.Normal this =>
                    (* If there is no text track to match the user's
                       language preference, do not turn subs on by
                       default. *)
                    match sortType "text" false this with
                    | Js.Throw e => (this, Js.Throw e)
                    | Js.Normal this => (this, Js.Normal tt)
                    end
                end
            end
        end
    end.

(** ** setUpdateTimer_ *)

Definition setUpdateTimer_ (this : StreamVideoSource) (offset : Q)
  : StreamVideoSource * Js.completion unit :=
  match manifestInfo this with
  | None => (this, Js.Throw Js.typeError)
  | Some manifest =>
      match updatePeriod manifest with
      | None => (this, Js.Normal tt)
      | Some updatePeriod =>
          let updateInterval :=
            Qmax (updatePeriod - offset) MIN_UPDATE_INTERVAL_ in
          let (this, handle) := setTimeout (1000 * updateInterval) this in
          (set_updateTimer_ (Some handle) this, Js.Normal tt)
      end
  end.

(** ** selectStreamInfos_ *)

(** [streamInfo.uniqueId == trackId], where [trackId] may be null. *)
Definition isTrack (trackId : option nat) (streamInfo : StreamInfo) : bool :=
  match trackId with
  | Some trackId => Nat.eqb (uniqueId streamInfo) trackId
  | None => false
  end.

(** The loop that looks for the StreamInfo of the initial video track:
    [streamInfo] is the variable of that name, assigned at each turn. *)
Fixpoint selectVideoStreamInfo (trackId : option nat)
    (streamInfos : list StreamInfo) (streamInfo : option StreamInfo)
  : option StreamInfo :=
  match streamInfos with
  | [] => streamInfo
  | candidate :: rest =>
      if isTrack trackId candidate then Some candidate
      else selectVideoStreamInfo trackId rest (Some candidate)
  end.

(** The body of the loop of [selectStreamInfos_]: the StreamInfo selected
    from one stream set, undefined ([None]) when the set has none. *)
Definition selectStreamInfo (this : StreamVideoSource)
    (streamSetInfo : StreamSetInfo) : option StreamInfo :=
  (* Start by assuming we will use the first StreamInfo. *)
  let streamInfo := nth_error (streamInfos streamSetInfo) 0 in
  if String.eqb (contentType streamSetInfo) "video" then
    (* Ask AbrManager which video StreamInfo to start with. *)
    let trackId := getInitialVideoTrackId (abrManager_ this) in
    selectVideoStreamInfo trackId (streamInfos streamSetInfo) streamInfo
  else if String.eqb (contentType streamSetInfo) "audio" then
    (* In lieu of audio adaptation, choose the middle stream from the
       available ones. *)
    let index := Nat.div (List.length (streamInfos streamSetInfo)) 2 in
    nth_error (streamInfos streamSetInfo) index
  else streamInfo.

Definition selectStreamInfos_ (this : StreamVideoSource)
    (streamSetInfos : list StreamSetInfo) : Js.object (option StreamInfo) :=
  fold_left
    (fun selectedStreamInfosByType streamSetInfo =>
       Js.set selectedStreamInfosByType (contentType streamSetInfo)
         (selectStreamInfo this streamSetInfo))
    streamSetInfos [].

(** ** createStreams_ and startStreams_ *)

(** Whether [mediaSource.addSourceBuffer(fullMimeType)] returns a
    SourceBuffer, which it then has added to the MediaSource, or throws. *)
Variable addSourceBuffer : string -> bool.

(** A new Stream or TextStream: it plays nothing yet. *)
Definition newStream : Stream := mkStream None false false false.

(** [this] after the call, and the Stream or null.  The write of
    [timestampOffset] to a SourceBuffer just made does not throw. *)
Definition createStream_ (this : StreamVideoSource) (streamInfo : StreamInfo)
  : StreamVideoSource * option Stream :=
  (* Create source buffer. *)
  let fullMimeType := fullMimeType streamInfo in
  if addSourceBuffer fullMimeType then
    (set_sourceBuffers (sourceBuffers this ++ [fullMimeType]) this,
     Some newStream)
  else (this, None).

Definition createTextStream_ : Stream := newStream.

(** The loop of [createStreams_]: [this] after the loop, and the object
    [streamsByType] when every stream was created.  The streams made
    before one fails are destroyed; [Stream.destroy] is not among the
    sources, and nothing in the video source removes their SourceBuffers. *)
Fixpoint createStreams_loop (streamInfosByType : Js.object StreamInfo)
    (this : StreamVideoSource) (streamsByType : Js.object Stream)
  : StreamVideoSource * option (Js.object Stream) :=
  match streamInfosByType with
  | [] => (this, Some streamsByType)
  | (type, streamInfo) :: rest =>
      let (this, stream) :=
        if String.eqb type "text" then (this, Some createTextStream_)
        else createStream_ this streamInfo in
      match stream with
      | None => (this, None)
      | Some stream =>
          createStreams_loop rest this (Js.set streamsByType type stream)
      end
  end.

(** [this] after the call, and the boolean that the call returns. *)
Definition createStreams_ (this : StreamVideoSource)
    (streamInfosByType : Js.object StreamInfo) : StreamVideoSource * bool :=
  match createStreams_loop streamInfosByType this [] with
  | (this, Some streamsByType) => (set_streamsByType_ streamsByType this, true)
  | (this, None) => (this, false)
  end.

(** [stream.switch(streamInfo, immediate)] as the video source sees it:
    the stream plays [streamInfo]. *)
Definition switch (streamInfo : StreamInfo) (stream : Stream) : Stream :=
  mkStream (Some streamInfo) (getEnabled stream) (hasStarted stream)
    (hasEnded stream).

Definition setEnabled (enabled : bool) (stream : Stream) : Stream :=
  mkStream (getStreamInfo stream) enabled (hasStarted stream)
    (hasEnded stream).

Definition enableTextTrack (this : StreamVideoSource) (enabled : bool)
  : StreamVideoSource :=
  match Js.get (streamsByType_ this) "text" with
  | Some textStream =>
      set_streamsByType_
        (Js.set (streamsByType_ this) "text" (setEnabled enabled textStream))
        this
  | None => this
  end.

(** The loop of [startStreams_] over the types of [streamsByType_]. *)
Fixpoint startStreams_loop (streamInfosByType : Js.object StreamInfo)
    (types : list string) (this : StreamVideoSource)
  : StreamVideoSource * Js.completion unit :=
  match types with
  | [] => (this, Js.Normal tt)
  | type :: rest =>
      let this := listen "started" this in
      let this := listen "ended" this in
      match Js.get (streamsByType_ this) type,
            Js.get streamInfosByType type with
      | Some stream, Some streamInfo =>
          let this :=
            set_streamsByType_
              (Js.set (streamsByType_ this) type (switch streamInfo stream))
              this in
          startStreams_loop streamInfosByType rest this
      | _, _ => (this, Js.Throw Js.typeError)
      end
  end.

Definition startStreams_ (this : StreamVideoSource)
    (streamInfosByType : Js.object StreamInfo) (streamLimits : StreamLimits)
  : StreamVideoSource * Js.completion unit :=
  match video this, manifestInfo this with
  | None, _ => (this, Js.Throw Js.typeError)
  | Some video, None =>
      let this := set_originalPlaybackRate_ (playbackRate video) this in
      let this := set_video (Some (mkVideo 0 (currentTime video))) this in
      (this, Js.Throw Js.typeError)
  | Some video, Some manifest =>
      (* Don't allow the video to start immediately. *)
      let this := set_originalPlaybackRate_ (playbackRate video) this in
      (* Set the MediaSource's duration and determine the stream start
         time. *)
      let duration :=
        if live manifest
        then limitEnd streamLimits + 60 * 60 * 24 * 30
        else limitEnd streamLimits - limitStart streamLimits in
      let streamStartTime :=
        if live manifest then limitEnd streamLimits
        else limitStart streamLimits in
      let this := set_mediaSourceDuration (Some duration) this in
      let this := set_video (Some (mkVideo 0 streamStartTime)) this in
      match startStreams_loop streamInfosByType
              (Js.keys (streamsByType_ this)) this with
      | (this, Js.Throw e) => (this, Js.Throw e)
      | (this, Js.Normal _) =>
          (* Enable the subtitle display by default iff the subs are
             needed. *)
          (enableTextTrack this (subsNeeded_ this), Js.Normal tt)
      end
  end.

(** ** createAndStartStreams_ *)

Definition desiredTypes : list string := ["audio"; "video"; "text"].

(** For each desired type, select the first StreamSetInfo.  The lists of
    [streamSetsByType] are never empty; for an empty one the code selects
    undefined and [selectStreamInfos_] throws on it, and the model throws
    here. *)
Fixpoint selectStreamSetInfos (m : Util.MultiMap StreamSetInfo)
    (types : list string) : Js.completion (list StreamSetInfo) :=
  match types with
  | [] => Js.Normal []
  | type :: rest =>
      if Util.has m type then
        sets <- deref (Util.get m type) ;;
        first <- deref (nth_error sets 0) ;;
        more <- selectStreamSetInfos m rest ;;
        Js.Normal (first :: more)
      else selectStreamSetInfos m rest
  end.

(** The StreamInfos of [selectedStreamInfosByType], all of them defined. *)
Fixpoint defined {V} (o : Js.object (option V))
  : Js.completion (Js.object V) :=
  match o with
  | [] => Js.Normal []
  | (k, v) :: rest =>
      v <- deref v ;;
      more <- defined rest ;;
      Js.Normal ((k, v) :: more)
  end.

Definition someStreamsNotAvailable : Js.Error :=
  Js.streamError "Some streams are not available.".

(** The function passed to [then]: it runs with the initial
    SegmentIndexes. *)
Definition createAndStartStreams_then (this : StreamVideoSource)
    (selectedStreamInfosByType : Js.object StreamInfo)
    (segmentIndexes : list Media.SegmentIndex)
  : StreamVideoSource * Js.promise unit :=
  (* Ensure all streams are available. *)
  if negb (forallb (fun index => negb (Nat.eqb (Media.length index) 0))
             segmentIndexes) then
    (this, Js.Rejected someStreamsNotAvailable)
  else
    (* Compute the stream limits. *)
    match computeStreamLimits this segmentIndexes with
    | Js.Throw e => (this, Js.Rejected e)
    | Js.Normal None => (this, Js.Rejected someStreamsNotAvailable)
    | Js.Normal (Some streamLimits) =>
        (* Create the Stream objects. *)
        match createStreams_ this selectedStreamInfosByType with
        | (this, false) =>
            (this, Js.Rejected
                     (Js.streamError "Failed to create Stream objects."))
        | (this, true) =>
            match startStreams_ this selectedStreamInfosByType
                    streamLimits with
            | (this, Js.Throw e) => (this, Js.Rejected e)
            | (this, Js.Normal _) => (this, Js.Resolved tt)
            end
        end
    end.

Definition isAborted (error : Js.Error) : bool :=
  match Js.error_type error with
  | Some type => String.eqb type "aborted"
  | None => false
  end.

(** The function passed to [catch]. *)
Definition createAndStartStreams_catch (this : StreamVideoSource)
    (error : Js.Error) : StreamVideoSource * Js.promise unit :=
  if isAborted error then (this, Js.Resolved tt)
  else
    match manifestInfo this with
    | None => (this, Js.Rejected Js.typeError)
    | Some manifest =>
        (* If the manifest specifies live content then suppress the error,
           we will try to create and start the streams again from
           onUpdateManifest_(). *)
        if live manifest then
          let this := log_warning (Js.message error) this in
          match setUpdateTimer_ this 0 with
          | (this, Js.Throw e) => (this, Js.Rejected e)
          | (this, Js.Normal _) => (this, Js.Resolved tt)
          end
        else (this, Js.Rejected error)
    end.

(** [promise.then(onResolved).catch(onRejected)] on a promise that has
    settled. *)
Definition thenCatch {A} (this : StreamVideoSource) (p : Js.promise A)
    (onResolved : StreamVideoSource -> A -> StreamVideoSource * Js.promise unit)
    (onRejected : StreamVideoSource -> Js.Error ->
                  StreamVideoSource * Js.promise unit)
  : StreamVideoSource * Js.promise unit :=
  match p with
  | Js.Pending => (this, Js.Pending)
  | Js.Rejected e => onRejected this e
  | Js.Resolved a =>
      match onResolved this a with
      | (this, Js.Rejected e) => onRejected this e
      | settled => settled
      end
  end.

Definition startAbrManager (this : StreamVideoSource) : StreamVideoSource :=
  set_abrManager_
    (mkAbrManager (getInitialVideoTrackId (abrManager_ this)) true) this.

(** A throw is a synchronous exception of the call; otherwise the call
    returns a promise. *)
Definition createAndStartStreams_ (this : StreamVideoSource)
  : Js.completion (StreamVideoSource * Js.promise unit) :=
  selectedStreamSetInfos <-
    selectStreamSetInfos (streamSetsByType this) desiredTypes ;;
  let this := startAbrManager this in
  selectedStreamInfosByType <-
    defined (selectStreamInfos_ this selectedStreamSetInfos) ;;
  (* Create the initial SegmentIndexes. *)
  let async :=
    map (fun streamInfo => created (segmentIndexSource streamInfo))
      (Js.values selectedStreamInfosByType) in
  Js.Normal
    (thenCatch this (Js.all async)
       (fun this => createAndStartStreams_then this selectedStreamInfosByType)
       createAndStartStreams_catch).

(** ** onUpdateManifest_

    The end of the function that runs once the manifest was updated, after
    the removed streams were handled and the cached restrictions applied
    again; [startTime] and [endTime] are the two readings of [Date.now()],
    in milliseconds. *)
Definition onUpdateManifest_end (this : StreamVideoSource)
    (startTime endTime : Q) : StreamVideoSource * Js.completion unit :=
  if Js.empty (streamsByType_ this) then
    (* createAndStartStreams_() failed the first time it was called. *)
    match createAndStartStreams_ this with
    | Js.Throw e => (this, Js.Throw e)
    | Js.Normal (this, _) => (this, Js.Normal tt)
    end
  else
    (* Ensure the next update occurs within |manifestInfo.updatePeriod|
       seconds. *)
    setUpdateTimer_ this ((endTime - startTime) / 1000).

(** The function passed to [catch], which runs when the update fails and
    when the function above throws: [this] afterwards, and the error of the
    event that it dispatches, if any.  It arms no timer. *)
Definition onUpdateManifest_catch (this : StreamVideoSource)
    (error : Js.Error) : StreamVideoSource * option Js.Error :=
  (this, if isAborted error then None else Some error).

End Collaborators.

(** ** selectTrack_ and the three selections *)

(** A number as [shaka.log] prints it. *)
Definition numberToString (n : nat) : string :=
  NilEmpty.string_of_uint (Nat.to_uint n).

(** The words of a warning, joined as the console joins them. *)
Definition words (parts : list string) : string := String.concat " " parts.

(** The two loops of [selectTrack_]: the first StreamInfo of the stream
    sets whose [uniqueId] is [id]. *)
Definition findTrack (sets : list StreamSetInfo) (id : nat)
  : option StreamInfo :=
  find (fun streamInfo => Nat.eqb (uniqueId streamInfo) id)
    (flat_map streamInfos sets).

(** [this] after the call and the boolean returned.  The change of stream
    is also logged to the statistics of the player, which are outside the
    record. *)
Definition selectTrack_ (this : StreamVideoSource) (type : string) (id : nat)
    (immediate : bool) : StreamVideoSource * bool :=
  match Util.get (streamSetsByType this) type with
  | None =>
      (log_warning
         (words ["Cannot select"; type; "track"; numberToString id;
                 "because there are no"; type; "tracks."]) this,
       false)
  | Some sets =>
      match Js.get (streamsByType_ this) type with
      | None =>
          (log_warning
             (words ["Cannot select"; type; "track"; numberToString id;
                     "because there are no"; type; "streams yet."]) this,
           false)
      | Some stream =>
          match findTrack sets id with
          | Some streamInfo =>
              (set_streamsByType_
                 (Js.set (streamsByType_ this) type
                    (switch streamInfo stream)) this,
               true)
          | None =>
              (log_warning
                 (words ["Cannot select"; type; "track"; numberToString id;
                         "because it does not exist."]) this,
               false)
          end
      end
  end.

Definition selectVideoTrack (this : StreamVideoSource) (id : nat)
    (immediate : bool) : StreamVideoSource * bool :=
  selectTrack_ this "video" id immediate.

Definition selectAudioTrack (this : StreamVideoSource) (id : nat)
    (immediate : bool) : StreamVideoSource * bool :=
  selectTrack_ this "audio" id immediate.

Definition selectTextTrack (this : StreamVideoSource) (id : nat)
    (immediate : bool) : StreamVideoSource * bool :=
  selectTrack_ this "text" id immediate.

(** ** onStreamStarted_, onAllStreamsStarted_ and onAllStreamsStarted *)

(** A number that may be [Number.NEGATIVE_INFINITY]. *)
Inductive lowerNumber : Type :=
| AtLeast (q : Q)
| NEGATIVE_INFINITY.

(** [Math.max(x, q)] for a finite [q]. *)
Definition max (x : lowerNumber) (q : Q) : lowerNumber :=
  match x with
  | AtLeast e => AtLeast (Qmax e q)
  | NEGATIVE_INFINITY => AtLeast q
  end.

(** The two fields of the object that hold the timestamp corrections; the
    constructor sets them to the two infinities. *)
Record Corrections : Type := mkCorrections {
  minTimestampCorrection_ : Js.number;
  maxTimestampCorrection_ : lowerNumber
}.

Definition noCorrections : Corrections :=
  mkCorrections Js.POSITIVE_INFINITY NEGATIVE_INFINITY.

(** The corrections after the event, and whether all streams have started,
    in which case [onAllStreamsStarted_] runs. *)
Definition onStreamStarted_ (this : StreamVideoSource)
    (corrections : Corrections) (timestampCorrection : Q)
  : Corrections * bool :=
  (mkCorrections
     (Js.min (minTimestampCorrection_ corrections) timestampCorrection)
     (max (maxTimestampCorrection_ corrections) timestampCorrection),
   forallb hasStarted (Js.values (streamsByType_ this))).

(** The three sanity checks that [onAllStreamsStarted_] asserts. *)
Definition sane (corrections : Corrections) : Prop :=
  match minTimestampCorrection_ corrections,
        maxTimestampCorrection_ corrections with
  | Js.Finite least, AtLeast most => least <= most
  | _, _ => False
  end.

(** The test that makes [onAllStreamsStarted_] warn that the content may
    have errors in it: the product of the two corrections is negative. *)
Definition correctionsDisagree (corrections : Corrections) : bool :=
  match minTimestampCorrection_ corrections,
        maxTimestampCorrection_ corrections with
  | Js.Finite least, AtLeast most => Js.gt 0 (least * most)
  | Js.POSITIVE_INFINITY, AtLeast most => Js.gt 0 most
  | Js.Finite least, NEGATIVE_INFINITY => Js.gt least 0
  | Js.POSITIVE_INFINITY, NEGATIVE_INFINITY => true
  end.

(** The hook that runs when the streams have started and the indexes were
    corrected; the listener that it adds for the first seek is on the video
    element itself. *)
Definition onAllStreamsStarted (this : StreamVideoSource)
    (maxTimestampCorrection : Q) : StreamVideoSource * Js.completion unit :=
  match video this with
  | None => (this, Js.Throw Js.typeError)
  | Some video =>
      (set_video
         (Some (mkVideo (originalPlaybackRate_ this)
                  (currentTime video + maxTimestampCorrection))) this,
       Js.Normal tt)
  end.

End Player.

(* ===================================================================== *)
(** * shaka.util.Auth *)
(* ===================================================================== *)

Module Auth.

(** The two private variables of the namespace; a token that a response
    did not hold is undefined ([None]). *)
Record State : Type := mkState {
  authToken_ : option string;
  authUrl_ : string
}.

(** The namespace as the script leaves it when loaded. *)
Definition initial : State := mkState (Some "") "".

(** What [JSON.parse(request.responseText)] gives: an exception when the
    text is not JSON, null, or, as the annotation of the code has it, an
    object of strings, of which [access_token] is read (undefined, [None],
    when the object has none). *)
Inductive Body : Type :=
| NotJSON
| Null
| Object (access_token : option string).

(** The end of a request: it loads with a status, a status text and a
    response text, or it fails on the network. *)
Inductive Exchange : Type :=
| Loaded (status : nat) (statusText : string) (body : Body)
| Failed.

Definition setAuthUrl (state : State) (url : string) : State :=
  mkState (authToken_ state) url.

(** ['Bearer ' + authToken_]. *)
Definition get_header (state : State) : string :=
  "Bearer " ++
  match authToken_ state with
  | Some token => token
  | None => "undefined"
  end.

(** [setTokenAsync()], given how the request to [authUrl_] ends.  An
    exception of [JSON.parse], or of the read of a property of null, is
    thrown in the [onload] callback, which leaves the promise pending. *)
Definition setTokenAsync (state : State) (exchange : Exchange)
  : State * Js.promise unit :=
  match exchange with
  | Loaded status statusText body =>
      if Nat.eqb status 200 then
        match body with
        | Object access_token =>
            (mkState access_token (authUrl_ state), Js.Resolved tt)
        | NotJSON | Null => (state, Js.Pending)
        end
      else
        (state,
         Js.Rejected
           (Js.mkError None
              ("Auth header didn't fetch successfully; error code:" ++
               statusText)))
  | Failed => (state, Js.Rejected (Js.mkError None "There was a network error."))
  end.

(** [setToken()], with a synchronous request: [send()] throws when the
    network fails, and the status of the response is not looked at. *)
Definition setToken (state : State) (exchange : Exchange)
  : State * Js.completion unit :=
  match exchange with
  | Loaded status statusText body =>
      match body with
      | Object access_token =>
          (mkState access_token (authUrl_ state), Js.Normal tt)
      | NotJSON => (state, Js.Throw (Js.mkError None "SyntaxError"))
      | Null => (state, Js.Throw Js.typeError)
      end
  | Failed => (state, Js.Throw (Js.mkError None "NetworkError"))
  end.

End Auth.

(* ===================================================================== *)
(** * shaka.dash.DurationSegmentIndexSource *)
(* ===================================================================== *)

Module Dash.

(** The part of [shaka.dash.mpd] that the source reads. *)
Record SegmentTemplate : Type := mkSegmentTemplate {
  timescale : Double.t;
  segmentDuration : option Double.t;
  startNumber : Z;
  mediaUrlTemplate : option string
}.

Record Representation : Type := mkRepresentation {
  representationId : string;
  segmentTemplate : option SegmentTemplate
}.

Record Period : Type := mkPeriod {
  start : option Q;
  duration : option Double.t
}.

Record Mpd : Type := mkMpd {
  type : string;
  minBufferTime : Q
}.

(** The fields are null after [destroy()]. *)
Record DurationSegmentIndexSource : Type := mkDurationSegmentIndexSource {
  mpd_ : option Mpd;
  period_ : option Period;
  representation_ : option Representation;
  manifestCreationTime_ : Q;
  segmentIndex_ : option Media.SegmentIndex
}.

(** The constructor. *)
Definition new (mpd : Mpd) (period : Period) (representation : Representation)
    (manifestCreationTime : Q) : DurationSegmentIndexSource :=
  mkDurationSegmentIndexSource (Some mpd) (Some period) (Some representation)
    manifestCreationTime None.

Definition destroy (this : DurationSegmentIndexSource)
  : DurationSegmentIndexSource :=
  mkDurationSegmentIndexSource None None None (manifestCreationTime_ this)
    None.

Definition set_segmentIndex_ (v : option Media.SegmentIndex)
    (this : DurationSegmentIndexSource) : DurationSegmentIndexSource :=
  mkDurationSegmentIndexSource (mpd_ this) (period_ this)
    (representation_ this) (manifestCreationTime_ this) v.

(** [new shaka.media.SegmentIndex(references)]: the heap is the number of
    objects made so far, which names the next one. *)
Definition newSegmentIndex (references : list Media.SegmentReference)
    (heap : nat) : Media.SegmentIndex * nat :=
  (Media.mkSegmentIndex heap references, S heap).

Definition deref {A} (o : option A) : Js.completion A :=
  match o with
  | Some a => Js.Normal a
  | None => Js.Throw Js.typeError
  end.

Section Create.

(** [shaka.dash.MpdUtils.generateSegmentReferences(representation,
    firstSegmentNumber, numSegments)], not among the sources: the references,
    or null.  [numSegments] is what [Math.ceil] returned. *)
Variable generateSegmentReferences :
  Representation -> Z -> Double.integer ->
  option (list Media.SegmentReference).

(** The constructor of [shaka.dash.DynamicLiveSegmentIndex], not among the
    sources: the references of the new index, or the exception it throws. *)
Variable newDynamicLiveSegmentIndex :
  Mpd -> option Period -> option Representation -> Q ->
  Js.completion (list Media.SegmentReference).

(** The number of segments that [create] asks for: the ceiling of the
    quotient of two divisions of doubles, each rounded. *)
Definition numSegments (period : Period) (segmentTemplate : SegmentTemplate)
  : Double.integer :=
  let scaledSegmentDuration :=
    Double.div (Double.toNumber (segmentDuration segmentTemplate))
      (timescale segmentTemplate) in
  Double.ceil
    (Double.div (Double.toNumber (duration period)) scaledSegmentDuration).

(** [create()]: the source and the heap after the call, and the promise
    returned; a throw is a synchronous exception. *)
Definition create (this : DurationSegmentIndexSource) (heap : nat)
  : Js.completion
      (DurationSegmentIndexSource * nat * Js.promise Media.SegmentIndex) :=
  match segmentIndex_ this with
  | Some segmentIndex => Js.Normal (this, heap, Js.Resolved segmentIndex)
  | None =>
      mpd <- deref (mpd_ this) ;;
      if String.eqb (type mpd) "dynamic" then
        match newDynamicLiveSegmentIndex mpd (period_ this)
                (representation_ this) (manifestCreationTime_ this) with
        | Js.Throw exception => Js.Normal (this, heap, Js.Rejected exception)
        | Js.Normal references =>
            let (segmentIndex, heap) := newSegmentIndex references heap in
            Js.Normal (set_segmentIndex_ (Some segmentIndex) this, heap,
                       Js.Resolved segmentIndex)
        end
      else
        representation <- deref (representation_ this) ;;
        segmentTemplate <- deref (segmentTemplate representation) ;;
        period <- deref (period_ this) ;;
        let numSegments := numSegments period segmentTemplate in
        match generateSegmentReferences representation 1 numSegments with
        | None =>
            Js.Normal (this, heap,
                       Js.Rejected
                         (Js.streamError
                            "Failed to generate SegmentReferences"))
        | Some references =>
            let (segmentIndex, heap) := newSegmentIndex references heap in
            Js.Normal (set_segmentIndex_ (Some segmentIndex) this, heap,
                       Js.Resolved segmentIndex)
        end
  end.

(** [n] more calls of [create()] after a first one: the outcome of the
    last call. *)
Fixpoint createAgain (n : nat) (this : DurationSegmentIndexSource)
    (heap : nat)
  : Js.completion
      (DurationSegmentIndexSource * nat * Js.promise Media.SegmentIndex) :=
  match n with
  | O => create this heap
  | S n =>
      match create this heap with
      | Js.Normal (this, heap, _) => createAgain n this heap
      | Js.Throw e => Js.Throw e
      end
  end.

End Create.

End Dash.

(* ===================================================================== *)
(** * The design, in the words of its description *)
(* ===================================================================== *)

Module Spec.

Import Info.

(** The kinds of error of the design, and the kind of each error that the
    video source makes. *)
Inductive ErrorKind : Type :=
| Aborted
| AlreadyLoaded
| NotLoaded
| ManifestEmpty
| StreamsNotAvailable
| Other.

Definition kindOf (error : Js.Error) : ErrorKind :=
  if Player.isAborted error then Aborted
  else if String.eqb (Js.message error) "Cannot call load() right now."
  then AlreadyLoaded
  else if String.eqb (Js.message error) "Cannot call attach() right now."
  then NotLoaded
  else if String.eqb (Js.message error)
            "The manifest does not specify any content."
  then ManifestEmpty
  else if String.eqb (Js.message error)
            ("The manifest specifies content that cannot " ++
             "be displayed on this browser/platform.")%string
  then ManifestEmpty
  else if String.eqb (Js.message error) "Some streams are not available."
  then StreamsNotAvailable
  else Other.

(** Whether a promise was rejected with an error of the given kind. *)
Definition failsWith {A} (kind : ErrorKind) (p : Js.promise A) : Prop :=
  exists error, p = Js.Rejected error /\ kindOf error = kind.

(** ** The play window *)

(** The maximum of [base] and the numbers of [l]. *)
Definition maximum (base : Q) (l : list Q) : Q := fold_left Qmax l base.

(** The minimum of the numbers of [l], infinite when there is none. *)
Definition minimum (l : list Q) : Js.number :=
  fold_left Js.min l Js.POSITIVE_INFINITY.

(** A number that may be infinite is at most the finite [q]. *)
Definition le (x : Js.number) (q : Q) : Prop :=
  match x with
  | Js.Finite e => e <= q
  | Js.POSITIVE_INFINITY => False
  end.

Definition firstStartTimes (indexes : list Media.SegmentIndex) : list Q :=
  flat_map (fun index =>
    match Media.first index with
    | Some reference => [Media.startTime reference]
    | None => []
    end) indexes.

(** For live: max(0, index.last().start_time - min_buffer_time). *)
Definition liveEdges (minBufferTime : Q) (indexes : list Media.SegmentIndex)
  : list Q :=
  flat_map (fun index =>
    match Media.last index with
    | Some reference => [Qmax 0 (Media.startTime reference - minBufferTime)]
    | None => []
    end) indexes.

(** For static: the end times of the last references that have one. *)
Definition lastEndTimes (indexes : list Media.SegmentIndex) : list Q :=
  flat_map (fun index =>
    match Media.last index with
    | Some reference =>
        match Media.endTime reference with
        | Some endTime => [endTime]
        | None => []
        end
    | None => []
    end) indexes.

(** The duration of the first period, when it has one that is not 0. *)
Definition fallbackDuration (manifest : ManifestInfo) : option Q :=
  match periodInfos manifest with
  | period :: _ =>
      if Js.truthy (duration period) then duration period else None
  | [] => None
  end.

Definition playWindow (manifest : ManifestInfo)
    (indexes : list Media.SegmentIndex) : option Player.StreamLimits :=
  let start := maximum 0 (firstStartTimes indexes) in
  let finish :=
    if live manifest
    then minimum (liveEdges (minBufferTime manifest) indexes)
    else minimum (lastEndTimes indexes) in
  match finish with
  | Js.Finite finish =>
      if Js.gt start finish then None
      else Some (Player.mkStreamLimits start finish)
  | Js.POSITIVE_INFINITY =>
      match fallbackDuration manifest with
      | Some finish =>
          if Js.gt start finish then None
          else Some (Player.mkStreamLimits start finish)
      | None => None
      end
  end.

(** ** Track listings *)

(** The StreamInfos of the stream sets stored for a type. *)
Definition stored (this : Player.StreamVideoSource) (type : string)
  : list StreamInfo :=
  match Util.get (Player.streamSetsByType this) type with
  | Some sets => flat_map streamInfos sets
  | None => []
  end.

(** ** Restrictions *)

(** A limit that is null or 0 does not restrict. *)
Definition noLimit (limit : option Q) : Prop :=
  match limit with
  | Some q => q == 0
  | None => True
  end.

(** The StreamInfo is within the restrictions; a null width, height or
    bandwidth counts as 0. *)
Definition withinLimits (restrictions : Player.Restrictions)
    (streamInfo : StreamInfo) : Prop :=
  (noLimit (Player.maxWidth restrictions) \/
   Js.toNumber (width streamInfo) <=
   Js.toNumber (Player.maxWidth restrictions)) /\
  (noLimit (Player.maxHeight restrictions) \/
   Js.toNumber (height streamInfo) <=
   Js.toNumber (Player.maxHeight restrictions)) /\
  (noLimit (Player.maxBandwidth restrictions) \/
   Js.toNumber (bandwidth streamInfo) <=
   Js.toNumber (Player.maxBandwidth restrictions)) /\
  (noLimit (Player.minBandwidth restrictions) \/
   Js.toNumber (Player.minBandwidth restrictions) <=
   Js.toNumber (bandwidth streamInfo)).

(** The types of the SourceBuffers that the streams of the entries need:
    the full MIME types of the entries other than text, in order. *)
Definition bufferTypes (entries : Js.object StreamInfo) : list string :=
  map (fun entry => fullMimeType (snd entry))
    (filter (fun entry => negb (String.eqb (fst entry) "text")) entries).

(** ** Playable periods *)

Definition hasStreamSet (period : PeriodInfo) : bool :=
  negb (Nat.eqb (List.length (streamSetInfos period)) 0).

(** Some period has a stream set. *)
Definition anyPeriodPlayable (periods : list PeriodInfo) : bool :=
  existsb hasStreamSet periods.

(** The first period has a stream set. *)
Definition firstPeriodPlayable (periods : list PeriodInfo) : bool :=
  match periods with
  | period :: _ => hasStreamSet period
  | [] => false
  end.

(** The manifest once processed. *)
Definition processed (process : list PeriodInfo -> list PeriodInfo)
    (manifest : ManifestInfo) : ManifestInfo :=
  Player.set_periodInfos (process (periodInfos manifest)) manifest.

(** Whether the source has a manifest with periods whose first period has a
    stream set once processed. *)
Definition loadable (process : list PeriodInfo -> list PeriodInfo)
    (this : Player.StreamVideoSource) : bool :=
  match Player.manifestInfo this with
  | Some manifest =>
      negb (Nat.eqb (List.length (periodInfos manifest)) 0) &&
      firstPeriodPlayable (process (periodInfos manifest))
  | None => false
  end.

(** Modelled from the spec: [shaka.media.StreamInfoProcessor] is not among
    the sources.  This is the part of the manifest processor that decides
    which stream sets a period keeps: it drops the StreamInfos whose
    [full_mime_type] the type-support predicate refuses, then the stream sets
    left empty.  The ids are taken as assigned. *)
Definition processPeriod (supports : string -> bool) (period : PeriodInfo)
  : PeriodInfo :=
  let keep (streamSet : StreamSetInfo) :=
    mkStreamSetInfo (setId streamSet) (contentType streamSet)
      (lang streamSet) (main streamSet)
      (filter (fun streamInfo => supports (fullMimeType streamInfo))
         (streamInfos streamSet)) in
  mkPeriodInfo (start period) (duration period)
    (filter (fun streamSet =>
               negb (Nat.eqb (List.length (streamInfos streamSet)) 0))
       (map keep (streamSetInfos period))).

Definition process (supports : string -> bool) (periods : list PeriodInfo)
  : list PeriodInfo :=
  map (processPeriod supports) periods.

(** ** Segment numbers *)

(** The [n] numbers from [first] on. *)
Definition numbersFrom (first n : Z) : list Z :=
  map (fun i => first + Z.of_nat i)%Z (seq 0 (Z.to_nat n)).

(** The number of references of the template + duration source in the
    spec's words, [ceil(period.duration / (segmentDuration / timescale))],
    in exact arithmetic. *)
Definition numSegments (duration segmentDuration timescale : Q) : Z :=
  Qceiling (duration / (segmentDuration / timescale)).

(** Modelled from the spec: [shaka.dash.MpdUtils.generateSegmentReferences]
    is not among the sources, and of the template + duration source the spec
    says only that it generates that many references.  This generator stands
    for it: it makes [numSegments] contiguous references of the template's
    scaled segment duration each, with the indexes [firstSegmentNumber],
    [firstSegmentNumber + 1], ..., and returns null when the template has no
    media url or when [numSegments] is no number of segments. *)
Definition generateSegmentReferences (representation : Dash.Representation)
    (firstSegmentNumber : Z) (numSegments : Double.integer)
  : option (list Media.SegmentReference) :=
  match Dash.segmentTemplate representation, numSegments with
  | Some template, Double.Int numSegments =>
      match Dash.mediaUrlTemplate template with
      | None => None
      | Some mediaUrl =>
          let scaled :=
            Double.toQ
              (Double.div (Double.toNumber (Dash.segmentDuration template))
                 (Dash.timescale template)) in
          Some (map (fun number =>
                  Media.mkSegmentReference number
                    (inject_Z (number - 1) * scaled)
                    (Some (inject_Z number * scaled))
                    mediaUrl None)
                  (numbersFrom firstSegmentNumber numSegments))
      end
  | _, _ => None
  end.

End Spec.

(* ===================================================================== *)
(** * Examples *)
(* ===================================================================== *)

Module Examples.

Import Info.

Definition reference (index : Z) (startTime endTime : Q)
  : Media.SegmentReference :=
  Media.mkSegmentReference index startTime (Some endTime) "segment.mp4" None.

(** An index without references, and two indexes of two segments each. *)
Definition emptyIndex : Media.SegmentIndex := Media.mkSegmentIndex 0 [].

Definition videoIndex : Media.SegmentIndex :=
  Media.mkSegmentIndex 1 [reference 1 0 6; reference 2 6 12].

Definition audioIndex : Media.SegmentIndex :=
  Media.mkSegmentIndex 2 [reference 1 1 5; reference 2 5 10].

Definition info (uniqueId : nat) (mime : string) (bandwidth : Q)
    (index : Media.SegmentIndex) (enabled : bool) : StreamInfo :=
  mkStreamInfo uniqueId mime (Some bandwidth) None None
    (mkSource (Js.Resolved index)) enabled.

Definition videoSet : StreamSetInfo :=
  mkStreamSetInfo 0 "video" "" false
    [info 0 "video/mp4" 1000000 videoIndex true;
     info 1 "video/mp4" 3000000 videoIndex true].

Definition audioSet : StreamSetInfo :=
  mkStreamSetInfo 1 "audio" "en" true
    [info 2 "audio/mp4" 64000 audioIndex true;
     info 3 "audio/mp4" 128000 audioIndex true;
     info 4 "audio/mp4" 192000 audioIndex true].

Definition period : PeriodInfo :=
  mkPeriodInfo 0 (Some 60) [videoSet; audioSet].

Definition staticManifest : ManifestInfo :=
  mkManifestInfo false None None 2 [period].

Definition liveManifest : ManifestInfo :=
  mkManifestInfo true (Some "live.mpd") (Some 10) 2 [period].

(** A video source as its constructor leaves it. *)
Definition newSource (manifest : ManifestInfo) : Player.StreamVideoSource :=
  Player.mkStreamVideoSource (Some manifest) None [] 
    (Player.mkAbrManager (Some 1%nat) false) false "" false None 1 [] None
    None [] [] [] [].

(** The source once loaded, with its stream sets selected. *)
Definition loadedSource (manifest : ManifestInfo)
  : Player.StreamVideoSource :=
  Player.set_streamSetsByType
    [("video", [videoSet]); ("audio", [audioSet])]
    (Player.set_loaded_ true (newSource manifest)).

(** Restrictions that exclude what is below 100 kbit/s. *)
Definition atLeast100k : Player.Restrictions :=
  Player.mkRestrictions None None None (Some 100000).

(** A manifest whose first period has WebM video only and whose second
    period has MP4 video and audio. *)
Definition webmSet : StreamSetInfo :=
  mkStreamSetInfo 2 "video" "" false
    [info 5 "video/webm" 1000000 videoIndex true].

Definition webmPeriod : PeriodInfo := mkPeriodInfo 0 (Some 30) [webmSet].

Definition laterPeriod : PeriodInfo :=
  mkPeriodInfo 30 (Some 60) [videoSet; audioSet].

Definition twoPeriodManifest : ManifestInfo :=
  mkManifestInfo false None None 2 [webmPeriod; laterPeriod].

(** A platform that supports every type, and one that cannot play WebM. *)
Definition allSupported (mime : string) : bool := true.

Definition noWebm (mime : string) : bool :=
  negb (String.eqb mime "video/webm").

(** A language matcher that accepts equal tags only, at every level, with
    the levels 0 to 2. *)
Definition sameTag (fuzz : nat) (preference candidate : string) : bool :=
  String.eqb preference candidate.

(** Every [addSourceBuffer] succeeds. *)
Definition anyBuffer (mime : string) : bool := true.

Definition video : Player.Video := Player.mkVideo 1 0.

Definition noConfigs (period : PeriodInfo) : list Player.StreamConfig := [].

(** A source that plays: it has a video stream. *)
Definition playingSource (manifest : ManifestInfo)
  : Player.StreamVideoSource :=
  Player.set_streamsByType_ [("video", Player.newStream)]
    (loadedSource manifest).

(** Streams whose timelines are disjoint: the video starts at 5 s and the
    audio ends at 4 s. *)
Definition lateVideoIndex : Media.SegmentIndex :=
  Media.mkSegmentIndex 3 [reference 1 5 8; reference 2 8 11].

Definition earlyAudioIndex : Media.SegmentIndex :=
  Media.mkSegmentIndex 4 [reference 1 0 2; reference 2 2 4].

Definition lateVideoSet : StreamSetInfo :=
  mkStreamSetInfo 0 "video" "" false
    [info 0 "video/mp4" 1000000 lateVideoIndex true;
     info 1 "video/mp4" 3000000 lateVideoIndex true].

Definition earlyAudioSet : StreamSetInfo :=
  mkStreamSetInfo 1 "audio" "en" true
    [info 2 "audio/mp4" 128000 earlyAudioIndex true].

Definition disjointSource (manifest : ManifestInfo)
  : Player.StreamVideoSource :=
  Player.set_video (Some video)
    (Player.set_streamSetsByType
       [("video", [lateVideoSet]); ("audio", [earlyAudioSet])]
       (Player.set_loaded_ true (newSource manifest))).

(** A static presentation of 60 s in segments of 6 s. *)
Definition template : Dash.SegmentTemplate :=
  Dash.mkSegmentTemplate (Double.ofZ 1) (Some (Double.ofZ 6)) 1
    (Some "segment-$Number$.mp4").

Definition representation : Dash.Representation :=
  Dash.mkRepresentation "video-1" (Some template).

Definition durationSource : Dash.DurationSegmentIndexSource :=
  Dash.new (Dash.mkMpd "static" 2)
    (Dash.mkPeriod (Some 0) (Some (Double.ofZ 60))) representation 0.

(** A constructor of live indexes that always throws. *)
Definition noLiveIndex (mpd : Dash.Mpd) (period : option Dash.Period)
    (representation : option Dash.Representation) (creationTime : Q)
  : Js.completion (list Media.SegmentReference) :=
  Js.Throw (Js.streamError "not live").

(** The source once attached to a video element, and the StreamInfos that
    the start selects from it. *)
Definition attachedSource (manifest : ManifestInfo)
  : Player.StreamVideoSource :=
  Player.set_video (Some video) (loadedSource manifest).

Definition selectedInfos : Js.object StreamInfo :=
  [("audio", info 3 "audio/mp4" 128000 audioIndex true);
   ("video", info 1 "video/mp4" 3000000 videoIndex true)].

(** An [addSourceBuffer] that always fails. *)
Definition noBuffer (mime : string) : bool := false.

(** An [addSourceBuffer] that takes MP4 audio only. *)
Definition audioOnly (mime : string) : bool := String.eqb mime "audio/mp4".

(** A video element that plays at twice the speed, and a source attached
    to it that has a video stream. *)
Definition fastVideo : Player.Video := Player.mkVideo 2 0.

Definition playingSource' (manifest : ManifestInfo)
  : Player.StreamVideoSource :=
  Player.set_video (Some fastVideo) (playingSource manifest).

(** A source of a dynamic manifest. *)
Definition liveSource : Dash.DurationSegmentIndexSource :=
  Dash.new (Dash.mkMpd "dynamic" 2) (Dash.mkPeriod (Some 0) None)
    representation 0.

(** A period of 60 s. *)
Definition minute : Dash.Period :=
  Dash.mkPeriod (Some 0) (Some (Double.ofZ 60)).

(** A static presentation of 21 s in segments of 7/10 s: a segment duration
    of 7 units at 10 units per second. *)
Definition tenths : Dash.SegmentTemplate :=
  Dash.mkSegmentTemplate (Double.ofZ 10) (Some (Double.ofZ 7)) 1
    (Some "segment-$Number$.mp4").

Definition tenthsSource : Dash.DurationSegmentIndexSource :=
  Dash.new (Dash.mkMpd "static" 2)
    (Dash.mkPeriod (Some 0) (Some (Double.ofZ 21)))
    (Dash.mkRepresentation "video-1" (Some tenths)) 0.

(** A source with English subtitles whose text stream plays them. *)
Definition subtitles : StreamInfo := info 7 "text/vtt" 0 emptyIndex true.

Definition textSet : StreamSetInfo :=
  mkStreamSetInfo 2 "text" "en" false [subtitles].

Definition subtitledSource : Player.StreamVideoSource :=
  Player.set_streamsByType_
    [("text", Player.switch subtitles Player.newStream)]
    (Player.set_streamSetsByType [("text", [textSet])]
       (Player.set_loaded_ true (newSource staticManifest))).

End Examples.

(* ===================================================================== *)
(** * Properties of the play window *)
(* ===================================================================== *)

Module PlayWindowFacts.

Import Info.

(** [Math.max] and [Math.min] return one of their arguments. *)
Lemma Qmax_cases (x y : Q) : Qmax x y = x \/ Qmax x y = y.
Proof.
  unfold Qmax, GenericMinMax.gmax. destruct (x ?= y); auto.
Qed.

Lemma Qmin_cases (x y : Q) : Qmin x y = x \/ Qmin x y = y.
Proof.
  unfold Qmin, GenericMinMax.gmin. destruct (x ?= y); auto.
Qed.

Lemma maximum_ge_base (l : list Q) (base : Q) : base <= Spec.maximum base l.
Proof.
  unfold Spec.maximum. revert base.
  induction l as [|x l IH]; intros base; simpl.
  - apply Qle_refl.
  - eapply Qle_trans; [apply (Q.le_max_l base x) | apply IH].
Qed.

Lemma maximum_ge (l : list Q) (base x : Q) :
  In x l -> x <= Spec.maximum base l.
Proof.
  unfold Spec.maximum. revert base.
  induction l as [|y l IH]; intros base Hin; simpl in *.
  - contradiction.
  - destruct Hin as [-> | Hin].
    + eapply Qle_trans; [apply (Q.le_max_r base x) |].
      apply (maximum_ge_base l).
    + apply IH, Hin.
Qed.

Lemma maximum_attained (l : list Q) (base : Q) :
  Spec.maximum base l = base \/ In (Spec.maximum base l) l.
Proof.
  unfold Spec.maximum. revert base.
  induction l as [|y l IH]; intros base; simpl.
  - now left.
  - destruct (IH (Qmax base y)) as [H | H].
    + rewrite H. destruct (Qmax_cases base y) as [E | E]; rewrite E; auto.
    + right. now right.
Qed.

Lemma fold_min_le_acc (l : list Q) (acc q : Q) :
  acc <= q -> Spec.le (fold_left Js.min l (Js.Finite acc)) q.
Proof.
  revert acc. induction l as [|y l IH]; intros acc Hle; simpl.
  - exact Hle.
  - apply IH. eapply Qle_trans; [apply Q.le_min_l | exact Hle].
Qed.

Lemma minimum_le (l : list Q) (x : Q) : In x l -> Spec.le (Spec.minimum l) x.
Proof.
  unfold Spec.minimum.
  assert (G : forall acc, In x l -> Spec.le (fold_left Js.min l acc) x).
  { induction l as [|y l IH]; intros acc Hin; simpl in *.
    - contradiction.
    - destruct Hin as [-> | Hin].
      + destruct acc as [e|]; simpl; apply fold_min_le_acc.
        * apply Q.le_min_r.
        * apply Qle_refl.
      + apply IH, Hin. }
  apply G.
Qed.

Lemma fold_min_attained (l : list Q) (acc : Js.number) :
  fold_left Js.min l acc = acc \/
  exists q, fold_left Js.min l acc = Js.Finite q /\ In q l.
Proof.
  revert acc. induction l as [|y l IH]; intros acc; simpl.
  - now left.
  - destruct (IH (Js.min acc y)) as [H | (q & H & Hin)].
    + rewrite H. destruct acc as [e|]; simpl.
      * destruct (Qmin_cases e y) as [E | E]; rewrite E; eauto.
      * eauto.
    + eauto.
Qed.

Lemma minimum_attained (l : list Q) :
  Spec.minimum l = Js.POSITIVE_INFINITY \/
  exists q, Spec.minimum l = Js.Finite q /\ In q l.
Proof. apply fold_min_attained. Qed.

Lemma minimum_infinite (l : list Q) :
  Spec.minimum l = Js.POSITIVE_INFINITY -> l = [].
Proof.
  destruct l as [|x l]; [reflexivity|]. intros H.
  pose proof (minimum_le (x :: l) x (or_introl eq_refl)) as Hle.
  rewrite H in Hle. contradiction.
Qed.

(** An index that has references has a first and a last one. *)
Lemma first_last_defined (index : Media.SegmentIndex) :
  Media.length index <> 0%nat ->
  exists first last,
    Media.first index = Some first /\ Media.last index = Some last.
Proof.
  unfold Media.length, Media.first, Media.last.
  destruct (Media.references index) as [|r l] eqn:E;
    [intros H; now contradiction H|].
  intros _. exists r.
  destruct (rev (r :: l)) as [|r' l'] eqn:E'.
  - apply (f_equal (@List.length _)) in E'.
    rewrite length_rev in E'. discriminate.
  - now exists r'.
Qed.

(** The loop of [computeStreamLimits] folds the two bounds over the
    indexes. *)
Lemma computeStreamLimits_loop_spec (this : Player.StreamVideoSource)
    (manifest : ManifestInfo) (indexes : list Media.SegmentIndex) :
  Player.manifestInfo this = Some manifest ->
  Forall (fun index => Media.length index <> 0%nat) indexes ->
  forall (startTime : Q) (endTime : Js.number),
    Player.computeStreamLimits_loop this (startTime, endTime) indexes =
    Js.Normal
      (fold_left Qmax (Spec.firstStartTimes indexes) startTime,
       fold_left Js.min
         (if live manifest
          then Spec.liveEdges (minBufferTime manifest) indexes
          else Spec.lastEndTimes indexes) endTime).
Proof.
  intros Hm Hall.
  induction Hall as [|index indexes Hne _ IH]; intros startTime endTime.
  - simpl. destruct (live manifest); reflexivity.
  - destruct (first_last_defined index Hne) as (first & last & Hf & Hl).
    cbn [Player.computeStreamLimits_loop].
    unfold Player.computeStreamLimits_step.
    apply Nat.eqb_neq in Hne. rewrite Hne, Hf, Hm, Hl.
    cbn [Js.bind Player.deref].
    cbn [Spec.firstStartTimes Spec.liveEdges Spec.lastEndTimes flat_map].
    rewrite Hf, Hl.
    destruct (live manifest) eqn:Hlive.
    + cbn [Js.bind]. rewrite IH. reflexivity.
    + destruct (Media.endTime last) as [e|]; cbn [Js.bind]; rewrite IH;
        reflexivity.
Qed.

(** C1 (as amended): when every index has references, as the caller of
    [computeStreamLimits] has checked, the limits are the play window of the
    design: the start is the maximum of 0 and of the first start times; the
    end is, for live, the minimum of max(0, last start time - minBufferTime)
    and, for static, the minimum of the last end times that are not null,
    with the duration of the first period as the fallback when there is no
    such minimum; the result is null when the fallback is needed and the
    duration is null or 0, or when the start is greater than the end. *)
Theorem computeStreamLimits_playWindow (this : Player.StreamVideoSource)
    (manifest : ManifestInfo) (indexes : list Media.SegmentIndex) :
  Player.manifestInfo this = Some manifest ->
  periodInfos manifest <> [] ->
  Forall (fun index => Media.length index <> 0%nat) indexes ->
  Player.computeStreamLimits this indexes =
  Js.Normal (Spec.playWindow manifest indexes).
Proof.
  intros Hm Hperiods Hall.
  unfold Player.computeStreamLimits.
  rewrite (computeStreamLimits_loop_spec this manifest indexes Hm Hall).
  cbn [Js.bind]. unfold Spec.playWindow, Spec.maximum, Spec.minimum.
  set (start := fold_left Qmax (Spec.firstStartTimes indexes) 0).
  assert (E : fold_left Js.min
                (if live manifest
                 then Spec.liveEdges (minBufferTime manifest) indexes
                 else Spec.lastEndTimes indexes) Js.POSITIVE_INFINITY =
              if live manifest
              then fold_left Js.min
                     (Spec.liveEdges (minBufferTime manifest) indexes)
                     Js.POSITIVE_INFINITY
              else fold_left Js.min (Spec.lastEndTimes indexes)
                     Js.POSITIVE_INFINITY)
    by (destruct (live manifest); reflexivity).
  rewrite <- E. clear E.
  destruct (fold_left Js.min _ Js.POSITIVE_INFINITY) as [finish|].
  - reflexivity.
  - rewrite Hm. cbn [Js.bind Player.deref]. unfold Spec.fallbackDuration.
    destruct (periodInfos manifest) as [|period periods]; [congruence|].
    cbn [hd_error Js.bind Player.deref].
    destruct (duration period) as [periodDuration|]; [|reflexivity].
    destruct (Js.truthy (Some periodDuration)); reflexivity.
Qed.

(** An index without references makes the loop start again from limits
    that are both 0: what comes before it does not count, and the end of the
    limits, if there are any, is at most 0. *)
Lemma computeStreamLimits_after_empty (this : Player.StreamVideoSource)
    (manifest : ManifestInfo) (before after : list Media.SegmentIndex)
    (empty : Media.SegmentIndex) :
  Player.manifestInfo this = Some manifest ->
  Media.length empty = 0%nat ->
  Forall (fun index => Media.length index <> 0%nat) after ->
  exists endTime,
    endTime <= 0 /\
    Player.computeStreamLimits this (before ++ empty :: after) =
    Js.Normal
      (Player.checkDisjoint (Spec.maximum 0 (Spec.firstStartTimes after))
         endTime).
Proof.
  intros Hm Hempty Hafter.
  assert (Hloop : forall acc,
            Player.computeStreamLimits_loop this acc
              (before ++ empty :: after) =
            Player.computeStreamLimits_loop this (0, Js.Finite 0) after).
  { induction before as [|index before IH]; intros acc.
    - cbn [app Player.computeStreamLimits_loop].
      unfold Player.computeStreamLimits_step at 1.
      destruct acc as [startTime endTime]. rewrite Hempty. reflexivity.
    - cbn [app Player.computeStreamLimits_loop].
      destruct (Player.computeStreamLimits_step this acc index)
        as [acc'|e] eqn:Estep; [apply IH|].
      exfalso. unfold Player.computeStreamLimits_step in Estep.
      destruct acc as [startTime endTime].
      destruct (Nat.eqb (Media.length index) 0) eqn:Elen; [discriminate|].
      apply Nat.eqb_neq in Elen.
      destruct (first_last_defined index Elen) as (f & l & Hf & Hl).
      rewrite Hf, Hm, Hl in Estep. cbn in Estep.
      destruct (live manifest); [discriminate|].
      destruct (Media.endTime l); discriminate. }
  unfold Player.computeStreamLimits. rewrite Hloop.
  rewrite (computeStreamLimits_loop_spec this manifest after Hm Hafter).
  cbn [Js.bind].
  pose proof (fold_min_le_acc
                (if live manifest
                 then Spec.liveEdges (minBufferTime manifest) after
                 else Spec.lastEndTimes after) 0 0 (Qle_refl 0)) as Hle.
  destruct (fold_left Js.min _ (Js.Finite 0)) as [endTime|];
    [|contradiction].
  exists endTime. split; [exact Hle | reflexivity].
Qed.

Lemma computeStreamLimits_playWindow_witness :
  Player.computeStreamLimits (Examples.newSource Examples.staticManifest)
    [Examples.videoIndex; Examples.audioIndex] =
  Js.Normal
    (Spec.playWindow Examples.staticManifest
       [Examples.videoIndex; Examples.audioIndex]).
Proof.
  apply computeStreamLimits_playWindow.
  - reflexivity.
  - discriminate.
  - repeat constructor; discriminate.
Defined.

(** The window of the two example indexes: the video runs from 0 to 12 and
    the audio from 1 to 10. *)
Example playWindow_static :
  Spec.playWindow Examples.staticManifest
    [Examples.videoIndex; Examples.audioIndex] =
  Some (Player.mkStreamLimits 1 10).
Proof. reflexivity. Qed.

(** C1 (as stated) fails: an index without references does not make the
    result null; it sets both limits to 0, and here the limits \{0, 0\} are
    returned. *)
Lemma computeStreamLimits_empty_index_not_null :
  Media.length Examples.emptyIndex = 0%nat /\
  Player.computeStreamLimits (Examples.newSource Examples.staticManifest)
    [Examples.videoIndex; Examples.emptyIndex] =
  Js.Normal (Some (Player.mkStreamLimits 0 0)).
Proof. split; reflexivity. Qed.

End PlayWindowFacts.

(* ===================================================================== *)
(** * Properties of the track listings *)
(* ===================================================================== *)

Module TrackFacts.

Import Info.

(** The video listing holds the enabled StreamInfos, and only them. *)
Lemma getVideoTracks_enabled (this : Player.StreamVideoSource) :
  map VideoTrack.id (Player.getVideoTracks this) =
  map uniqueId (filter enabled (Spec.stored this "video")).
Proof.
  unfold Player.getVideoTracks, Spec.stored.
  destruct (Util.get (Player.streamSetsByType this) "video") as [sets|];
    [|reflexivity].
  induction sets as [|set sets IH]; [reflexivity|].
  cbn [flat_map]. rewrite filter_app, !map_app, IH. f_equal.
  clear IH. induction (streamInfos set) as [|streamInfo l IHl];
    [reflexivity|].
  cbn [flat_map filter]. destruct (enabled streamInfo); cbn.
  - now rewrite IHl.
  - exact IHl.
Qed.

(** The audio listing holds every stored StreamInfo, enabled or not. *)
Lemma getAudioTracks_all (this : Player.StreamVideoSource) :
  map AudioTrack.id (Player.getAudioTracks this) =
  map uniqueId (Spec.stored this "audio").
Proof.
  unfold Player.getAudioTracks, Spec.stored.
  destruct (Util.get (Player.streamSetsByType this) "audio") as [sets|];
    [|reflexivity].
  induction sets as [|set sets IH]; [reflexivity|].
  cbn [flat_map]. rewrite !map_app, IH. f_equal.
  now rewrite map_map.
Qed.

(** In the video and audio listings a track is flagged active exactly when
    its id is the active id. *)
Lemma getVideoTracks_active (this : Player.StreamVideoSource)
    (track : VideoTrack.t) :
  In track (Player.getVideoTracks this) ->
  VideoTrack.active track =
  Nat.eqb (VideoTrack.id track) (Player.activeId this "video").
Proof.
  unfold Player.getVideoTracks.
  destruct (Util.get (Player.streamSetsByType this) "video") as [sets|];
    [|contradiction].
  intros Hin. apply in_flat_map in Hin as (set & _ & Hin).
  apply in_flat_map in Hin as (streamInfo & _ & Hin).
  destruct (enabled streamInfo); cbn in Hin; [|contradiction].
  destruct Hin as [<- | []]. reflexivity.
Qed.

Lemma getAudioTracks_active (this : Player.StreamVideoSource)
    (track : AudioTrack.t) :
  In track (Player.getAudioTracks this) ->
  AudioTrack.active track =
  Nat.eqb (AudioTrack.id track) (Player.activeId this "audio").
Proof.
  unfold Player.getAudioTracks.
  destruct (Util.get (Player.streamSetsByType this) "audio") as [sets|];
    [|contradiction].
  intros Hin. apply in_flat_map in Hin as (set & _ & Hin).
  apply in_map_iff in Hin as (streamInfo & <- & _). reflexivity.
Qed.

Lemma map_of_flat_map {A B C} (f : B -> C) (g : A -> list B) (l : list A) :
  map f (flat_map g l) = flat_map (fun a => map f (g a)) l.
Proof.
  induction l as [|a l IH]; [reflexivity|].
  cbn [flat_map]. now rewrite map_app, IH.
Qed.

Lemma map_singletons {A B} (f : A -> B) (l : list A) :
  map f l = flat_map (fun a => [f a]) l.
Proof.
  induction l as [|a l IH]; [reflexivity|]. cbn. now rewrite IH.
Qed.

Lemma collect_ids {A} (f : A -> Js.completion (list TextTrack.t))
    (g : A -> list nat) (l : list A) (tracks : list TextTrack.t) :
  (forall a ts, f a = Js.Normal ts -> map TextTrack.id ts = g a) ->
  Player.collect f l = Js.Normal tracks ->
  map TextTrack.id tracks = flat_map g l.
Proof.
  intros Hf. revert tracks.
  induction l as [|a l IH]; intros tracks H; cbn in H.
  - injection H as <-. reflexivity.
  - destruct (f a) as [ts|e] eqn:Ea; cbn in H; [|discriminate].
    destruct (Player.collect f l) as [more|e] eqn:El; cbn in H;
      [|discriminate].
    injection H as <-. cbn [flat_map].
    rewrite map_app, (Hf a ts Ea), (IH more eq_refl). reflexivity.
Qed.

(** The text listing, when it returns, holds every stored StreamInfo,
    enabled or not. *)
Lemma getTextTracks_all (this : Player.StreamVideoSource)
    (tracks : list TextTrack.t) :
  Player.getTextTracks this = Js.Normal tracks ->
  map TextTrack.id tracks = map uniqueId (Spec.stored this "text").
Proof.
  unfold Player.getTextTracks, Spec.stored.
  destruct (Util.get (Player.streamSetsByType this) "text") as [sets|].
  - intros H. rewrite map_of_flat_map.
    eapply collect_ids; [|exact H].
    intros set ts Hset. cbn beta in Hset.
    rewrite (map_singletons uniqueId).
    eapply collect_ids; [|exact Hset].
    intros streamInfo ts' Hinfo. cbn beta in Hinfo.
    unfold Player.newTextTrack in Hinfo.
    destruct (Nat.eqb _ _); cbn in Hinfo.
    + destruct (Js.get (Player.streamsByType_ this) "text"); cbn in Hinfo;
        [|discriminate].
      injection Hinfo as <-. reflexivity.
    + injection Hinfo as <-. reflexivity.
  - intros H. injection H as <-. reflexivity.
Qed.

(** C2, at an input where the code departs from it: after
    [setRestrictions(\{minBandwidth: 100000\})] the audio StreamInfo of id 2
    (64 kbit/s) is disabled, and [getAudioTracks] lists it all the same;
    [getVideoTracks], next to it, lists enabled StreamInfos only. *)
Theorem getAudioTracks_lists_disabled :
  let this :=
    fst (Player.setRestrictions
           (Examples.loadedSource Examples.staticManifest)
           Examples.atLeast100k) in
  map (fun streamInfo => (uniqueId streamInfo, enabled streamInfo))
    (Spec.stored this "audio") = [(2, false); (3, true); (4, true)]%nat /\
  map AudioTrack.id (Player.getAudioTracks this) = [2; 3; 4]%nat.
Proof. split; reflexivity. Qed.

End TrackFacts.

(* ===================================================================== *)
(** * Properties of load *)
(* ===================================================================== *)

Module LoadFacts.

Import Info.

Section Load.

Variable process : list PeriodInfo -> list PeriodInfo.

Lemma failsWith_rejected {A} (kind : Spec.ErrorKind) (error : Js.Error) :
  Spec.kindOf error = kind ->
  Spec.failsWith kind (@Js.Rejected A error).
Proof. intros H. exists error. now split. Qed.

Lemma failsWith_resolved {A} (kind : Spec.ErrorKind) (a : A) :
  ~ Spec.failsWith kind (Js.Resolved a).
Proof. intros (error & H & _). discriminate. Qed.

(** C3 (as amended): a call of [load] on a loaded source fails with
    AlreadyLoaded and changes nothing.  On a source that is not loaded it
    fails with ManifestEmpty exactly when there is no manifest, the manifest
    has no period, or the first period has no stream set once the manifest
    is processed; otherwise it records the language, keeps the processed
    manifest, marks the source loaded, and succeeds. *)
Theorem load_outcome (this : Player.StreamVideoSource) (lang : string) :
  (Player.loaded_ this = true ->
   Spec.failsWith Spec.AlreadyLoaded (snd (Player.load process this lang)) /\
   fst (Player.load process this lang) = this) /\
  (Player.loaded_ this = false ->
   (Spec.failsWith Spec.ManifestEmpty (snd (Player.load process this lang))
    <-> Spec.loadable process this = false) /\
   (forall manifest,
      Player.manifestInfo this = Some manifest ->
      Spec.loadable process this = true ->
      Player.load process this lang =
      (Player.set_loaded_ true
         (Player.set_manifestInfo (Some (Spec.processed process manifest))
            (Player.set_lang_ lang this)),
       Js.Resolved tt))).
Proof.
  unfold Player.load, Spec.loadable. split; intros Hloaded; rewrite Hloaded.
  - split; [|reflexivity]. now apply failsWith_rejected.
  - destruct (Player.manifestInfo this) as [manifest|] eqn:Hm.
    2:{ split; [|discriminate].
        split; [reflexivity|]. intros _. now apply failsWith_rejected. }
    destruct (Nat.eqb (List.length (periodInfos manifest)) 0) eqn:Hlen.
    { cbn [negb andb]. split.
      - split; [reflexivity|]. intros _. now apply failsWith_rejected.
      - intros m _ H. discriminate. }
    cbn [negb andb periodInfos Player.set_periodInfos].
    unfold Spec.firstPeriodPlayable, Spec.hasStreamSet.
    destruct (process (periodInfos manifest)) as [|period periods] eqn:Hp.
    { split.
      - split; [reflexivity|]. intros _. now apply failsWith_rejected.
      - intros m _ H. discriminate. }
    destruct (Nat.eqb (List.length (streamSetInfos period)) 0) eqn:Hsets;
      cbn [negb fst snd].
    + split.
      * split; [reflexivity|]. intros _. now apply failsWith_rejected.
      * intros m _ H. discriminate.
    + split.
      * split; [|discriminate]. intros H.
        now apply failsWith_resolved in H.
      * intros m Em _. injection Em as <-.
        unfold Spec.processed, Player.set_periodInfos. rewrite Hp.
        reflexivity.
Qed.

End Load.

Lemma load_outcome_witness :
  (Spec.failsWith Spec.AlreadyLoaded
     (snd (Player.load (Spec.process Examples.allSupported)
             (Examples.loadedSource Examples.staticManifest) "en"))) /\
  Player.load (Spec.process Examples.allSupported)
    (Examples.newSource Examples.staticManifest) "en" =
  (Player.set_loaded_ true
     (Player.set_manifestInfo
        (Some (Spec.processed (Spec.process Examples.allSupported)
                 Examples.staticManifest))
        (Player.set_lang_ "en" (Examples.newSource Examples.staticManifest))),
   Js.Resolved tt).
Proof.
  split.
  - apply (proj1 (load_outcome (Spec.process Examples.allSupported)
                    (Examples.loadedSource Examples.staticManifest) "en")).
    reflexivity.
  - apply (proj2 (load_outcome (Spec.process Examples.allSupported)
                    (Examples.newSource Examples.staticManifest) "en")).
    + reflexivity.
    + reflexivity.
    + reflexivity.
Defined.

(** C3 (as stated) fails: on a platform that cannot play WebM the second
    period of the manifest keeps its stream sets once processed, and [load]
    fails with ManifestEmpty all the same, because the first period keeps
    none. *)
Lemma load_rejects_playable_later_period :
  Spec.anyPeriodPlayable
    (Spec.process Examples.noWebm
       (periodInfos Examples.twoPeriodManifest)) = true /\
  Spec.failsWith Spec.ManifestEmpty
    (snd (Player.load (Spec.process Examples.noWebm)
            (Examples.newSource Examples.twoPeriodManifest) "en")).
Proof.
  split; [reflexivity|].
  eexists. split; reflexivity.
Qed.

End LoadFacts.

(* ===================================================================== *)
(** * Calls on a source that is not loaded *)
(* ===================================================================== *)

Module NotLoadedFacts.

Import Info.

(** C9 (as amended): on a source that is not loaded, [attach] fails with
    NotLoaded and changes nothing; [selectConfigurations] and
    [setRestrictions] log a warning, change nothing else and return without
    an error; [getConfigurations] returns the empty list. *)
Theorem calls_before_load (MatchType_MIN MatchType_MAX : nat)
    (LanguageUtils_match : nat -> string -> string -> bool)
    (getConfigs : PeriodInfo -> list Player.StreamConfig)
    (this : Player.StreamVideoSource) (video : Player.Video)
    (configs : Util.MultiMap Player.StreamConfig)
    (restrictions : Player.Restrictions) :
  Player.loaded_ this = false ->
  (Spec.failsWith Spec.NotLoaded (snd (Player.attach this video)) /\
   fst (Player.attach this video) = this) /\
  Player.selectConfigurations MatchType_MIN MatchType_MAX LanguageUtils_match
    this configs =
  (Player.log_warning "Cannot call selectConfigurations() right now." this,
   Js.Normal tt) /\
  Player.setRestrictions this restrictions =
  (Player.log_warning "Cannot call setRestrictions() right now." this,
   Js.Normal tt) /\
  Player.getConfigurations getConfigs this = Js.Normal [].
Proof.
  intros Hloaded.
  unfold Player.attach, Player.selectConfigurations, Player.setRestrictions,
    Player.getConfigurations.
  rewrite Hloaded. cbn [negb fst snd]. repeat split.
  eexists. split; reflexivity.
Qed.

Lemma calls_before_load_witness :
  Player.setRestrictions (Examples.newSource Examples.staticManifest)
    Examples.atLeast100k =
  (Player.log_warning "Cannot call setRestrictions() right now."
     (Examples.newSource Examples.staticManifest),
   Js.Normal tt).
Proof.
  apply (calls_before_load 0 2 Examples.sameTag Examples.noConfigs
           (Examples.newSource Examples.staticManifest) Examples.video []
           Examples.atLeast100k).
  reflexivity.
Defined.

(** C9 (as stated) fails: [setRestrictions] on a source that is not loaded
    returns normally; no error reaches the caller, and the restrictions are
    not kept. *)
Lemma setRestrictions_before_load_returns :
  Player.loaded_ (Examples.newSource Examples.staticManifest) = false /\
  snd (Player.setRestrictions (Examples.newSource Examples.staticManifest)
         Examples.atLeast100k) = Js.Normal tt /\
  Player.cachedRestrictions_
    (fst (Player.setRestrictions
            (Examples.newSource Examples.staticManifest)
            Examples.atLeast100k)) = None.
Proof. repeat split. Qed.

End NotLoadedFacts.

(* ===================================================================== *)
(** * The update timer *)
(* ===================================================================== *)

Module TimerFacts.

Import Info.

(** [this] with one more timeout armed, of which [updateTimer_] is the
    handle. *)
Lemma setTimeout_armed (this : Player.StreamVideoSource) (delay : Q) :
  Player.setTimeout delay this =
  (Player.set_timeouts (Player.timeouts this ++ [delay]) this,
   S (List.length (Player.timeouts this))).
Proof. reflexivity. Qed.

(** What [setUpdateTimer_] does to the timeouts of the window. *)
Lemma setUpdateTimer_timeouts (this : Player.StreamVideoSource)
    (manifest : ManifestInfo) (offset : Q) :
  Player.manifestInfo this = Some manifest ->
  snd (Player.setUpdateTimer_ this offset) = Js.Normal tt /\
  match updatePeriod manifest with
  | Some updatePeriod =>
      Player.timeouts (fst (Player.setUpdateTimer_ this offset)) =
      Player.timeouts this ++
      [1000 * Qmax (updatePeriod - offset) Player.MIN_UPDATE_INTERVAL_] /\
      Player.updateTimer_ (fst (Player.setUpdateTimer_ this offset)) =
      Some (S (List.length (Player.timeouts this)))
  | None => fst (Player.setUpdateTimer_ this offset) = this
  end.
Proof.
  intros Hm. unfold Player.setUpdateTimer_. rewrite Hm.
  destruct (updatePeriod manifest) as [updatePeriod|]; cbn; auto.
Qed.

End TimerFacts.

(* ===================================================================== *)
(** * The start of the streams *)
(* ===================================================================== *)

Module StartFacts.

Import Info.

Section Start.

Variable addSourceBuffer : string -> bool.

(** The function passed to [then] rejects when an index has no reference or
    when there are no stream limits. *)
Lemma then_not_available (this : Player.StreamVideoSource)
    (infos : Js.object StreamInfo) (indexes : list Media.SegmentIndex) :
  Exists (fun index => Media.length index = 0%nat) indexes \/
  Player.computeStreamLimits this indexes = Js.Normal None ->
  Player.createAndStartStreams_then addSourceBuffer this infos indexes =
  (this, Js.Rejected Player.someStreamsNotAvailable).
Proof.
  intros H. unfold Player.createAndStartStreams_then.
  destruct (forallb _ indexes) eqn:Hall; [|reflexivity].
  cbn [negb]. destruct H as [Hex | Hnull].
  - exfalso. apply Exists_exists in Hex as (index & Hin & Hlen).
    rewrite forallb_forall in Hall. specialize (Hall index Hin).
    rewrite Hlen in Hall. discriminate.
  - rewrite Hnull. reflexivity.
Qed.

(** The function passed to [catch], on the error of streams that are not
    available. *)
Lemma catch_not_available (this : Player.StreamVideoSource)
    (manifest : ManifestInfo) :
  Player.manifestInfo this = Some manifest ->
  Player.createAndStartStreams_catch this Player.someStreamsNotAvailable =
  if live manifest then
    (fst (Player.setUpdateTimer_
            (Player.log_warning "Some streams are not available." this) 0),
     Js.Resolved tt)
  else (this, Js.Rejected Player.someStreamsNotAvailable).
Proof.
  intros Hm. unfold Player.createAndStartStreams_catch.
  cbn [Player.isAborted Player.someStreamsNotAvailable Js.streamError
       Js.error_type String.eqb Ascii.eqb Bool.eqb].
  rewrite Hm. destruct (live manifest); [|reflexivity].
  unfold Player.setUpdateTimer_.
  cbn [Player.log_warning Player.set_warnings Player.manifestInfo].
  rewrite Hm. destruct (updatePeriod manifest); reflexivity.
Qed.


End Start.



End StartFacts.

(* ===================================================================== *)
(** * The initial selection *)
(* ===================================================================== *)

Module SelectionFacts.

Import Info.

(** The loop over the video StreamInfos stops at the first one of the
    initial track. *)
Lemma selectVideoStreamInfo_found (trackId : option nat)
    (streamInfos : list StreamInfo) (streamInfo : option StreamInfo)
    (found : StreamInfo) :
  find (Player.isTrack trackId) streamInfos = Some found ->
  Player.selectVideoStreamInfo trackId streamInfos streamInfo = Some found.
Proof.
  revert streamInfo.
  induction streamInfos as [|candidate rest IH]; intros streamInfo H;
    cbn in *.
  - discriminate.
  - destruct (Player.isTrack trackId candidate); [exact H | now apply IH].
Qed.

Lemma find_isTrack (trackId : nat) (streamInfos : list StreamInfo)
    (streamInfo : StreamInfo) :
  In streamInfo streamInfos ->
  uniqueId streamInfo = trackId ->
  exists found,
    find (Player.isTrack (Some trackId)) streamInfos = Some found /\
    In found streamInfos /\ uniqueId found = trackId.
Proof.
  intros Hin Hid.
  destruct (find (Player.isTrack (Some trackId)) streamInfos) as [found|]
    eqn:E.
  - exists found. apply find_some in E as [Hfound Htrack].
    cbn in Htrack. apply Nat.eqb_eq in Htrack. auto.
  - exfalso. apply (find_none _ _ E) in Hin. cbn in Hin.
    apply Nat.eqb_neq in Hin. contradiction.
Qed.

(** C5: for a desired type that [streamSetsByType] has, the first stream
    set stored for it is selected, and the StreamInfo selected for the type
    comes from that set: for video it is a StreamInfo of the set whose
    uniqueId is the initial video track id of the ABR manager, when the set
    has one; for audio it is the one at index n / 2 (rounded down) of the n
    StreamInfos of the set; for text it is the first one. *)
Theorem initial_stream_infos (this : Player.StreamVideoSource)
    (type : string) (first : StreamSetInfo) (rest sets : list StreamSetInfo) :
  In type Player.desiredTypes ->
  Util.get (Player.streamSetsByType this) type = Some (first :: rest) ->
  (forall t, In t Player.desiredTypes ->
     forall set others,
       Util.get (Player.streamSetsByType this) t = Some (set :: others) ->
       contentType set = t) ->
  Player.selectStreamSetInfos (Player.streamSetsByType this)
    Player.desiredTypes = Js.Normal sets ->
  In first sets /\
  Js.get (Player.selectStreamInfos_ this sets) type =
  Some (Player.selectStreamInfo this first) /\
  (type = "video" ->
   forall trackId streamInfo,
     Player.getInitialVideoTrackId (Player.abrManager_ this) = Some trackId ->
     In streamInfo (streamInfos first) ->
     uniqueId streamInfo = trackId ->
     exists selected,
       Player.selectStreamInfo this first = Some selected /\
       In selected (streamInfos first) /\ uniqueId selected = trackId) /\
  (type = "audio" ->
   Player.selectStreamInfo this first =
   nth_error (streamInfos first)
     (Nat.div (List.length (streamInfos first)) 2)) /\
  (type = "text" ->
   Player.selectStreamInfo this first = nth_error (streamInfos first) 0).
Proof.
  intros Htype Hget Hinv Hsets.
  assert (Hct : contentType first = type) by (eapply Hinv; eauto).
  unfold Player.selectStreamSetInfos, Player.desiredTypes, Util.has in Hsets.
  pose proof (Hinv "audio" (or_introl eq_refl)) as Ha.
  pose proof (Hinv "video" (or_intror (or_introl eq_refl))) as Hv.
  pose proof (Hinv "text" (or_intror (or_intror (or_introl eq_refl)))) as Ht.
  unfold Util.get in *.
  split; [|split; [|split; [|split]]].
  - destruct (Js.get (Player.streamSetsByType this) "audio")
      as [[|a la]|] eqn:Ea;
    destruct (Js.get (Player.streamSetsByType this) "video")
      as [[|v lv]|] eqn:Ev;
    destruct (Js.get (Player.streamSetsByType this) "text")
      as [[|t lt]|] eqn:Et;
    cbn in Hsets; try discriminate; injection Hsets as <-;
    destruct Htype as [<- | [<- | [<- | []]]];
    try congruence;
    rewrite Hget in *;
    repeat match goal with
           | H : Some _ = Some _ |- _ => injection H as <- <-
           end; cbn; auto.
  - destruct (Js.get (Player.streamSetsByType this) "audio")
      as [[|a la]|] eqn:Ea;
    destruct (Js.get (Player.streamSetsByType this) "video")
      as [[|v lv]|] eqn:Ev;
    destruct (Js.get (Player.streamSetsByType this) "text")
      as [[|t lt]|] eqn:Et;
    cbn in Hsets; try discriminate; injection Hsets as <-;
    try (specialize (Ha _ _ eq_refl));
    try (specialize (Hv _ _ eq_refl));
    try (specialize (Ht _ _ eq_refl));
    destruct Htype as [<- | [<- | [<- | []]]];
    try congruence;
    rewrite Hget in *;
    repeat match goal with
           | H : Some _ = Some _ |- _ => injection H as <- <-
           end;
    unfold Player.selectStreamInfos_; cbn [fold_left];
    repeat match goal with
           | H : contentType _ = _ |- _ => rewrite H
           end; reflexivity.
  - intros -> trackId streamInfo Hid Hin Huid.
    destruct (find_isTrack trackId _ _ Hin Huid)
      as (found & Hfind & Hfound & Hfid).
    exists found. split; [|auto].
    unfold Player.selectStreamInfo. rewrite Hct, Hid. cbn.
    now apply selectVideoStreamInfo_found.
  - intros ->. unfold Player.selectStreamInfo. rewrite Hct. reflexivity.
  - intros ->. unfold Player.selectStreamInfo. rewrite Hct. reflexivity.
Qed.

Lemma initial_stream_infos_witness :
  Js.get
    (Player.selectStreamInfos_
       (Examples.loadedSource Examples.staticManifest)
       [Examples.audioSet; Examples.videoSet]) "audio" =
  Some (Player.selectStreamInfo
          (Examples.loadedSource Examples.staticManifest)
          Examples.audioSet).
Proof.
  refine (proj1 (proj2 (initial_stream_infos
                          (Examples.loadedSource Examples.staticManifest)
                          "audio" Examples.audioSet []
                          [Examples.audioSet; Examples.videoSet]
                          _ eq_refl _ eq_refl))).
  - left. reflexivity.
  - intros t [<- | [<- | [<- | []]]] set others H; cbn in H;
      try discriminate; injection H as <- <-; reflexivity.
Defined.

(** The example source starts with the video track that the ABR manager
    names (id 1) and with the middle one of the three audio StreamInfos
    (id 3). *)
Example initial_stream_infos_ids :
  map (fun entry => (fst entry, option_map uniqueId (snd entry)))
    (Player.selectStreamInfos_
       (Examples.loadedSource Examples.staticManifest)
       [Examples.audioSet; Examples.videoSet]) =
  [("audio", Some 3%nat); ("video", Some 1%nat)].
Proof. reflexivity. Qed.

End SelectionFacts.

(* ===================================================================== *)
(** * The order of the stream sets by language *)
(* ===================================================================== *)

Module LanguageFacts.

Import Info.

Local Open Scope nat_scope.

Lemma findIndex_some {A} (test : A -> bool) (l : list A) (i : nat) :
  Player.findIndex test l = Some i ->
  exists a,
    nth_error l i = Some a /\ test a = true /\
    forall j b, j < i -> nth_error l j = Some b -> test b = false.
Proof.
  revert i. induction l as [|x l IH]; intros i H; cbn in H.
  - discriminate.
  - destruct (test x) eqn:Ex.
    + injection H as <-. exists x. repeat split; auto. intros j b Hj. lia.
    + destruct (Player.findIndex test l) as [k|]; cbn in H; [|discriminate].
      injection H as <-. destruct (IH k eq_refl) as (a & Hn & Ha & Hbefore).
      exists a. repeat split; auto.
      intros [|j] b Hj Hb; cbn in Hb.
      * now injection Hb as <-.
      * apply (Hbefore j b); [lia | exact Hb].
Qed.

Lemma findIndex_none {A} (test : A -> bool) (l : list A) :
  Player.findIndex test l = None ->
  forall a, In a l -> test a = false.
Proof.
  induction l as [|x l IH]; intros H a Hin; cbn in *.
  - contradiction.
  - destruct (test x) eqn:Ex; [discriminate|].
    destruct (Player.findIndex test l); [discriminate|].
    destruct Hin as [<- | Hin]; auto.
Qed.

(** Taking an element out of a list and putting it in front permutes the
    list. *)
Lemma moveToFront_shape {A} (i : nat) (l : list A) (a : A) :
  nth_error l i = Some a ->
  Player.moveToFront i l = a :: firstn i l ++ skipn (S i) l /\
  Permutation (Player.moveToFront i l) l.
Proof.
  intros H. unfold Player.moveToFront. rewrite H. split; [reflexivity|].
  apply nth_error_split in H as (l1 & l2 & -> & <-).
  rewrite firstn_app, Nat.sub_diag, firstn_all, firstn_O, app_nil_r.
  replace (S (List.length l1)) with (List.length l1 + 1) by lia.
  rewrite skipn_app, skipn_all2 by lia.
  replace (List.length l1 + 1 - List.length l1) with 1 by lia.
  cbn. apply Permutation_middle.
Qed.

Section Sort.

Variable MatchType_MIN MatchType_MAX : nat.
Variable LanguageUtils_match : nat -> string -> string -> bool.

(** The loop over the levels [first], [first + 1], ... moves the first
    match of the lowest level that has one. *)
Lemma sortByLanguage_fuzz_some (lang_ : string)
    (streamSets sorted : list StreamSetInfo) (count first : nat) :
  Player.sortByLanguage_fuzz LanguageUtils_match lang_ (seq first count)
    streamSets = Some sorted ->
  exists fuzz i,
    first <= fuzz < first + count /\
    Player.findIndex
      (fun set => LanguageUtils_match fuzz lang_ (lang set)) streamSets =
    Some i /\
    sorted = Player.moveToFront i streamSets /\
    forall lower, first <= lower < fuzz ->
      Player.findIndex
        (fun set => LanguageUtils_match lower lang_ (lang set)) streamSets =
      None.
Proof.
  revert first. induction count as [|count IH]; intros first H; cbn in H.
  - discriminate.
  - destruct (Player.findIndex
                (fun set => LanguageUtils_match first lang_ (lang set))
                streamSets) as [i|] eqn:E.
    + injection H as <-. exists first, i. repeat split; auto; lia.
    + destruct (IH (S first) H) as (fuzz & i & Hrange & Hi & Hs & Hlower).
      exists fuzz, i. repeat split; auto; try lia.
      intros lower Hl. destruct (Nat.eq_dec lower first) as [-> | Hne].
      * exact E.
      * apply Hlower. lia.
Qed.

Lemma sortByLanguage_fuzz_none (lang_ : string)
    (streamSets : list StreamSetInfo) (count first : nat) :
  Player.sortByLanguage_fuzz LanguageUtils_match lang_ (seq first count)
    streamSets = None ->
  forall fuzz, first <= fuzz < first + count ->
    Player.findIndex
      (fun set => LanguageUtils_match fuzz lang_ (lang set)) streamSets =
    None.
Proof.
  revert first. induction count as [|count IH]; intros first H fuzz Hf;
    cbn in H.
  - lia.
  - destruct (Player.findIndex
                (fun set => LanguageUtils_match first lang_ (lang set))
                streamSets) as [i|] eqn:E; [discriminate|].
    destruct (Nat.eq_dec fuzz first) as [-> | Hne]; [exact E|].
    apply (IH (S first) H). lia.
Qed.

(** C10: [sortByLanguage_] permutes the stream sets.  It either leaves the
    array as it is, or moves one set to the front and keeps the others in
    their order; the set moved is the first one whose language matches the
    preference at the lowest fuzz level at which any set matches, or, when
    no language matches at any level, the first set flagged main. *)
Theorem sortByLanguage_permutes (this : Player.StreamVideoSource)
    (streamSets : list StreamSetInfo) :
  let sorted :=
    Player.sortByLanguage_ MatchType_MIN MatchType_MAX LanguageUtils_match
      this streamSets in
  let matchesAt fuzz set :=
    LanguageUtils_match fuzz (Player.lang_ this) (lang set) = true in
  let noMatchBelow fuzz :=
    forall lower set,
      MatchType_MIN <= lower < fuzz -> In set streamSets ->
      LanguageUtils_match lower (Player.lang_ this) (lang set) = false in
  Permutation sorted streamSets /\
  (sorted = streamSets \/
   exists i moved,
     nth_error streamSets i = Some moved /\
     sorted = moved :: firstn i streamSets ++ skipn (S i) streamSets /\
     ((exists fuzz,
         MatchType_MIN <= fuzz <= MatchType_MAX /\
         matchesAt fuzz moved /\
         (forall j earlier, j < i -> nth_error streamSets j = Some earlier ->
            ~ matchesAt fuzz earlier) /\
         noMatchBelow fuzz) \/
      (noMatchBelow (S MatchType_MAX) /\
       main moved = true /\
       forall j earlier, j < i -> nth_error streamSets j = Some earlier ->
         main earlier = false))).
Proof.
  intros sorted matchesAt noMatchBelow. subst sorted.
  unfold Player.sortByLanguage_, Player.fuzzLevels.
  destruct (Player.sortByLanguage_fuzz _ _ _ streamSets) as [sorted|] eqn:E.
  - apply sortByLanguage_fuzz_some in E
      as (fuzz & i & Hrange & Hi & -> & Hlower).
    apply findIndex_some in Hi as (moved & Hnth & Hmatch & Hbefore).
    destruct (moveToFront_shape i streamSets moved Hnth) as [Hshape Hperm].
    split; [exact Hperm|]. right. exists i, moved.
    split; [exact Hnth|]. split; [exact Hshape|]. left. exists fuzz.
    split; [lia|]. split; [exact Hmatch|]. split.
    + intros j earlier Hj He Hm. unfold matchesAt in Hm.
      rewrite (Hbefore j earlier Hj He) in Hm. discriminate.
    + intros lower set Hl Hin.
      apply (findIndex_none _ _ (Hlower lower Hl) set Hin).
  - assert (Hnone : noMatchBelow (S MatchType_MAX)).
    { intros lower set Hl Hin.
      apply (findIndex_none
               (fun set =>
                  LanguageUtils_match lower (Player.lang_ this) (lang set))
               streamSets); [|exact Hin].
      apply (sortByLanguage_fuzz_none _ _ _ _ E). lia. }
    destruct (Player.findIndex main streamSets) as [i|] eqn:Em.
    + apply findIndex_some in Em as (moved & Hnth & Hmain & Hbefore).
      destruct (moveToFront_shape i streamSets moved Hnth) as [Hshape Hperm].
      split; [exact Hperm|]. right. exists i, moved.
      split; [exact Hnth|]. split; [exact Hshape|]. right. auto.
    + split; [apply Permutation_refl | now left].
Qed.

End Sort.

(** French is preferred: of the sets en, fr, de the second one comes
    first. *)
Example sortByLanguage_fr :
  map lang
    (Player.sortByLanguage_ 0 2 Examples.sameTag
       (Player.set_lang_ "fr"
          (Examples.newSource Examples.staticManifest))
       [mkStreamSetInfo 0 "audio" "en" true [];
        mkStreamSetInfo 1 "audio" "fr" false [];
        mkStreamSetInfo 2 "audio" "de" false []]) =
  ["fr"; "en"; "de"]%string.
Proof. reflexivity. Qed.

End LanguageFacts.

(* ===================================================================== *)
(** * The duration segment index source *)
(* ===================================================================== *)

Module DashFacts.

Section Create.

Variable generateSegmentReferences :
  Dash.Representation -> Z -> Double.integer ->
  option (list Media.SegmentReference).

Variable newDynamicLiveSegmentIndex :
  Dash.Mpd -> option Dash.Period -> option Dash.Representation -> Q ->
  Js.completion (list Media.SegmentReference).

(** A call that resolves leaves the index in [segmentIndex_]. *)
Lemma create_resolved_kept (this this' : Dash.DurationSegmentIndexSource)
    (heap heap' : nat) (index : Media.SegmentIndex) :
  Dash.create generateSegmentReferences newDynamicLiveSegmentIndex this heap =
  Js.Normal (this', heap', Js.Resolved index) ->
  Dash.segmentIndex_ this' = Some index.
Proof.
  unfold Dash.create.
  destruct (Dash.segmentIndex_ this) as [cached|] eqn:Ecached.
  - intros H. injection H as <- _ <-. exact Ecached.
  - destruct (Dash.mpd_ this) as [mpd|]; cbn; [|discriminate].
    destruct (String.eqb (Dash.type mpd) "dynamic").
    + destruct (newDynamicLiveSegmentIndex _ _ _ _); cbn; intros H;
        [|discriminate].
      injection H as <- _ <-. reflexivity.
    + destruct (Dash.representation_ this) as [representation|]; cbn;
        [|discriminate].
      destruct (Dash.segmentTemplate representation) as [template|]; cbn;
        [|discriminate].
      destruct (Dash.period_ this) as [period|]; cbn; [|discriminate].
      destruct (generateSegmentReferences _ _ _); cbn; intros H;
        [|discriminate].
      injection H as <- _ <-. reflexivity.
Qed.

(** A call on a source that holds an index returns that index and changes
    nothing. *)
Lemma create_cached_call (this : Dash.DurationSegmentIndexSource)
    (heap : nat) (index : Media.SegmentIndex) :
  Dash.segmentIndex_ this = Some index ->
  Dash.create generateSegmentReferences newDynamicLiveSegmentIndex this heap =
  Js.Normal (this, heap, Js.Resolved index).
Proof. intros H. unfold Dash.create. now rewrite H. Qed.

(** A call on a source that holds no index makes a new object when it
    resolves. *)
Lemma create_first_call (this this' : Dash.DurationSegmentIndexSource)
    (heap heap' : nat) (index : Media.SegmentIndex) :
  Dash.segmentIndex_ this = None ->
  Dash.create generateSegmentReferences newDynamicLiveSegmentIndex this heap =
  Js.Normal (this', heap', Js.Resolved index) ->
  heap' = S heap /\ Media.objectId index = heap.
Proof.
  unfold Dash.create. intros ->.
  destruct (Dash.mpd_ this) as [mpd|]; cbn; [|discriminate].
  destruct (String.eqb (Dash.type mpd) "dynamic").
  - destruct (newDynamicLiveSegmentIndex _ _ _ _); cbn; intros H;
      [|discriminate].
    injection H as _ <- <-. now split.
  - destruct (Dash.representation_ this) as [representation|]; cbn;
      [|discriminate].
    destruct (Dash.segmentTemplate representation) as [template|]; cbn;
      [|discriminate].
    destruct (Dash.period_ this) as [period|]; cbn; [|discriminate].
    destruct (generateSegmentReferences _ _ _); cbn; intros H;
      [|discriminate].
    injection H as _ <- <-. now split.
Qed.

(** C8: after a call of [create()] that resolves to an index, every later
    call resolves to the same SegmentIndex object, makes no new object and
    leaves the source as it is; and when the source held no index before the
    first call, that call made the object. *)
Theorem create_cached (this this' : Dash.DurationSegmentIndexSource)
    (heap heap' : nat) (index : Media.SegmentIndex) :
  Dash.create generateSegmentReferences newDynamicLiveSegmentIndex this heap =
  Js.Normal (this', heap', Js.Resolved index) ->
  (Dash.segmentIndex_ this = None ->
   heap' = S heap /\ Media.objectId index = heap) /\
  forall (n : nat) (later : nat),
    Dash.createAgain generateSegmentReferences newDynamicLiveSegmentIndex n
      this' later = Js.Normal (this', later, Js.Resolved index).
Proof.
  intros H. split.
  - intros Hnone. exact (create_first_call this this' heap heap' index Hnone H).
  - pose proof (create_resolved_kept _ _ _ _ _ H) as Hkept.
    intros n later. induction n as [|n IH]; cbn.
    + now apply create_cached_call.
    + rewrite (create_cached_call this' later index Hkept).
      exact IH.
Qed.

Lemma numbersFrom_length (first n : Z) :
  List.length (Spec.numbersFrom first n) = Z.to_nat n.
Proof. unfold Spec.numbersFrom. now rewrite length_map, length_seq. Qed.

(** [Math.ceil] of a zero or a finite double is the ceiling of the
    rational that the double is. *)
Lemma ceil_toQ (x : Double.t) :
  Double.isFinite x = true ->
  Double.ceil x = Double.Int (Qceiling (Double.toQ x)).
Proof.
  destruct x as [s|s| |s m e]; try discriminate; intros _.
  - reflexivity.
  - unfold Double.ceil, Double.toQ. destruct e as [|p|k].
    + now rewrite Qceiling_Z.
    + now rewrite Qceiling_Z.
    + reflexivity.
Qed.

(** The references of the generator modelled from the spec are numbered
    from the first number on, and there are as many as asked for. *)
Lemma generateSegmentReferences_numbered
    (representation : Dash.Representation) (first n : Z)
    (references : list Media.SegmentReference) :
  Spec.generateSegmentReferences representation first (Double.Int n) =
  Some references ->
  map Media.index references = Spec.numbersFrom first n /\
  List.length references = Z.to_nat n.
Proof.
  unfold Spec.generateSegmentReferences.
  destruct (Dash.segmentTemplate representation) as [template|];
    [|discriminate].
  destruct (Dash.mediaUrlTemplate template) as [mediaUrl|]; [|discriminate].
  intros H. injection H as <-. split.
  - rewrite map_map. cbn [Media.index]. apply map_id.
  - rewrite length_map. apply numbersFrom_length.
Qed.


End Create.



(** A period of 3003 s in segments of 1001 / 1000 s: 3001 references,
    where the formula gives 3000. *)
Example numSegments_3003 :
  Dash.numSegments (Dash.mkPeriod (Some 0) (Some (Double.ofZ 3003)))
    (Dash.mkSegmentTemplate (Double.ofZ 1000) (Some (Double.ofZ 1001)) 1 None)
  = Double.Int 3001 /\
  Spec.numSegments 3003 1001 1000 = 3000%Z.
Proof. split; vm_compute; reflexivity. Qed.

(** The example source makes ten references, numbered from 1 to 10. *)
Example create_static_ten :
  match Dash.create Spec.generateSegmentReferences Examples.noLiveIndex
          Examples.durationSource 0 with
  | Js.Normal (_, _, Js.Resolved index) =>
      map Media.index (Media.references index)
  | _ => []
  end = [1; 2; 3; 4; 5; 6; 7; 8; 9; 10]%Z.
Proof. reflexivity. Qed.

Lemma create_cached_witness :
  exists this' index,
    Dash.create Spec.generateSegmentReferences Examples.noLiveIndex
      Examples.durationSource 0 =
    Js.Normal (this', 1%nat, Js.Resolved index) /\
    Dash.createAgain Spec.generateSegmentReferences Examples.noLiveIndex 2
      this' 1 =
    Js.Normal (this', 1%nat, Js.Resolved index).
Proof.
  eexists. eexists. split; [reflexivity|].
  refine (proj2 (create_cached Spec.generateSegmentReferences
                   Examples.noLiveIndex Examples.durationSource
                   _ 0 1 _ _) 2%nat 1%nat).
  reflexivity.
Defined.

End DashFacts.

(* ===================================================================== *)
(** * More on the stream limits *)
(* ===================================================================== *)

Module LimitsFacts.

Import Info.

(** With a manifest, a turn of the loop does not throw and keeps the start
    time at or above 0. *)
Lemma computeStreamLimits_step_start (this : Player.StreamVideoSource)
    (manifest : ManifestInfo) (startTime : Q) (endTime : Js.number)
    (index : Media.SegmentIndex) :
  Player.manifestInfo this = Some manifest ->
  0 <= startTime ->
  exists startTime' endTime',
    Player.computeStreamLimits_step this (startTime, endTime) index =
    Js.Normal (startTime', endTime') /\ 0 <= startTime'.
Proof.
  intros Hm Hpos. unfold Player.computeStreamLimits_step.
  destruct (Nat.eqb (Media.length index) 0) eqn:Elen.
  - exists 0, (Js.Finite 0). split; [reflexivity | apply Qle_refl].
  - apply Nat.eqb_neq in Elen.
    destruct (PlayWindowFacts.first_last_defined index Elen)
      as (f & l & Hf & Hl).
    rewrite Hf, Hm, Hl. cbn [Js.bind Player.deref].
    assert (Hmax : 0 <= Qmax startTime (Media.startTime f)).
    { eapply Qle_trans; [exact Hpos | apply Q.le_max_l]. }
    destruct (live manifest); [eauto|].
    destruct (Media.endTime l); eauto.
Qed.

Lemma computeStreamLimits_loop_start (this : Player.StreamVideoSource)
    (manifest : ManifestInfo) (indexes : list Media.SegmentIndex) :
  Player.manifestInfo this = Some manifest ->
  forall (startTime : Q) (endTime : Js.number),
    0 <= startTime ->
    exists startTime' endTime',
      Player.computeStreamLimits_loop this (startTime, endTime) indexes =
      Js.Normal (startTime', endTime') /\ 0 <= startTime'.
Proof.
  intros Hm. induction indexes as [|index indexes IH];
    intros startTime endTime Hpos; cbn [Player.computeStreamLimits_loop].
  - eauto.
  - destruct (computeStreamLimits_step_start this manifest startTime endTime
                index Hm Hpos) as (s & e & Hstep & Hs).
    rewrite Hstep. cbn [Js.bind]. now apply IH.
Qed.

Lemma checkDisjoint_ordered (startTime endTime : Q)
    (limits : Player.StreamLimits) :
  Player.checkDisjoint startTime endTime = Some limits ->
  Player.limitStart limits = startTime /\
  Player.limitEnd limits = endTime /\ startTime <= endTime.
Proof.
  unfold Player.checkDisjoint, Js.gt.
  destruct (Qle_bool startTime endTime) eqn:E; cbn; [|discriminate].
  intros H. injection H as <-. apply Qle_bool_iff in E. auto.
Qed.

(** X1: with a manifest that has a period, [computeStreamLimits] returns
    for every list of indexes, and the limits it returns, if any, start at
    or after 0 and end at or after their start. *)
Theorem computeStreamLimits_ordered (this : Player.StreamVideoSource)
    (manifest : ManifestInfo) (indexes : list Media.SegmentIndex) :
  Player.manifestInfo this = Some manifest ->
  periodInfos manifest <> [] ->
  exists result,
    Player.computeStreamLimits this indexes = Js.Normal result /\
    forall limits,
      result = Some limits ->
      0 <= Player.limitStart limits /\
      Player.limitStart limits <= Player.limitEnd limits.
Proof.
  intros Hm Hperiods. unfold Player.computeStreamLimits.
  destruct (computeStreamLimits_loop_start this manifest indexes Hm 0
              Js.POSITIVE_INFINITY (Qle_refl 0)) as (s & e & Hloop & Hs).
  rewrite Hloop. cbn [Js.bind].
  assert (Hcheck : forall finish limits,
            Player.checkDisjoint s finish = Some limits ->
            0 <= Player.limitStart limits /\
            Player.limitStart limits <= Player.limitEnd limits).
  { intros finish limits H.
    apply checkDisjoint_ordered in H as (-> & -> & Hle). auto. }
  destruct e as [finish|].
  - eexists. split; [reflexivity|]. apply Hcheck.
  - rewrite Hm. cbn [Js.bind Player.deref].
    destruct (periodInfos manifest) as [|period periods]; [congruence|].
    cbn [hd_error Js.bind Player.deref].
    destruct (duration period) as [periodDuration|].
    + destruct (Js.truthy (Some periodDuration)).
      * eexists. split; [reflexivity|]. apply Hcheck.
      * eexists. split; [reflexivity|]. discriminate.
    + eexists. split; [reflexivity|]. discriminate.
Qed.

Lemma computeStreamLimits_ordered_witness :
  exists result,
    Player.computeStreamLimits (Examples.newSource Examples.liveManifest)
      [Examples.emptyIndex; Examples.audioIndex; Examples.videoIndex] =
    Js.Normal result /\
    forall limits,
      result = Some limits ->
      0 <= Player.limitStart limits /\
      Player.limitStart limits <= Player.limitEnd limits.
Proof.
  apply (computeStreamLimits_ordered
           (Examples.newSource Examples.liveManifest) Examples.liveManifest).
  - reflexivity.
  - discriminate.
Defined.

(** A list that has an index without references splits at the last such
    index. *)
Lemma last_empty_index (indexes : list Media.SegmentIndex) :
  Exists (fun index => Media.length index = 0%nat) indexes ->
  exists before empty after,
    indexes = before ++ empty :: after /\
    Media.length empty = 0%nat /\
    Forall (fun index => Media.length index <> 0%nat) after.
Proof.
  induction indexes as [|index indexes IH]; intros Hex.
  - inversion Hex.
  - assert (Hdec : forall index : Media.SegmentIndex,
              {Media.length index = 0%nat} + {Media.length index <> 0%nat})
      by (intros x; apply Nat.eq_dec).
    destruct (Exists_dec (fun index => Media.length index = 0%nat) indexes
                Hdec) as [Hlater | Hnone].
    + destruct (IH Hlater) as (before & empty & after & -> & He & Ha).
      exists (index :: before), empty, after. auto.
    + inversion Hex as [? ? Hhere | ? ? Hlater]; [|contradiction].
      exists [], index, indexes. repeat split; [exact Hhere|].
      apply Forall_forall. intros later Hin Hzero. apply Hnone.
      apply Exists_exists. eauto.
Qed.

(** X2: when some index has no reference, the limits are null or both
    equal to 0, whatever the other indexes hold. *)
Theorem computeStreamLimits_with_empty (this : Player.StreamVideoSource)
    (manifest : ManifestInfo) (indexes : list Media.SegmentIndex) :
  Player.manifestInfo this = Some manifest ->
  Exists (fun index => Media.length index = 0%nat) indexes ->
  Player.computeStreamLimits this indexes = Js.Normal None \/
  exists limits,
    Player.computeStreamLimits this indexes = Js.Normal (Some limits) /\
    Player.limitStart limits == 0 /\ Player.limitEnd limits == 0.
Proof.
  intros Hm Hex.
  destruct (last_empty_index indexes Hex)
    as (before & empty & after & -> & Hempty & Hafter).
  destruct (PlayWindowFacts.computeStreamLimits_after_empty this manifest
              before after empty Hm Hempty Hafter) as (e & He & ->).
  pose proof (PlayWindowFacts.maximum_ge_base (Spec.firstStartTimes after) 0)
    as Hs.
  destruct (Player.checkDisjoint _ e) as [limits|] eqn:E; [|now left].
  right. exists limits. split; [reflexivity|].
  apply checkDisjoint_ordered in E as (-> & -> & Hle).
  split; apply Qle_antisym; auto.
  - eapply Qle_trans; eauto.
  - eapply Qle_trans; eauto.
Qed.

Lemma computeStreamLimits_with_empty_witness :
  Player.computeStreamLimits (Examples.newSource Examples.staticManifest)
    [Examples.emptyIndex; Examples.lateVideoIndex] = Js.Normal None \/
  exists limits,
    Player.computeStreamLimits (Examples.newSource Examples.staticManifest)
      [Examples.emptyIndex; Examples.lateVideoIndex] =
    Js.Normal (Some limits) /\
    Player.limitStart limits == 0 /\ Player.limitEnd limits == 0.
Proof.
  apply (computeStreamLimits_with_empty
           (Examples.newSource Examples.staticManifest)
           Examples.staticManifest).
  - reflexivity.
  - left. reflexivity.
Defined.

End LimitsFacts.

(* ===================================================================== *)
(** * More on the track listings *)
(* ===================================================================== *)

Module ListingFacts.

Import Info.

(** X3: while no stream exists for video or audio, the listing of that type
    flags as active the tracks of id 0 and only them. *)
Theorem tracks_active_before_start (this : Player.StreamVideoSource) :
  Js.get (Player.streamsByType_ this) "video" = None ->
  Js.get (Player.streamsByType_ this) "audio" = None ->
  (forall track, In track (Player.getVideoTracks this) ->
     VideoTrack.active track = Nat.eqb (VideoTrack.id track) 0) /\
  (forall track, In track (Player.getAudioTracks this) ->
     AudioTrack.active track = Nat.eqb (AudioTrack.id track) 0).
Proof.
  intros Hv Ha. split; intros track Hin.
  - rewrite (TrackFacts.getVideoTracks_active this track Hin).
    unfold Player.activeId. now rewrite Hv.
  - rewrite (TrackFacts.getAudioTracks_active this track Hin).
    unfold Player.activeId. now rewrite Ha.
Qed.

Lemma tracks_active_before_start_witness :
  Forall
    (fun track => VideoTrack.active track = Nat.eqb (VideoTrack.id track) 0)
    (Player.getVideoTracks (Examples.loadedSource Examples.staticManifest)).
Proof.
  apply Forall_forall.
  apply (tracks_active_before_start
           (Examples.loadedSource Examples.staticManifest)); reflexivity.
Defined.

(** The example source lists the video track of id 0 as active before any
    stream exists. *)
Example tracks_active_before_start_ids :
  map (fun track => (VideoTrack.id track, VideoTrack.active track))
    (Player.getVideoTracks (Examples.loadedSource Examples.staticManifest)) =
  [(0%nat, true); (1%nat, false)].
Proof. reflexivity. Qed.

(** Whether [collect] throws, when the only error is a TypeError. *)
Lemma collect_throws {A B} (f : A -> Js.completion (list B)) (l : list A) :
  (forall a e, f a = Js.Throw e -> e = Js.typeError) ->
  (Player.collect f l = Js.Throw Js.typeError <->
   exists a, In a l /\ f a = Js.Throw Js.typeError) /\
  (forall e, Player.collect f l = Js.Throw e -> e = Js.typeError).
Proof.
  intros Hf. induction l as [|a l [IH IHe]]; cbn.
  - split; [|discriminate]. split; [discriminate | now intros (a & [] & _)].
  - destruct (f a) as [ts|e] eqn:Ea; cbn.
    + destruct (Player.collect f l) as [more|e] eqn:El; cbn.
      * split; [|discriminate]. split; [discriminate|].
        intros (x & [<- | Hin] & Hx); [congruence|].
        assert (H : Js.Normal more = Js.Throw Js.typeError :> Js.completion _)
          by (apply IH; eauto).
        discriminate.
      * pose proof (IHe e eq_refl) as ->. split.
        -- split; [|reflexivity]. intros _.
           destruct (proj1 IH eq_refl) as (x & Hin & Hx). eauto.
        -- intros e' H. now injection H as <-.
    + pose proof (Hf a e Ea) as ->. split.
      * split; [eauto | reflexivity].
      * intros e' H. now injection H as <-.
Qed.

(** X4: while no text stream exists, [getTextTracks] throws a TypeError
    exactly when a stored text StreamInfo has the id 0; with a text stream it
    always returns. *)
Theorem getTextTracks_throws (this : Player.StreamVideoSource) :
  (Js.get (Player.streamsByType_ this) "text" = None ->
   (Player.getTextTracks this = Js.Throw Js.typeError <->
    exists streamInfo,
      In streamInfo (Spec.stored this "text") /\
      uniqueId streamInfo = 0%nat)) /\
  (Js.get (Player.streamsByType_ this) "text" <> None ->
   exists tracks, Player.getTextTracks this = Js.Normal tracks).
Proof.
  unfold Player.getTextTracks, Spec.stored, Util.get. split.
  - intros Hnone.
    assert (Hactive : Player.activeId this "text" = 0%nat)
      by (unfold Player.activeId; now rewrite Hnone).
    rewrite Hactive.
    destruct (Js.get (Player.streamSetsByType this) "text") as [sets|].
    2:{ split; [discriminate | now intros (x & [] & _)]. }
    assert (Htrack : forall language streamInfo e,
              (track <- Player.newTextTrack this 0 language streamInfo ;;
               Js.Normal [track]) = Js.Throw e -> e = Js.typeError).
    { intros language streamInfo e. unfold Player.newTextTrack.
      rewrite Hnone. destruct (Nat.eqb _ 0); cbn; [|discriminate].
      intros H. now injection H as <-. }
    assert (Hinner : forall set,
              (Player.collect
                 (fun streamInfo =>
                    track <- Player.newTextTrack this 0 (lang set)
                               streamInfo ;;
                    Js.Normal [track]) (streamInfos set) =
               Js.Throw Js.typeError <->
               exists streamInfo,
                 In streamInfo (streamInfos set) /\
                 uniqueId streamInfo = 0%nat) /\
              forall e,
                Player.collect
                  (fun streamInfo =>
                     track <- Player.newTextTrack this 0 (lang set)
                                streamInfo ;;
                     Js.Normal [track]) (streamInfos set) =
                Js.Throw e -> e = Js.typeError).
    { intros set.
      destruct (collect_throws
                  (fun streamInfo =>
                     track <- Player.newTextTrack this 0 (lang set)
                                streamInfo ;;
                     Js.Normal [track]) (streamInfos set)
                  (Htrack (lang set))) as [Hiff He].
      split; [|exact He]. rewrite Hiff.
      split; intros (streamInfo & Hin & H); exists streamInfo;
        (split; [exact Hin|]);
        unfold Player.newTextTrack in *; rewrite Hnone in *.
      - destruct (Nat.eqb (uniqueId streamInfo) 0) eqn:E;
          [now apply Nat.eqb_eq | discriminate].
      - rewrite H. reflexivity. }
    destruct (collect_throws _ sets (fun set => proj2 (Hinner set)))
      as [Hiff _].
    rewrite Hiff. split.
    + intros (set & Hset & H). apply Hinner in H as (streamInfo & Hin & Hid).
      exists streamInfo. split; [|exact Hid].
      apply in_flat_map. eauto.
    + intros (streamInfo & Hin & Hid).
      apply in_flat_map in Hin as (set & Hset & Hin).
      exists set. split; [exact Hset|]. apply Hinner. eauto.
  - intros Hsome.
    destruct (Js.get (Player.streamsByType_ this) "text") as [stream|] eqn:E;
      [|congruence].
    destruct (Js.get (Player.streamSetsByType this) "text") as [sets|];
      [|eauto].
    assert (Hall : forall {A} (f : A -> Js.completion (list TextTrack.t)) l,
              (forall a, exists ts, f a = Js.Normal ts) ->
              exists ts, Player.collect f l = Js.Normal ts).
    { intros A f l Hf. induction l as [|a l [more IH]]; cbn; [eauto|].
      destruct (Hf a) as [ts ->]. cbn. rewrite IH. cbn. eauto. }
    apply Hall. intros set. apply Hall. intros streamInfo.
    unfold Player.newTextTrack. rewrite E.
    destruct (Nat.eqb _ _); cbn; eauto.
Qed.

Lemma getTextTracks_throws_witness :
  Player.getTextTracks
    (Player.set_streamSetsByType
       [("text", [mkStreamSetInfo 3 "text" "en" false
                    [Examples.info 0 "text/vtt" 0 Examples.emptyIndex true]])]
       (Examples.newSource Examples.staticManifest)) =
  Js.Throw Js.typeError.
Proof.
  apply (proj1 (getTextTracks_throws _)).
  - reflexivity.
  - eexists. split; [left; reflexivity | reflexivity].
Defined.

End ListingFacts.

(* ===================================================================== *)
(** * Properties of the restrictions *)
(* ===================================================================== *)

Module RestrictionFacts.

Import Info.

Lemma truthy_false (limit : option Q) :
  Js.truthy limit = false <-> Spec.noLimit limit.
Proof.
  destruct limit as [q|]; cbn.
  - rewrite Bool.negb_false_iff. apply Qeq_bool_iff.
  - tauto.
Qed.

Lemma gt_false (a b : Q) : Js.gt a b = false <-> a <= b.
Proof.
  unfold Js.gt. rewrite Bool.negb_false_iff. apply Qle_bool_iff.
Qed.

(** The flag that [restrict] computes, as one boolean. *)
Lemma restrict_enabled_bool (restrictions : Player.Restrictions)
    (streamInfo : StreamInfo) :
  enabled (Player.restrict restrictions streamInfo) =
  negb (Js.truthy (Player.maxWidth restrictions) &&
        Js.gt (Js.toNumber (width streamInfo))
          (Js.toNumber (Player.maxWidth restrictions))) &&
  negb (Js.truthy (Player.maxHeight restrictions) &&
        Js.gt (Js.toNumber (height streamInfo))
          (Js.toNumber (Player.maxHeight restrictions))) &&
  negb (Js.truthy (Player.maxBandwidth restrictions) &&
        Js.gt (Js.toNumber (bandwidth streamInfo))
          (Js.toNumber (Player.maxBandwidth restrictions))) &&
  negb (Js.truthy (Player.minBandwidth restrictions) &&
        Js.gt (Js.toNumber (Player.minBandwidth restrictions))
          (Js.toNumber (bandwidth streamInfo))).
Proof.
  unfold Player.restrict. cbn [enabled Player.set_enabled].
  destruct (Js.truthy (Player.maxWidth restrictions) && _);
    destruct (Js.truthy (Player.maxHeight restrictions) && _);
    destruct (Js.truthy (Player.maxBandwidth restrictions) && _);
    destruct (Js.truthy (Player.minBandwidth restrictions) && _);
    reflexivity.
Qed.

(** X5: [setRestrictions] enables a StreamInfo exactly when each limit
    either is null or 0, which does not restrict, or is respected, a null
    width, height or bandwidth counting as 0; so a StreamInfo without
    bandwidth is disabled by every positive [minBandwidth]. *)
Theorem restrict_enabled (restrictions : Player.Restrictions)
    (streamInfo : StreamInfo) :
  enabled (Player.restrict restrictions streamInfo) = true <->
  Spec.withinLimits restrictions streamInfo.
Proof.
  rewrite restrict_enabled_bool. unfold Spec.withinLimits.
  rewrite !Bool.andb_true_iff, !Bool.negb_true_iff,
    !Bool.andb_false_iff, !truthy_false, !gt_false.
  tauto.
Qed.

(** [restrict] reads the width, the height and the bandwidth only, so it
    forgets the flag that an earlier call has set. *)
Lemma restrict_restrict (first second : Player.Restrictions)
    (streamInfo : StreamInfo) :
  Player.restrict second (Player.restrict first streamInfo) =
  Player.restrict second streamInfo.
Proof. destruct streamInfo. reflexivity. Qed.

Lemma mapStreamSetInfo_compose (f g : StreamInfo -> StreamInfo)
    (set : StreamSetInfo) :
  (forall streamInfo, f (g streamInfo) = f streamInfo) ->
  Player.mapStreamSetInfo f (Player.mapStreamSetInfo g set) =
  Player.mapStreamSetInfo f set.
Proof.
  intros H. unfold Player.mapStreamSetInfo. cbn. f_equal.
  rewrite map_map. apply map_ext. exact H.
Qed.

Lemma mapManifestInfo_compose (f g : StreamInfo -> StreamInfo)
    (manifest : ManifestInfo) :
  (forall streamInfo, f (g streamInfo) = f streamInfo) ->
  Player.mapManifestInfo f (Player.mapManifestInfo g manifest) =
  Player.mapManifestInfo f manifest.
Proof.
  intros H. unfold Player.mapManifestInfo, Player.set_periodInfos. cbn.
  f_equal. rewrite map_map. apply map_ext. intros period.
  unfold Player.mapPeriodInfo. cbn. f_equal.
  rewrite map_map. apply map_ext. intros set.
  now apply mapStreamSetInfo_compose.
Qed.

Lemma mapMultiMap_compose (f g : StreamInfo -> StreamInfo)
    (m : Util.MultiMap StreamSetInfo) :
  (forall streamInfo, f (g streamInfo) = f streamInfo) ->
  Player.mapMultiMap f (Player.mapMultiMap g m) = Player.mapMultiMap f m.
Proof.
  intros H. unfold Player.mapMultiMap. rewrite map_map. apply map_ext.
  intros [type sets]. cbn. f_equal.
  rewrite map_map. apply map_ext. intros set.
  now apply mapStreamSetInfo_compose.
Qed.

(** X6: restrictions do not accumulate: on a loaded source, a call of
    [setRestrictions] after another one leaves the source as the later call
    alone does; in particular the call is idempotent. *)
Theorem setRestrictions_last_wins (this : Player.StreamVideoSource)
    (first second : Player.Restrictions) :
  Player.loaded_ this = true ->
  Player.manifestInfo this <> None ->
  Player.setRestrictions (fst (Player.setRestrictions this first)) second =
  Player.setRestrictions this second.
Proof.
  intros Hloaded Hmanifest. destruct this as [manifest ? ? ? loaded].
  cbn in Hloaded, Hmanifest. subst loaded.
  destruct manifest as [manifest|]; [|congruence].
  unfold Player.setRestrictions.
  cbn -[Player.mapMultiMap Player.mapManifestInfo Player.restrict].
  rewrite (mapManifestInfo_compose _ _ manifest (restrict_restrict _ _)).
  rewrite (mapMultiMap_compose _ _ _ (restrict_restrict _ _)).
  reflexivity.
Qed.

Lemma setRestrictions_last_wins_witness :
  Player.setRestrictions
    (fst (Player.setRestrictions
            (Examples.loadedSource Examples.staticManifest)
            Examples.atLeast100k))
    (Player.mkRestrictions None None (Some 2000000) None) =
  Player.setRestrictions (Examples.loadedSource Examples.staticManifest)
    (Player.mkRestrictions None None (Some 2000000) None).
Proof.
  apply setRestrictions_last_wins; [reflexivity | discriminate].
Defined.

Lemma get_mapMultiMap (f : StreamInfo -> StreamInfo)
    (m : Util.MultiMap StreamSetInfo) (type : string) :
  Js.get (Player.mapMultiMap f m) type =
  option_map (map (Player.mapStreamSetInfo f)) (Js.get m type).
Proof.
  induction m as [|[k sets] m IH]; cbn; [reflexivity|].
  destruct (String.eqb k type); [reflexivity | exact IH].
Qed.

(** The stored StreamInfos after a write to each of them. *)
Lemma stored_mapMultiMap (f : StreamInfo -> StreamInfo)
    (this : Player.StreamVideoSource) (type : string) :
  Spec.stored
    (Player.set_streamSetsByType
       (Player.mapMultiMap f (Player.streamSetsByType this)) this) type =
  map f (Spec.stored this type).
Proof.
  unfold Spec.stored, Util.get. cbn. rewrite get_mapMultiMap.
  destruct (Js.get (Player.streamSetsByType this) type) as [sets|];
    [|reflexivity].
  cbn. induction sets as [|set sets IH]; [reflexivity|].
  cbn. now rewrite map_app, IH.
Qed.

Lemma stored_ext (this other : Player.StreamVideoSource) (type : string) :
  Player.streamSetsByType this = Player.streamSetsByType other ->
  Spec.stored this type = Spec.stored other type.
Proof. unfold Spec.stored. now intros ->. Qed.

(** X7: on a loaded source, the video listing after [setRestrictions] holds,
    in order, the stored video StreamInfos that the restrictions leave
    enabled, whatever their flags were before. *)
Theorem getVideoTracks_after_setRestrictions
    (this : Player.StreamVideoSource) (restrictions : Player.Restrictions) :
  Player.loaded_ this = true ->
  Player.manifestInfo this <> None ->
  map VideoTrack.id
    (Player.getVideoTracks (fst (Player.setRestrictions this restrictions))) =
  map uniqueId
    (filter (fun streamInfo =>
               enabled (Player.restrict restrictions streamInfo))
       (Spec.stored this "video")).
Proof.
  intros Hloaded Hmanifest. rewrite TrackFacts.getVideoTracks_enabled.
  assert (Hsets :
            Player.streamSetsByType
              (fst (Player.setRestrictions this restrictions)) =
            Player.mapMultiMap (Player.restrict restrictions)
              (Player.streamSetsByType this)).
  { unfold Player.setRestrictions. rewrite Hloaded. cbn [negb].
    destruct (Player.manifestInfo this) as [manifest|] eqn:Hm; [|congruence].
    cbn [Player.manifestInfo Player.set_cachedRestrictions_].
    rewrite Hm. reflexivity. }
  rewrite (stored_ext _
             (Player.set_streamSetsByType
                (Player.mapMultiMap (Player.restrict restrictions)
                   (Player.streamSetsByType this)) this) "video" Hsets).
  rewrite stored_mapMultiMap.
  induction (Spec.stored this "video") as [|streamInfo l IH]; [reflexivity|].
  cbn [map filter].
  destruct (enabled (Player.restrict restrictions streamInfo)) eqn:E;
    cbn [map]; rewrite IH; [|reflexivity].
  destruct streamInfo. reflexivity.
Qed.

Lemma getVideoTracks_after_setRestrictions_witness :
  map VideoTrack.id
    (Player.getVideoTracks
       (fst (Player.setRestrictions
               (Examples.loadedSource Examples.staticManifest)
               (Player.mkRestrictions None None (Some 2000000) None)))) =
  map uniqueId
    (filter (fun streamInfo =>
               enabled
                 (Player.restrict
                    (Player.mkRestrictions None None (Some 2000000) None)
                    streamInfo))
       (Spec.stored (Examples.loadedSource Examples.staticManifest) "video")).
Proof.
  apply getVideoTracks_after_setRestrictions; [reflexivity | discriminate].
Defined.

(** With at most 2 Mbit/s the example source lists the video track of
    1 Mbit/s only. *)
Example getVideoTracks_at_most_2M :
  map VideoTrack.id
    (Player.getVideoTracks
       (fst (Player.setRestrictions
               (Examples.loadedSource Examples.staticManifest)
               (Player.mkRestrictions None None (Some 2000000) None)))) =
  [0%nat].
Proof. reflexivity. Qed.

End RestrictionFacts.

(* ===================================================================== *)
(** * More on the order by language *)
(* ===================================================================== *)

Module SortFacts.

Import Info.

Local Open Scope nat_scope.

Lemma findIndex_none_intro {A} (test : A -> bool) (l : list A) :
  (forall a, In a l -> test a = false) -> Player.findIndex test l = None.
Proof.
  induction l as [|x l IH]; intros H; cbn; [reflexivity|].
  rewrite (H x (or_introl eq_refl)), IH; [reflexivity|].
  intros a Hin. apply H. now right.
Qed.

(** Whether a test finds nothing is the same for two lists that hold the
    same elements. *)
Lemma findIndex_none_perm {A} (test : A -> bool) (l l' : list A) :
  Permutation l l' ->
  Player.findIndex test l = None -> Player.findIndex test l' = None.
Proof.
  intros Hperm Hnone. apply findIndex_none_intro. intros a Hin.
  apply (LanguageFacts.findIndex_none test l Hnone).
  eapply Permutation_in; [apply Permutation_sym; exact Hperm | exact Hin].
Qed.

Section Sort.

Variable MatchType_MIN MatchType_MAX : nat.
Variable LanguageUtils_match : nat -> string -> string -> bool.

(** The loop over the levels moves the first match of a level when no
    lower level has a match. *)
Lemma sortByLanguage_fuzz_at (lang_ : string)
    (streamSets : list StreamSetInfo) (i fuzz count first : nat) :
  first <= fuzz < first + count ->
  (forall lower, first <= lower < fuzz ->
     Player.findIndex
       (fun set => LanguageUtils_match lower lang_ (lang set)) streamSets =
     None) ->
  Player.findIndex
    (fun set => LanguageUtils_match fuzz lang_ (lang set)) streamSets =
  Some i ->
  Player.sortByLanguage_fuzz LanguageUtils_match lang_ (seq first count)
    streamSets = Some (Player.moveToFront i streamSets).
Proof.
  revert first. induction count as [|count IH]; intros first Hrange Hlower Hi.
  - lia.
  - cbn. destruct (Nat.eq_dec first fuzz) as [-> | Hne].
    + now rewrite Hi.
    + rewrite (Hlower first) by lia. apply IH; [lia | | exact Hi].
      intros lower Hl. apply Hlower. lia.
Qed.

Lemma sortByLanguage_fuzz_none_intro (lang_ : string)
    (streamSets : list StreamSetInfo) (count first : nat) :
  (forall fuzz, first <= fuzz < first + count ->
     Player.findIndex
       (fun set => LanguageUtils_match fuzz lang_ (lang set)) streamSets =
     None) ->
  Player.sortByLanguage_fuzz LanguageUtils_match lang_ (seq first count)
    streamSets = None.
Proof.
  revert first. induction count as [|count IH]; intros first H; cbn.
  - reflexivity.
  - rewrite (H first) by lia. apply IH. intros fuzz Hf. apply H. lia.
Qed.

(** X8: [sortByLanguage_] is idempotent: sorting an array that was sorted
    moves nothing. *)
Theorem sortByLanguage_idempotent (this : Player.StreamVideoSource)
    (streamSets : list StreamSetInfo) :
  Player.sortByLanguage_ MatchType_MIN MatchType_MAX LanguageUtils_match this
    (Player.sortByLanguage_ MatchType_MIN MatchType_MAX LanguageUtils_match
       this streamSets) =
  Player.sortByLanguage_ MatchType_MIN MatchType_MAX LanguageUtils_match this
    streamSets.
Proof.
  unfold Player.sortByLanguage_ at 2 3. unfold Player.fuzzLevels.
  destruct (Player.sortByLanguage_fuzz _ _ _ streamSets) as [sorted|] eqn:E.
  - apply LanguageFacts.sortByLanguage_fuzz_some in E
      as (fuzz & i & Hrange & Hi & -> & Hlower).
    pose proof Hi as Hi'.
    apply LanguageFacts.findIndex_some in Hi' as (moved & Hnth & Hm & _).
    destruct (LanguageFacts.moveToFront_shape i streamSets moved Hnth)
      as [Hshape Hperm].
    unfold Player.sortByLanguage_, Player.fuzzLevels.
    rewrite (sortByLanguage_fuzz_at (Player.lang_ this)
               (Player.moveToFront i streamSets) 0 fuzz _ _ Hrange).
    + rewrite Hshape. reflexivity.
    + intros lower Hl.
      apply (findIndex_none_perm _ streamSets);
        [apply Permutation_sym; exact Hperm | now apply Hlower].
    + rewrite Hshape. cbn. now rewrite Hm.
  - destruct (Player.findIndex main streamSets) as [i|] eqn:Em.
    + pose proof Em as Em'.
      apply LanguageFacts.findIndex_some in Em' as (moved & Hnth & Hm & _).
      destruct (LanguageFacts.moveToFront_shape i streamSets moved Hnth)
        as [Hshape Hperm].
      unfold Player.sortByLanguage_, Player.fuzzLevels.
      rewrite sortByLanguage_fuzz_none_intro.
      * rewrite Hshape. cbn. now rewrite Hm.
      * intros fuzz Hf.
        apply (findIndex_none_perm _ streamSets);
          [apply Permutation_sym; exact Hperm|].
        now apply (LanguageFacts.sortByLanguage_fuzz_none _ _ _ _ _ E).
    + unfold Player.sortByLanguage_, Player.fuzzLevels.
      now rewrite E, Em.
Qed.

End Sort.

End SortFacts.

(* ===================================================================== *)
(** * Objects used as maps *)
(* ===================================================================== *)

Module ObjectFacts.

Lemma get_set_same {V} (o : Js.object V) (k : string) (v : V) :
  Js.get (Js.set o k v) k = Some v.
Proof.
  induction o as [|[k' v'] o IH]; cbn.
  - now rewrite String.eqb_refl.
  - destruct (String.eqb k' k) eqn:E; cbn; rewrite E; [reflexivity | exact IH].
Qed.

Lemma get_set_other {V} (o : Js.object V) (k k' : string) (v : V) :
  k <> k' -> Js.get (Js.set o k v) k' = Js.get o k'.
Proof.
  intros Hne. induction o as [|[k0 v0] o IH]; cbn.
  - destruct (String.eqb_spec k k'); [contradiction | reflexivity].
  - destruct (String.eqb_spec k0 k) as [-> | Hk]; cbn.
    + destruct (String.eqb_spec k k'); [contradiction | reflexivity].
    + destruct (String.eqb k0 k'); [reflexivity | exact IH].
Qed.

Lemma get_set {V} (o : Js.object V) (k k' : string) (v : V) :
  Js.get (Js.set o k v) k' = if String.eqb k k' then Some v else Js.get o k'.
Proof.
  destruct (String.eqb_spec k k') as [<- | Hne].
  - apply get_set_same.
  - now apply get_set_other.
Qed.

Lemma get_in_keys {V} (o : Js.object V) (k : string) :
  In k (Js.keys o) <-> Js.get o k <> None.
Proof.
  induction o as [|[k' v'] o IH]; cbn.
  - split; [contradiction | congruence].
  - destruct (String.eqb_spec k' k) as [-> | Hne].
    + split; [discriminate | auto].
    + rewrite <- IH. split; [intros [H | H]; [contradiction | exact H] | auto].
Qed.

(** Setting a property that the object has keeps the order of the keys. *)
Lemma keys_set_present {V} (o : Js.object V) (k : string) (v : V) :
  Js.get o k <> None -> Js.keys (Js.set o k v) = Js.keys o.
Proof.
  unfold Js.keys. induction o as [|[k' v'] o IH]; cbn; [congruence|].
  destruct (String.eqb k' k); cbn; [reflexivity|].
  intros H. f_equal. now apply IH.
Qed.

End ObjectFacts.

(* ===================================================================== *)
(** * More on the initial selection *)
(* ===================================================================== *)

Module InitialFacts.

Import Info.

Local Open Scope nat_scope.

Lemma selectVideoStreamInfo_none (trackId : option nat)
    (streamInfos : list StreamInfo) (streamInfo : option StreamInfo) :
  Player.selectVideoStreamInfo trackId streamInfos streamInfo = None <->
  streamInfos = [] /\ streamInfo = None.
Proof.
  revert streamInfo. induction streamInfos as [|candidate rest IH];
    intros streamInfo; cbn.
  - tauto.
  - destruct (Player.isTrack trackId candidate).
    + split; [discriminate | intros [H _]; discriminate].
    + rewrite IH. split; [intros [_ H] | intros [H _]]; discriminate.
Qed.

(** X9: the selection from a stream set is undefined exactly when the set
    has no StreamInfo: the middle index of the audio selection is always in
    range, and the video selection falls on some StreamInfo whatever the ABR
    manager answers. *)
Theorem selectStreamInfo_defined (this : Player.StreamVideoSource)
    (streamSetInfo : StreamSetInfo) :
  Player.selectStreamInfo this streamSetInfo = None <->
  streamInfos streamSetInfo = [].
Proof.
  unfold Player.selectStreamInfo.
  destruct (String.eqb (contentType streamSetInfo) "video").
  - rewrite selectVideoStreamInfo_none.
    destruct (streamInfos streamSetInfo); cbn; [tauto|].
    split; [intros [H _]; exact H | discriminate].
  - destruct (String.eqb (contentType streamSetInfo) "audio").
    + rewrite nth_error_None.
      destruct (streamInfos streamSetInfo) as [|x l] eqn:E.
      * cbn. split; [reflexivity | lia].
      * split; [|discriminate]. intros H. exfalso.
        assert (Hlt : List.length (x :: l) / 2 < List.length (x :: l))
          by (apply Nat.div_lt; cbn; lia).
        lia.
    + destruct (streamInfos streamSetInfo); cbn;
        [tauto | split; discriminate].
Qed.

Lemma selectVideoStreamInfo_last (trackId : option nat)
    (front : list StreamInfo) (final : StreamInfo)
    (streamInfo : option StreamInfo) :
  (forall candidate, In candidate (front ++ [final]) ->
     Player.isTrack trackId candidate = false) ->
  Player.selectVideoStreamInfo trackId (front ++ [final]) streamInfo =
  Some final.
Proof.
  revert streamInfo. induction front as [|x front IH];
    intros streamInfo H; cbn.
  - now rewrite (H final (or_introl eq_refl)).
  - rewrite (H x (or_introl eq_refl)). apply IH.
    intros candidate Hin. apply H. now right.
Qed.

(** X10: when the ABR manager names no StreamInfo of the video stream set
    (it answers null, or an id that the set does not have), the last
    StreamInfo of the set is selected. *)
Theorem selectStreamInfo_video_fallback (this : Player.StreamVideoSource)
    (streamSetInfo : StreamSetInfo) (front : list StreamInfo)
    (final : StreamInfo) :
  contentType streamSetInfo = "video"%string ->
  streamInfos streamSetInfo = front ++ [final] ->
  (forall trackId streamInfo,
     Player.getInitialVideoTrackId (Player.abrManager_ this) = Some trackId ->
     In streamInfo (streamInfos streamSetInfo) ->
     uniqueId streamInfo <> trackId) ->
  Player.selectStreamInfo this streamSetInfo = Some final.
Proof.
  intros Hvideo Hinfos Hnone. unfold Player.selectStreamInfo.
  rewrite Hvideo, Hinfos. cbn [String.eqb Ascii.eqb Bool.eqb].
  apply selectVideoStreamInfo_last. intros candidate Hin.
  unfold Player.isTrack.
  destruct (Player.getInitialVideoTrackId (Player.abrManager_ this))
    as [trackId|] eqn:E; [|reflexivity].
  apply Nat.eqb_neq. apply (Hnone trackId candidate eq_refl).
  now rewrite Hinfos.
Qed.

Lemma selectStreamInfo_video_fallback_witness :
  Player.selectStreamInfo
    (Player.set_abrManager_ (Player.mkAbrManager (Some 7) false)
       (Examples.loadedSource Examples.staticManifest))
    Examples.videoSet =
  Some (Examples.info 1 "video/mp4" 3000000 Examples.videoIndex true).
Proof.
  apply (selectStreamInfo_video_fallback _ Examples.videoSet
           [Examples.info 0 "video/mp4" 1000000 Examples.videoIndex true]).
  - reflexivity.
  - reflexivity.
  - intros trackId streamInfo H Hin. injection H as <-.
    destruct Hin as [<- | [<- | []]]; discriminate.
Defined.

End InitialFacts.

(* ===================================================================== *)
(** * The creation and the start of the streams *)
(* ===================================================================== *)

Module LaunchFacts.

Import Info.

Section Launch.

Variable addSourceBuffer : string -> bool.

(** Whether the stream of an entry of [streamInfosByType] can be made. *)
Lemma createStreams_loop_none (streamInfosByType : Js.object StreamInfo)
    (this : Player.StreamVideoSource)
    (streamsByType : Js.object Player.Stream) :
  snd (Player.createStreams_loop addSourceBuffer streamInfosByType this
         streamsByType) = None <->
  exists type streamInfo,
    In (type, streamInfo) streamInfosByType /\
    type <> "text"%string /\
    addSourceBuffer (fullMimeType streamInfo) = false.
Proof.
  revert this streamsByType.
  induction streamInfosByType as [|[type streamInfo] rest IH];
    intros this streamsByType; cbn.
  - split; [discriminate | now intros (? & ? & [] & _)].
  - unfold Player.createStream_, Player.createTextStream_.
    destruct (String.eqb_spec type "text") as [-> | Hne].
    + rewrite IH. split.
      * intros (t & s & Hin & H). exists t, s. auto.
      * intros (t & s & [Heq | Hin] & Ht & Hb);
          [injection Heq as <- <-; congruence | eauto].
    + destruct (addSourceBuffer (fullMimeType streamInfo)) eqn:E.
      * rewrite IH. split.
        -- intros (t & s & Hin & H). exists t, s. auto.
        -- intros (t & s & [Heq | Hin] & Ht & Hb);
             [injection Heq as <- <-; congruence | eauto].
      * split; [|reflexivity]. intros _. exists type, streamInfo. auto.
Qed.

(** The streams made: a new one for each type of [streamInfosByType]. *)
Lemma createStreams_loop_get (streamInfosByType : Js.object StreamInfo)
    (this : Player.StreamVideoSource)
    (streamsByType made : Js.object Player.Stream) (type : string) :
  snd (Player.createStreams_loop addSourceBuffer streamInfosByType this
         streamsByType) = Some made ->
  Js.get made type =
  match Js.get streamInfosByType type with
  | Some _ => Some Player.newStream
  | None => Js.get streamsByType type
  end.
Proof.
  revert this streamsByType.
  induction streamInfosByType as [|[k streamInfo] rest IH];
    intros this streamsByType; cbn.
  - intros H. now injection H as <-.
  - unfold Player.createStream_, Player.createTextStream_.
    assert (Hget : forall this',
              snd (Player.createStreams_loop addSourceBuffer rest this'
                     (Js.set streamsByType k Player.newStream)) =
              Some made ->
              Js.get made type =
              match (if String.eqb k type then Some streamInfo
                     else Js.get rest type) with
              | Some _ => Some Player.newStream
              | None => Js.get streamsByType type
              end).
    { intros this' H. rewrite (IH _ _ H). rewrite ObjectFacts.get_set.
      destruct (String.eqb k type); destruct (Js.get rest type);
        reflexivity. }
    destruct (String.eqb k "text"); [apply Hget|].
    destruct (addSourceBuffer _); [apply Hget | discriminate].
Qed.

(** The SourceBuffers added: the loop changes nothing else of [this], and
    it adds those of the entries other than text, all of them when every
    stream was made and otherwise those before the entry that failed. *)
Lemma createStreams_loop_buffers (streamInfosByType : Js.object StreamInfo) :
  forall (this : Player.StreamVideoSource)
         (streamsByType : Js.object Player.Stream),
  let after :=
    fst (Player.createStreams_loop addSourceBuffer streamInfosByType this
           streamsByType) in
  after = Player.set_sourceBuffers (Player.sourceBuffers after) this /\
  match snd (Player.createStreams_loop addSourceBuffer streamInfosByType
               this streamsByType) with
  | Some _ =>
      Player.sourceBuffers after =
      Player.sourceBuffers this ++ Spec.bufferTypes streamInfosByType
  | None =>
      exists front type streamInfo rest,
        streamInfosByType = front ++ (type, streamInfo) :: rest /\
        type <> "text"%string /\
        addSourceBuffer (fullMimeType streamInfo) = false /\
        Player.sourceBuffers after =
        Player.sourceBuffers this ++ Spec.bufferTypes front
  end.
Proof.
  induction streamInfosByType as [|[type streamInfo] rest IH];
    intros this streamsByType; cbn zeta.
  - cbn. split; [now destruct this|]. now rewrite app_nil_r.
  - cbn [Player.createStreams_loop].
    unfold Player.createStream_, Player.createTextStream_.
    destruct (String.eqb_spec type "text") as [-> | Hne].
    + specialize (IH this (Js.set streamsByType "text" Player.newStream)).
      cbn zeta in IH. destruct IH as [Hfields Hbuffers].
      split; [exact Hfields|].
      destruct (snd (Player.createStreams_loop _ rest this _)).
      * exact Hbuffers.
      * destruct Hbuffers as (front & t & s & more & -> & Ht & Hs & Hb).
        exists (("text"%string, streamInfo) :: front), t, s, more.
        auto.
    + destruct (addSourceBuffer (fullMimeType streamInfo)) eqn:E.
      * specialize (IH (Player.set_sourceBuffers
                          (Player.sourceBuffers this ++
                           [fullMimeType streamInfo]) this)
                       (Js.set streamsByType type Player.newStream)).
        cbn zeta in IH. destruct IH as [Hfields Hbuffers].
        split; [rewrite Hfields at 1; reflexivity|].
        assert (Hhere : forall entries,
                  Spec.bufferTypes ((type, streamInfo) :: entries) =
                  fullMimeType streamInfo :: Spec.bufferTypes entries).
        { intros entries. unfold Spec.bufferTypes. cbn [filter fst].
          apply String.eqb_neq in Hne. now rewrite Hne. }
        destruct (snd (Player.createStreams_loop _ rest _ _)).
        -- rewrite Hbuffers, Hhere. cbn [Player.sourceBuffers
             Player.set_sourceBuffers]. now rewrite <- app_assoc.
        -- destruct Hbuffers as (front & t & s & more & -> & Ht & Hs & Hb).
           exists ((type, streamInfo) :: front), t, s, more.
           repeat split; auto. rewrite Hb, Hhere.
           cbn [Player.sourceBuffers Player.set_sourceBuffers].
           now rewrite <- app_assoc.
      * cbn [fst snd]. split; [now destruct this|].
        exists [], type, streamInfo, rest. repeat split; auto.
        now rewrite app_nil_r.
Qed.

(** The two ways in which [createStreams_] ends. *)
Lemma createStreams_cases (this : Player.StreamVideoSource)
    (streamInfosByType : Js.object StreamInfo) :
  exists buffers,
    (exists made,
       Player.createStreams_ addSourceBuffer this streamInfosByType =
       (Player.set_streamsByType_ made
          (Player.set_sourceBuffers buffers this), true) /\
       forall type,
         Js.get made type =
         option_map (fun _ => Player.newStream)
           (Js.get streamInfosByType type)) \/
    (Player.createStreams_ addSourceBuffer this streamInfosByType =
     (Player.set_sourceBuffers buffers this, false) /\
     exists type streamInfo,
       In (type, streamInfo) streamInfosByType /\
       type <> "text"%string /\
       addSourceBuffer (fullMimeType streamInfo) = false).
Proof.
  unfold Player.createStreams_.
  pose proof (createStreams_loop_none streamInfosByType this []) as Hnone.
  pose proof (createStreams_loop_buffers streamInfosByType this [])
    as [Hfields _]. cbn zeta in Hfields.
  destruct (Player.createStreams_loop addSourceBuffer streamInfosByType
              this []) as [added [made|]] eqn:E; cbn [fst snd] in *;
    exists (Player.sourceBuffers added); rewrite <- Hfields.
  - left. exists made. split; [reflexivity|]. intros type.
    assert (Hmade : snd (Player.createStreams_loop addSourceBuffer
                           streamInfosByType this []) = Some made)
      by now rewrite E.
    rewrite (createStreams_loop_get _ _ _ _ type Hmade).
    destruct (Js.get streamInfosByType type); reflexivity.
  - right. split; [reflexivity|]. now apply Hnone.
Qed.


(** What the loop of [startStreams_] leaves alone, whether it throws or
    not. *)
Lemma startStreams_loop_fields (streamInfosByType : Js.object StreamInfo)
    (types : list string) (this : Player.StreamVideoSource) :
  let after := fst (Player.startStreams_loop streamInfosByType types this) in
  Player.manifestInfo after = Player.manifestInfo this /\
  Player.video after = Player.video this /\
  Player.originalPlaybackRate_ after = Player.originalPlaybackRate_ this /\
  Player.mediaSourceDuration after = Player.mediaSourceDuration this /\
  Player.subsNeeded_ after = Player.subsNeeded_ this /\
  Player.timeouts after = Player.timeouts this.
Proof.
  revert this. induction types as [|type rest IH]; intros this; cbn zeta.
  - cbn. auto 10.
  - cbn [Player.startStreams_loop].
    destruct (Js.get _ type) as [stream|];
      [destruct (Js.get streamInfosByType type) as [streamInfo|]|];
      try (cbn; auto 10; fail).
    match goal with
    | |- context [Player.startStreams_loop _ rest ?s] =>
        destruct (IH s) as (H1 & H2 & H3 & H4 & H5 & H6);
        rewrite H1, H2, H3, H4, H5, H6
    end.
    cbn. auto 10.
Qed.

Lemma switch_switch (streamInfo : StreamInfo) (stream : Player.Stream) :
  Player.switch streamInfo (Player.switch streamInfo stream) =
  Player.switch streamInfo stream.
Proof. reflexivity. Qed.

(** When each type of the loop has a stream and a selected StreamInfo, the
    loop does not throw, keeps the types of [streamsByType_], and switches
    the stream of each type of the loop to the StreamInfo selected for the
    type. *)
Lemma startStreams_loop_switches (streamInfosByType : Js.object StreamInfo)
    (types : list string) (this : Player.StreamVideoSource) :
  (forall type, In type types ->
     Js.get (Player.streamsByType_ this) type <> None /\
     Js.get streamInfosByType type <> None) ->
  let after := fst (Player.startStreams_loop streamInfosByType types this) in
  snd (Player.startStreams_loop streamInfosByType types this) =
  Js.Normal tt /\
  forall type,
    Js.get (Player.streamsByType_ after) type =
    match Js.get (Player.streamsByType_ this) type with
    | Some stream =>
        if in_dec string_dec type types then
          match Js.get streamInfosByType type with
          | Some streamInfo => Some (Player.switch streamInfo stream)
          | None => Some stream
          end
        else Some stream
    | None => None
    end.
Proof.
  revert this. induction types as [|first rest IH]; intros this Hall;
    cbn zeta.
  - cbn. split; [reflexivity|]. intros type.
    destruct (Js.get _ type); reflexivity.
  - cbn [Player.startStreams_loop].
    destruct (Hall first (or_introl eq_refl)) as [Hs Hi].
    cbn [Player.streamsByType_ Player.listen Player.set_listening] in *.
    destruct (Js.get (Player.streamsByType_ this) first) as [stream|] eqn:Es;
      [|congruence].
    destruct (Js.get streamInfosByType first) as [streamInfo|] eqn:Ei;
      [|congruence].
    match goal with
    | |- context [Player.startStreams_loop _ rest ?s] =>
        assert (Hrest : forall type, In type rest ->
                  Js.get (Player.streamsByType_ s) type <> None /\
                  Js.get streamInfosByType type <> None);
        [|destruct (IH s Hrest) as [Hok Hget]]
    end.
    { intros type Hin. destruct (Hall type (or_intror Hin)) as [Ht Hi'].
      split; [|exact Hi'].
      cbn [Player.streamsByType_ Player.set_streamsByType_].
      rewrite ObjectFacts.get_set.
      destruct (String.eqb first type); [discriminate | exact Ht]. }
    split; [exact Hok|]. intros type. rewrite Hget.
    cbn [Player.streamsByType_ Player.set_streamsByType_].
    rewrite ObjectFacts.get_set.
    destruct (String.eqb_spec first type) as [<- | Hne].
    + rewrite Es, Ei.
      destruct (in_dec string_dec first rest);
        destruct (in_dec string_dec first (first :: rest)) as [_ | Hn];
        try reflexivity; exfalso; apply Hn; now left.
    + destruct (Js.get (Player.streamsByType_ this) type) as [other|];
        [|reflexivity].
      destruct (in_dec string_dec type rest) as [Hin | Hout];
        destruct (in_dec string_dec type (first :: rest)) as [Hin' | Hout'];
        try reflexivity.
      * exfalso. apply Hout'. now right.
      * destruct Hin' as [-> | Hin']; [congruence | contradiction].
Qed.

(** [enableTextTrack] changes the flag of the text stream and nothing
    else. *)
Lemma enableTextTrack_streams (this : Player.StreamVideoSource)
    (enabled : bool) :
  let after := Player.enableTextTrack this enabled in
  after = Player.set_streamsByType_ (Player.streamsByType_ after) this /\
  (forall type,
     option_map Player.getStreamInfo
       (Js.get (Player.streamsByType_ after) type) =
     option_map Player.getStreamInfo
       (Js.get (Player.streamsByType_ this) type)) /\
  (forall stream,
     Js.get (Player.streamsByType_ after) "text" = Some stream ->
     Player.getEnabled stream = enabled).
Proof.
  cbn zeta. unfold Player.enableTextTrack.
  destruct (Js.get (Player.streamsByType_ this) "text") as [textStream|]
    eqn:E.
  - cbn [Player.streamsByType_ Player.set_streamsByType_].
    split; [reflexivity|]. split.
    + intros type. rewrite ObjectFacts.get_set.
      destruct (String.eqb_spec "text" type) as [<- | Hne];
        [now rewrite E | reflexivity].
    + intros stream. rewrite ObjectFacts.get_set_same.
      intros H. now injection H as <-.
  - split; [now destruct this|]. split; [reflexivity|].
    intros stream H. congruence.
Qed.

(** [startStreams_] with a video element, a manifest and a selected
    StreamInfo for the type of each stream. *)
Lemma startStreams_started (this : Player.StreamVideoSource)
    (video : Player.Video) (manifest : ManifestInfo)
    (streamInfosByType : Js.object StreamInfo)
    (streamLimits : Player.StreamLimits) :
  Player.video this = Some video ->
  Player.manifestInfo this = Some manifest ->
  (forall type,
     Js.get (Player.streamsByType_ this) type <> None ->
     Js.get streamInfosByType type <> None) ->
  let after :=
    fst (Player.startStreams_ this streamInfosByType streamLimits) in
  snd (Player.startStreams_ this streamInfosByType streamLimits) =
  Js.Normal tt /\
  Player.video after =
  Some (Player.mkVideo 0
          (if live manifest then Player.limitEnd streamLimits
           else Player.limitStart streamLimits)) /\
  Player.originalPlaybackRate_ after = Player.playbackRate video /\
  Player.mediaSourceDuration after =
  Some (if live manifest
        then Player.limitEnd streamLimits + 60 * 60 * 24 * 30
        else Player.limitEnd streamLimits - Player.limitStart streamLimits) /\
  Player.timeouts after = Player.timeouts this /\
  (forall type,
     option_map Player.getStreamInfo
       (Js.get (Player.streamsByType_ after) type) =
     match Js.get (Player.streamsByType_ this) type with
     | Some _ => option_map Some (Js.get streamInfosByType type)
     | None => None
     end) /\
  (forall stream,
     Js.get (Player.streamsByType_ after) "text" = Some stream ->
     Player.getEnabled stream = Player.subsNeeded_ this).
Proof.
  intros Hv Hm Hinfos. cbn zeta. unfold Player.startStreams_.
  rewrite Hv, Hm.
  set (duration := if live manifest then _ else _).
  set (streamStartTime := if live manifest then _ else _).
  set (ready := Player.set_video _ _).
  assert (Hkeys : forall type, In type (Js.keys (Player.streamsByType_ ready)) ->
            Js.get (Player.streamsByType_ ready) type <> None /\
            Js.get streamInfosByType type <> None).
  { intros type Hin. apply ObjectFacts.get_in_keys in Hin.
    split; [exact Hin | now apply Hinfos]. }
  destruct (startStreams_loop_switches streamInfosByType _ ready Hkeys)
    as [Hok Hget].
  destruct (startStreams_loop_fields streamInfosByType
              (Js.keys (Player.streamsByType_ ready)) ready)
    as (F1 & F2 & F3 & F4 & F5 & F6).
  destruct (Player.startStreams_loop streamInfosByType
              (Js.keys (Player.streamsByType_ ready)) ready)
    as [looped [u|e]] eqn:Eloop; cbn [fst snd] in *; [|discriminate].
  destruct (enableTextTrack_streams looped (Player.subsNeeded_ looped))
    as (Eafter & Einfo & Etext).
  set (after := Player.enableTextTrack looped (Player.subsNeeded_ looped))
    in *.
  split; [destruct u; reflexivity|].
  rewrite Eafter.
  cbn [Player.video Player.originalPlaybackRate_ Player.mediaSourceDuration
       Player.timeouts Player.set_streamsByType_ Player.streamsByType_].
  rewrite F2, F3, F4, F6.
  repeat (split; [reflexivity|]).
  split.
  - intros type. rewrite Einfo, Hget.
    change (Player.streamsByType_ ready) with (Player.streamsByType_ this).
    destruct (Js.get (Player.streamsByType_ this) type) as [stream|] eqn:Es;
      [|reflexivity].
    destruct (in_dec string_dec type (Js.keys (Player.streamsByType_ this)))
      as [_ | Hout].
    + destruct (Js.get streamInfosByType type) as [streamInfo|] eqn:Ei;
        [reflexivity|].
      exfalso. apply (Hinfos type); [congruence | exact Ei].
    + exfalso. apply Hout. apply ObjectFacts.get_in_keys. congruence.
  - intros stream Hstream. rewrite (Etext stream Hstream). exact F5.
Qed.

(** X12: the start sequence, when nothing fails.  With a video element
    attached, every initial index holding references, stream limits, and
    every source buffer added, the function passed to [then] resolves; it
    leaves one stream per selected type, each switched to the StreamInfo
    selected for its type; it sets the playback rate to 0 and remembers the
    rate there was; it seeks to the start of the limits (static) or to their
    end (live), sets the duration of the MediaSource to end - start (static)
    or end + 30 days (live), enables the text stream exactly when subtitles
    are needed, and arms no timer. *)
Theorem streams_started (this : Player.StreamVideoSource)
    (video : Player.Video) (manifest : ManifestInfo)
    (selected : Js.object StreamInfo) (indexes : list Media.SegmentIndex)
    (streamLimits : Player.StreamLimits) :
  Player.video this = Some video ->
  Player.manifestInfo this = Some manifest ->
  Forall (fun index => Media.length index <> 0%nat) indexes ->
  Player.computeStreamLimits this indexes = Js.Normal (Some streamLimits) ->
  (forall type streamInfo,
     In (type, streamInfo) selected ->
     type = "text"%string \/
     addSourceBuffer (fullMimeType streamInfo) = true) ->
  exists after,
    Player.createAndStartStreams_then addSourceBuffer this selected indexes =
    (after, Js.Resolved tt) /\
    (forall type,
       option_map Player.getStreamInfo
         (Js.get (Player.streamsByType_ after) type) =
       option_map Some (Js.get selected type)) /\
    Player.video after =
    Some (Player.mkVideo 0
            (if live manifest then Player.limitEnd streamLimits
             else Player.limitStart streamLimits)) /\
    Player.originalPlaybackRate_ after = Player.playbackRate video /\
    Player.mediaSourceDuration after =
    Some (if live manifest
          then Player.limitEnd streamLimits + 60 * 60 * 24 * 30
          else Player.limitEnd streamLimits -
               Player.limitStart streamLimits) /\
    (forall stream,
       Js.get (Player.streamsByType_ after) "text" = Some stream ->
       Player.getEnabled stream = Player.subsNeeded_ this) /\
    Player.timeouts after = Player.timeouts this.
Proof.
  intros Hv Hm Hall Hlimits Hbuffers.
  unfold Player.createAndStartStreams_then.
  assert (Hnonempty :
            forallb (fun index => negb (Nat.eqb (Media.length index) 0))
              indexes = true).
  { apply forallb_forall. intros index Hin.
    rewrite Forall_forall in Hall. apply Bool.negb_true_iff.
    apply Nat.eqb_neq. now apply Hall. }
  rewrite Hnonempty, Hlimits. cbn [negb].
  destruct (createStreams_cases this selected)
    as (buffers & [(made & Ecreate & Hmade) |
                   (_ & type & streamInfo & Hin & Htext & Hfail)]).
  2:{ exfalso. destruct (Hbuffers type streamInfo Hin); congruence. }
  rewrite Ecreate.
  set (created := Player.set_streamsByType_ made
                    (Player.set_sourceBuffers buffers this)).
  destruct (startStreams_started created video manifest selected streamLimits
              Hv Hm)
    as (Hok & Hvideo & Hrate & Hduration & Htimeouts & Hinfo & Htext).
  { intros type. cbn [created Player.streamsByType_
                      Player.set_streamsByType_].
    rewrite Hmade. destruct (Js.get selected type); cbn; congruence. }
  destruct (Player.startStreams_ created selected streamLimits)
    as [after [u|e]] eqn:Estart; cbn [fst snd] in *; [|discriminate].
  exists after. split; [reflexivity|].
  split; [|auto 10].
  intros type. rewrite Hinfo.
  cbn [created Player.streamsByType_ Player.set_streamsByType_].
  rewrite Hmade. destruct (Js.get selected type); reflexivity.
Qed.

(** The function passed to [then] never changes the manifest. *)
Lemma startStreams_manifest (this : Player.StreamVideoSource)
    (selected : Js.object StreamInfo) (streamLimits : Player.StreamLimits) :
  Player.manifestInfo
    (fst (Player.startStreams_ this selected streamLimits)) =
  Player.manifestInfo this.
Proof.
  unfold Player.startStreams_.
  destruct (Player.video this) as [video|]; [|reflexivity].
  destruct (Player.manifestInfo this) as [manifest|] eqn:Hm;
    [|cbn; exact Hm].
  match goal with
  | |- context [Player.startStreams_loop selected ?types ?s] =>
      destruct (startStreams_loop_fields selected types s) as [F _];
      destruct (Player.startStreams_loop selected types s)
        as [looped [u|e]]
  end; cbn [fst] in *.
  - destruct (enableTextTrack_streams looped (Player.subsNeeded_ looped))
      as [-> _].
    cbn [Player.manifestInfo Player.set_streamsByType_]. rewrite F. exact Hm.
  - rewrite F. exact Hm.
Qed.

Lemma then_manifest (this : Player.StreamVideoSource)
    (selected : Js.object StreamInfo) (indexes : list Media.SegmentIndex) :
  Player.manifestInfo
    (fst (Player.createAndStartStreams_then addSourceBuffer this selected
            indexes)) =
  Player.manifestInfo this.
Proof.
  unfold Player.createAndStartStreams_then.
  destruct (negb _); [reflexivity|].
  destruct (Player.computeStreamLimits this indexes) as [[limits|]|e];
    try reflexivity.
  destruct (createStreams_cases this selected)
    as (buffers & [(made & -> & _) | (-> & _)]); [|reflexivity].
  pose proof (startStreams_manifest
                (Player.set_streamsByType_ made
                   (Player.set_sourceBuffers buffers this))
                selected limits) as H.
  destruct (Player.startStreams_ _ selected limits) as [after [u|e]];
    exact H.
Qed.

(** For live content the function passed to [catch] resolves. *)
Lemma catch_live (this : Player.StreamVideoSource) (manifest : ManifestInfo)
    (error : Js.Error) :
  Player.manifestInfo this = Some manifest ->
  live manifest = true ->
  snd (Player.createAndStartStreams_catch this error) = Js.Resolved tt.
Proof.
  intros Hm Hlive. unfold Player.createAndStartStreams_catch.
  destruct (Player.isAborted error); [reflexivity|].
  rewrite Hm, Hlive. unfold Player.setUpdateTimer_.
  cbn [Player.log_warning Player.set_warnings Player.manifestInfo].
  rewrite Hm. destruct (updatePeriod manifest); reflexivity.
Qed.

(** X13: if the manifest specifies live content then the promise that
    [createAndStartStreams_] returns is never rejected, whatever fails. *)
Theorem live_start_never_rejects (this after : Player.StreamVideoSource)
    (manifest : ManifestInfo) (p : Js.promise unit) :
  Player.manifestInfo this = Some manifest ->
  live manifest = true ->
  Player.createAndStartStreams_ addSourceBuffer this = Js.Normal (after, p) ->
  p = Js.Resolved tt \/ p = Js.Pending.
Proof.
  intros Hm Hlive. unfold Player.createAndStartStreams_.
  destruct (Player.selectStreamSetInfos _ _) as [sets|]; cbn [Js.bind];
    [|discriminate].
  destruct (Player.defined _) as [selected|]; cbn [Js.bind]; [|discriminate].
  intros H. injection H as H.
  assert (Hm' : Player.manifestInfo (Player.startAbrManager this) =
                Some manifest) by exact Hm.
  unfold Player.thenCatch in H.
  destruct (Js.all _) as [indexes|e|].
  - pose proof (then_manifest (Player.startAbrManager this) selected indexes)
      as Hthen.
    destruct (Player.createAndStartStreams_then _ _ _ _)
      as [started [[]|e|]] eqn:Ethen; cbn [fst] in Hthen.
    + injection H as _ <-. now left.
    + rewrite Hm' in Hthen.
      pose proof (catch_live started manifest e Hthen Hlive) as Hcatch.
      rewrite H in Hcatch. cbn in Hcatch. now left.
    + injection H as _ <-. now right.
  - pose proof (catch_live _ manifest e Hm' Hlive) as Hcatch.
    rewrite H in Hcatch. cbn in Hcatch. now left.
  - injection H as _ <-. now right.
Qed.

(** Without a manifest there are no stream limits. *)
Lemma computeStreamLimits_needs_manifest (this : Player.StreamVideoSource)
    (indexes : list Media.SegmentIndex)
    (result : option Player.StreamLimits) :
  Forall (fun index => Media.length index <> 0%nat) indexes ->
  Player.computeStreamLimits this indexes = Js.Normal result ->
  Player.manifestInfo this <> None.
Proof.
  intros Hall H Hnone. unfold Player.computeStreamLimits in H.
  destruct Hall as [|index indexes Hne _].
  - cbn in H. rewrite Hnone in H. discriminate.
  - cbn [Player.computeStreamLimits_loop] in H.
    unfold Player.computeStreamLimits_step in H.
    apply Nat.eqb_neq in Hne. rewrite Hne in H.
    destruct (Media.first index); cbn in H; [|discriminate].
    rewrite Hnone in H. discriminate.
Qed.

(** With a video element attached, the function passed to [then] rejects
    only before it keeps any stream: it has changed nothing but the
    SourceBuffers. *)
Lemma then_rejected_streams (this after : Player.StreamVideoSource)
    (video : Player.Video) (selected : Js.object StreamInfo)
    (indexes : list Media.SegmentIndex) (error : Js.Error) :
  Player.video this = Some video ->
  Player.createAndStartStreams_then addSourceBuffer this selected indexes =
  (after, Js.Rejected error) ->
  after = Player.set_sourceBuffers (Player.sourceBuffers after) this.
Proof.
  intros Hv. unfold Player.createAndStartStreams_then.
  assert (Hsame : forall e : Js.Error,
            (this, @Js.Rejected unit e) = (after, Js.Rejected error) ->
            after = Player.set_sourceBuffers (Player.sourceBuffers after)
                      this).
  { intros e H. injection H as <- _. now destruct this. }
  destruct (forallb _ indexes) eqn:Hall; cbn [negb]; [|apply Hsame].
  destruct (Player.computeStreamLimits this indexes) as [[limits|]|e]
    eqn:Hlimits; try apply Hsame.
  assert (Hnonempty : Forall (fun index => Media.length index <> 0%nat)
                        indexes).
  { apply Forall_forall. intros index Hin.
    rewrite forallb_forall in Hall. specialize (Hall index Hin).
    apply Bool.negb_true_iff in Hall. now apply Nat.eqb_neq. }
  destruct (Player.manifestInfo this) as [manifest|] eqn:Hm.
  2:{ exfalso.
      exact (computeStreamLimits_needs_manifest this indexes _ Hnonempty
               Hlimits Hm). }
  destruct (createStreams_cases this selected)
    as (buffers & [(made & -> & Hmade) | (-> & _)]);
    [|intros H; now injection H as <- _].
  destruct (startStreams_started
              (Player.set_streamsByType_ made
                 (Player.set_sourceBuffers buffers this))
              video manifest selected limits Hv Hm) as [Hok _].
  { intros type.
    cbn [Player.streamsByType_ Player.set_streamsByType_].
    rewrite Hmade. destruct (Js.get selected type); cbn; congruence. }
  destruct (Player.startStreams_ _ selected limits) as [started [u|e]];
    cbn in Hok; [|discriminate].
  discriminate.
Qed.

Lemma catch_streams (this : Player.StreamVideoSource) (error : Js.Error) :
  Player.streamsByType_
    (fst (Player.createAndStartStreams_catch this error)) =
  Player.streamsByType_ this.
Proof.
  unfold Player.createAndStartStreams_catch.
  destruct (Player.isAborted error); [reflexivity|].
  destruct (Player.manifestInfo this) as [manifest|] eqn:Hm; [|reflexivity].
  destruct (live manifest); [|reflexivity].
  unfold Player.setUpdateTimer_.
  cbn [Player.log_warning Player.set_warnings Player.manifestInfo].
  rewrite Hm. destruct (updatePeriod manifest); reflexivity.
Qed.

(** X14: with a video element attached, a start whose promise is rejected
    leaves the streams of the source as they were: no stream is kept from a
    failed start, which is what the function passed to [catch] asserts, and
    what lets a later update try the start again. *)
Theorem rejected_start_keeps_no_stream
    (this after : Player.StreamVideoSource) (video : Player.Video)
    (error : Js.Error) :
  Player.video this = Some video ->
  Player.createAndStartStreams_ addSourceBuffer this =
  Js.Normal (after, Js.Rejected error) ->
  Player.streamsByType_ after = Player.streamsByType_ this.
Proof.
  intros Hv. unfold Player.createAndStartStreams_.
  destruct (Player.selectStreamSetInfos _ _) as [sets|]; cbn [Js.bind];
    [|discriminate].
  destruct (Player.defined _) as [selected|]; cbn [Js.bind]; [|discriminate].
  intros H. injection H as H. unfold Player.thenCatch in H.
  destruct (Js.all _) as [indexes|e|].
  - destruct (Player.createAndStartStreams_then _ _ _ _)
      as [started [[]|e|]] eqn:Ethen; try discriminate.
    apply (then_rejected_streams _ _ video) in Ethen; [|exact Hv].
    pose proof (catch_streams started e) as Hcatch.
    rewrite H in Hcatch. cbn [fst] in Hcatch.
    rewrite Hcatch, Ethen. reflexivity.
  - pose proof (catch_streams (Player.startAbrManager this) e) as Hcatch.
    rewrite H in Hcatch. exact Hcatch.
  - discriminate.
Qed.

(** X15: the playback rate makes a round trip.  [startStreams_] sets it to
    0 and [onAllStreamsStarted], run on the source that [startStreams_]
    leaves, sets it back to the rate there was before the start, and moves
    the playhead from the stream start time by the timestamp correction. *)
Theorem playback_rate_restored (this : Player.StreamVideoSource)
    (video : Player.Video) (manifest : ManifestInfo)
    (selected : Js.object StreamInfo) (streamLimits : Player.StreamLimits)
    (correction : Q) :
  Player.video this = Some video ->
  Player.manifestInfo this = Some manifest ->
  (forall type,
     Js.get (Player.streamsByType_ this) type <> None ->
     Js.get selected type <> None) ->
  let started := fst (Player.startStreams_ this selected streamLimits) in
  let streamStartTime :=
    if live manifest then Player.limitEnd streamLimits
    else Player.limitStart streamLimits in
  Player.video started = Some (Player.mkVideo 0 streamStartTime) /\
  snd (Player.onAllStreamsStarted started correction) = Js.Normal tt /\
  Player.video (fst (Player.onAllStreamsStarted started correction)) =
  Some (Player.mkVideo (Player.playbackRate video)
          (streamStartTime + correction)).
Proof.
  intros Hv Hm Hselected. cbn zeta.
  destruct (startStreams_started this video manifest selected streamLimits
              Hv Hm Hselected) as (_ & Hvideo & Hrate & _).
  split; [exact Hvideo|].
  unfold Player.onAllStreamsStarted. rewrite Hvideo, Hrate.
  split; reflexivity.
Qed.

(** [startStreams_] and the function passed to [then] arm no timer. *)
Lemma startStreams_timeouts (this : Player.StreamVideoSource)
    (selected : Js.object StreamInfo) (streamLimits : Player.StreamLimits) :
  Player.timeouts (fst (Player.startStreams_ this selected streamLimits)) =
  Player.timeouts this.
Proof.
  unfold Player.startStreams_.
  destruct (Player.video this) as [video|]; [|reflexivity].
  destruct (Player.manifestInfo this) as [manifest|]; [|reflexivity].
  match goal with
  | |- context [Player.startStreams_loop selected ?types ?s] =>
      destruct (startStreams_loop_fields selected types s)
        as (_ & _ & _ & _ & _ & F);
      destruct (Player.startStreams_loop selected types s)
        as [looped [u|e]]
  end; cbn [fst] in *.
  - destruct (enableTextTrack_streams looped (Player.subsNeeded_ looped))
      as [-> _].
    cbn [Player.timeouts Player.set_streamsByType_]. exact F.
  - exact F.
Qed.

Lemma then_timeouts (this : Player.StreamVideoSource)
    (selected : Js.object StreamInfo) (indexes : list Media.SegmentIndex) :
  Player.timeouts
    (fst (Player.createAndStartStreams_then addSourceBuffer this selected
            indexes)) =
  Player.timeouts this.
Proof.
  unfold Player.createAndStartStreams_then.
  destruct (negb _); [reflexivity|].
  destruct (Player.computeStreamLimits this indexes) as [[limits|]|e];
    try reflexivity.
  destruct (createStreams_cases this selected)
    as (buffers & [(made & -> & _) | (-> & _)]); [|reflexivity].
  pose proof (startStreams_timeouts
                (Player.set_streamsByType_ made
                   (Player.set_sourceBuffers buffers this))
                selected limits) as H.
  destruct (Player.startStreams_ _ selected limits) as [after [u|e]];
    exact H.
Qed.

(** The function passed to [catch] arms a timer only for live content with
    an update period, and then with the whole period, at least 3 s. *)
Lemma catch_timeouts (this : Player.StreamVideoSource) (error : Js.Error) :
  let after := fst (Player.createAndStartStreams_catch this error) in
  Player.timeouts after = Player.timeouts this \/
  exists manifest interval,
    Player.manifestInfo this = Some manifest /\
    live manifest = true /\
    updatePeriod manifest = Some interval /\
    Player.timeouts after =
    Player.timeouts this ++ [1000 * Qmax (interval - 0) 3].
Proof.
  cbn zeta. unfold Player.createAndStartStreams_catch.
  destruct (Player.isAborted error); [now left|].
  destruct (Player.manifestInfo this) as [manifest|] eqn:Hm; [|now left].
  destruct (live manifest) eqn:Hlive; [|now left].
  unfold Player.setUpdateTimer_.
  cbn [Player.log_warning Player.set_warnings Player.manifestInfo].
  rewrite Hm. destruct (updatePeriod manifest) as [interval|] eqn:Hp;
    [|now left].
  right. exists manifest, interval. repeat split; auto.
Qed.

(** The timer that a call of [createAndStartStreams_] arms. *)
Lemma createAndStartStreams_timeouts
    (this after : Player.StreamVideoSource) (manifest : ManifestInfo)
    (p : Js.promise unit) :
  Player.manifestInfo this = Some manifest ->
  Player.createAndStartStreams_ addSourceBuffer this = Js.Normal (after, p) ->
  Player.timeouts after = Player.timeouts this \/
  exists interval,
    live manifest = true /\
    updatePeriod manifest = Some interval /\
    Player.timeouts after =
    Player.timeouts this ++ [1000 * Qmax (interval - 0) 3].
Proof.
  intros Hm. unfold Player.createAndStartStreams_.
  destruct (Player.selectStreamSetInfos _ _) as [sets|]; cbn [Js.bind];
    [|discriminate].
  destruct (Player.defined _) as [selected|]; cbn [Js.bind]; [|discriminate].
  intros H. injection H as H.
  assert (Hcatch : forall started error,
            Player.manifestInfo started = Some manifest ->
            Player.timeouts started = Player.timeouts this ->
            Player.createAndStartStreams_catch started error = (after, p) ->
            Player.timeouts after = Player.timeouts this \/
            exists interval,
              live manifest = true /\
              updatePeriod manifest = Some interval /\
              Player.timeouts after =
              Player.timeouts this ++ [1000 * Qmax (interval - 0) 3]).
  { intros started error Hstarted Htimeouts E.
    pose proof (catch_timeouts started error) as Hc. cbn zeta in Hc.
    rewrite E in Hc. cbn [fst] in Hc. rewrite Htimeouts in Hc.
    destruct Hc as [Hc | (manifest' & interval & Hm' & Hlive & Hp & Hc)];
      [now left|].
    rewrite Hstarted in Hm'. injection Hm' as <-.
    right. exists interval. auto. }
  unfold Player.thenCatch in H.
  destruct (Js.all _) as [indexes|e|].
  - pose proof (then_manifest (Player.startAbrManager this) selected indexes)
      as Hthen.
    pose proof (then_timeouts (Player.startAbrManager this) selected indexes)
      as Htimeouts.
    destruct (Player.createAndStartStreams_then _ _ _ _)
      as [started [[]|e|]] eqn:Ethen; cbn [fst] in Hthen, Htimeouts.
    + injection H as <- _. now left.
    + apply (Hcatch started e); [now rewrite Hthen | exact Htimeouts |].
      exact H.
    + injection H as <- _. now left.
  - apply (Hcatch (Player.startAbrManager this) e); [exact Hm | reflexivity |].
    exact H.
  - injection H as <- _. now left.
Qed.

End Launch.

Lemma playback_rate_restored_witness :
  Player.video
    (fst (Player.onAllStreamsStarted
            (fst (Player.startStreams_
                    (Examples.playingSource' Examples.staticManifest)
                    Examples.selectedInfos (Player.mkStreamLimits 1 10)))
            (1 # 50))) =
  Some (Player.mkVideo (Player.playbackRate Examples.fastVideo)
          (1 + (1 # 50))).
Proof.
  apply (playback_rate_restored
           (Examples.playingSource' Examples.staticManifest)
           Examples.fastVideo Examples.staticManifest).
  - reflexivity.
  - reflexivity.
  - intros type H.
    destruct (String.eqb_spec "video" type) as [<- | Hne]; [discriminate|].
    exfalso. apply H. apply String.eqb_neq in Hne.
    change (Js.get [("video", Player.newStream)] type = None).
    cbn [Js.get]. now rewrite Hne.
Defined.


(** When the SourceBuffer of the video cannot be added after that of the
    audio was, no stream is kept and the audio SourceBuffer stays. *)
Example createStreams_leaves_buffer :
  Player.createStreams_ Examples.audioOnly
    (Examples.attachedSource Examples.staticManifest)
    Examples.selectedInfos =
  (Player.set_sourceBuffers ["audio/mp4"]
     (Examples.attachedSource Examples.staticManifest), false).
Proof. reflexivity. Qed.

Lemma streams_started_witness :
  exists after,
    Player.createAndStartStreams_then Examples.anyBuffer
      (Examples.attachedSource Examples.staticManifest)
      Examples.selectedInfos [Examples.audioIndex; Examples.videoIndex] =
    (after, Js.Resolved tt) /\
    Player.video after = Some (Player.mkVideo 0 1) /\
    Player.originalPlaybackRate_ after = 1.
Proof.
  destruct (streams_started Examples.anyBuffer
              (Examples.attachedSource Examples.staticManifest)
              Examples.video Examples.staticManifest Examples.selectedInfos
              [Examples.audioIndex; Examples.videoIndex]
              (Player.mkStreamLimits 1 10))
    as (after & Hthen & _ & Hvideo & Hrate & _).
  - reflexivity.
  - reflexivity.
  - repeat constructor; discriminate.
  - reflexivity.
  - intros type streamInfo Hin. now right.
  - exists after. auto.
Defined.

Lemma live_start_never_rejects_witness :
  exists after p,
    Player.createAndStartStreams_ Examples.noBuffer
      (Examples.attachedSource Examples.liveManifest) =
    Js.Normal (after, p) /\
    (p = Js.Resolved tt \/ p = Js.Pending).
Proof.
  eexists. eexists. split; [reflexivity|].
  eapply (live_start_never_rejects Examples.noBuffer
            (Examples.attachedSource Examples.liveManifest) _
            Examples.liveManifest).
  - reflexivity.
  - reflexivity.
  - reflexivity.
Defined.

Lemma rejected_start_keeps_no_stream_witness :
  exists after error,
    Player.createAndStartStreams_ Examples.noBuffer
      (Examples.attachedSource Examples.staticManifest) =
    Js.Normal (after, Js.Rejected error) /\
    Player.streamsByType_ after = [].
Proof.
  eexists. eexists. split; [reflexivity|].
  eapply (rejected_start_keeps_no_stream Examples.noBuffer
            (Examples.attachedSource Examples.staticManifest) _
            Examples.video).
  - reflexivity.
  - reflexivity.
Defined.

End LaunchFacts.

(* ===================================================================== *)
(** * The timestamp corrections *)
(* ===================================================================== *)

Module CorrectionFacts.

Import Info.

(** The corrections after a run of [started] events. *)
Lemma corrections_fold (this : Player.StreamVideoSource) (events : list Q)
    (corrections : Player.Corrections) :
  fold_left
    (fun corrections event =>
       fst (Player.onStreamStarted_ this corrections event))
    events corrections =
  Player.mkCorrections
    (fold_left Js.min events (Player.minTimestampCorrection_ corrections))
    (fold_left Player.max events
       (Player.maxTimestampCorrection_ corrections)).
Proof.
  revert corrections. induction events as [|event events IH];
    intros corrections; cbn [fold_left].
  - now destruct corrections.
  - rewrite IH. reflexivity.
Qed.

Lemma fold_max_finite (events : list Q) (q : Q) :
  fold_left Player.max events (Player.AtLeast q) =
  Player.AtLeast (Spec.maximum q events).
Proof.
  unfold Spec.maximum. revert q.
  induction events as [|event events IH]; intros q; cbn; [reflexivity|].
  apply IH.
Qed.

Lemma disagree_iff (least most : Q) :
  least <= most ->
  (Js.gt 0 (least * most) = true <-> least < 0 /\ 0 < most).
Proof.
  intros Hle. unfold Js.gt. rewrite Bool.negb_true_iff.
  rewrite <- Bool.not_true_iff_false, Qle_bool_iff.
  split.
  - intros H.
    destruct (Qlt_le_dec least 0) as [Hl | Hl];
      destruct (Qlt_le_dec 0 most) as [Hm | Hm]; auto; exfalso; apply H.
    + setoid_replace (least * most) with ((- least) * (- most)) by ring.
      apply Qmult_le_0_compat.
      * apply (Qopp_le_compat least 0). now apply Qlt_le_weak.
      * apply (Qopp_le_compat most 0). exact Hm.
    + apply Qmult_le_0_compat; [exact Hl | now apply Qlt_le_weak].
    + apply Qmult_le_0_compat; [exact Hl|].
      eapply Qle_trans; [exact Hl | exact Hle].
  - intros [Hl Hm] H.
    assert (Hneg : least * most < 0).
    { setoid_replace 0 with (0 * most) by ring.
      apply Qmult_lt_compat_r; assumption. }
    exact (Qlt_not_le _ _ Hneg H).
Qed.

(** X16: once a stream has started, the two corrections kept are finite:
    they are the least and the greatest of the corrections reported so far,
    so that the three sanity checks of [onAllStreamsStarted_] hold; and the
    warning that the content may have errors is due exactly when some
    correction is negative and some is positive. *)
Theorem corrections_sane (this : Player.StreamVideoSource) (first : Q)
    (later : list Q) :
  let events := first :: later in
  let corrections :=
    fold_left
      (fun corrections event =>
         fst (Player.onStreamStarted_ this corrections event))
      events Player.noCorrections in
  exists least most,
    Player.minTimestampCorrection_ corrections = Js.Finite least /\
    Player.maxTimestampCorrection_ corrections = Player.AtLeast most /\
    In least events /\ In most events /\
    (forall event, In event events -> least <= event /\ event <= most) /\
    Player.sane corrections /\
    (Player.correctionsDisagree corrections = true <->
     least < 0 /\ 0 < most).
Proof.
  cbn zeta. rewrite corrections_fold.
  cbn [Player.noCorrections Player.minTimestampCorrection_
       Player.maxTimestampCorrection_].
  change (fold_left Player.max (first :: later) Player.NEGATIVE_INFINITY)
    with (fold_left Player.max later (Player.AtLeast first)).
  rewrite fold_max_finite.
  change (fold_left Js.min (first :: later) Js.POSITIVE_INFINITY)
    with (Spec.minimum (first :: later)).
  destruct (PlayWindowFacts.minimum_attained (first :: later))
    as [Hinf | (least & Hmin & Hin)].
  { apply PlayWindowFacts.minimum_infinite in Hinf. discriminate. }
  rewrite Hmin. exists least, (Spec.maximum first later).
  assert (Hbounds : forall event, In event (first :: later) ->
            least <= event /\ event <= Spec.maximum first later).
  { intros event Hevent. split.
    - pose proof (PlayWindowFacts.minimum_le _ _ Hevent) as H.
      rewrite Hmin in H. exact H.
    - destruct Hevent as [<- | Hevent].
      + apply PlayWindowFacts.maximum_ge_base.
      + now apply PlayWindowFacts.maximum_ge. }
  assert (Hle : least <= Spec.maximum first later).
  { eapply Qle_trans; apply (Hbounds first); now left. }
  split; [reflexivity|]. split; [reflexivity|]. split; [exact Hin|].
  split.
  { destruct (PlayWindowFacts.maximum_attained later first) as [-> | H];
      [now left | now right]. }
  split; [exact Hbounds|]. split; [exact Hle|].
  now apply disagree_iff.
Qed.

End CorrectionFacts.

(* ===================================================================== *)
(** * More on the duration segment index source *)
(* ===================================================================== *)

Module SourceFacts.

Section Create.

Variable generateSegmentReferences :
  Dash.Representation -> Z -> Double.integer ->
  option (list Media.SegmentReference).

Variable newDynamicLiveSegmentIndex :
  Dash.Mpd -> option Dash.Period -> option Dash.Representation -> Q ->
  Js.completion (list Media.SegmentReference).

(** X17: a call of [create()] that returns has settled its promise, and
    keeps something only when it resolves: a resolved index is the one kept
    in the source; when the promise is rejected the source is as before and
    no object was made, so that a later call starts again. *)
Theorem create_settles (this this' : Dash.DurationSegmentIndexSource)
    (heap heap' : nat) (p : Js.promise Media.SegmentIndex) :
  Dash.create generateSegmentReferences newDynamicLiveSegmentIndex this heap =
  Js.Normal (this', heap', p) ->
  match p with
  | Js.Resolved index => Dash.segmentIndex_ this' = Some index
  | Js.Rejected _ => this' = this /\ heap' = heap
  | Js.Pending => False
  end.
Proof.
  unfold Dash.create.
  destruct (Dash.segmentIndex_ this) as [cached|] eqn:Ecached.
  { intros H. injection H as <- <- <-. exact Ecached. }
  destruct (Dash.mpd_ this) as [mpd|]; cbn; [|discriminate].
  destruct (String.eqb (Dash.type mpd) "dynamic").
  - destruct (newDynamicLiveSegmentIndex _ _ _ _); cbn; intros H;
      injection H as <- <- <-; [reflexivity | auto].
  - destruct (Dash.representation_ this) as [representation|]; cbn;
      [|discriminate].
    destruct (Dash.segmentTemplate representation) as [template|]; cbn;
      [|discriminate].
    destruct (Dash.period_ this) as [period|]; cbn; [|discriminate].
    destruct (generateSegmentReferences _ _ _); cbn; intros H;
      injection H as <- <- <-; [reflexivity | auto].
Qed.

(** X18: [destroy()] forgets the index and the manifest: whatever the
    source held, a call of [create()] after [destroy()] throws a TypeError
    instead of returning a promise, and makes no object; a second
    [destroy()] changes nothing. *)
Theorem create_after_destroy (this : Dash.DurationSegmentIndexSource)
    (heap : nat) :
  Dash.create generateSegmentReferences newDynamicLiveSegmentIndex
    (Dash.destroy this) heap = Js.Throw Js.typeError /\
  Dash.segmentIndex_ (Dash.destroy this) = None /\
  Dash.destroy (Dash.destroy this) = Dash.destroy this.
Proof. repeat split. Qed.

End Create.

Lemma create_settles_witness :
  exists this' heap' error,
    Dash.create Spec.generateSegmentReferences Examples.noLiveIndex
      Examples.liveSource 0 =
    Js.Normal (this', heap', Js.Rejected error) /\
    this' = Examples.liveSource /\ heap' = 0%nat.
Proof.
  eexists. eexists. eexists. split; [reflexivity|].
  exact (create_settles Spec.generateSegmentReferences Examples.noLiveIndex
           Examples.liveSource _ 0 _ (Js.Rejected _) eq_refl).
Defined.

(** Shifting a mantissa to the right keeps it at or above 0. *)
Lemma shr_1_nonneg (mrs : shr_record) :
  (0 <= shr_m mrs)%Z -> (0 <= shr_m (shr_1 mrs))%Z.
Proof.
  destruct mrs as [m r s]. destruct m as [|[p|p|]|[p|p|]]; cbn; lia.
Qed.

Lemma iter_shr_1_nonneg (p : positive) :
  forall mrs, (0 <= shr_m mrs)%Z -> (0 <= shr_m (iter_pos shr_1 p mrs))%Z.
Proof.
  induction p as [p IH|p IH|]; intros mrs H; cbn.
  - apply IH, IH, shr_1_nonneg, H.
  - apply IH, IH, H.
  - apply shr_1_nonneg, H.
Qed.

Lemma shr_fexp_nonneg (m e : Z) (l : location) :
  (0 <= m)%Z ->
  (0 <= shr_m (fst (shr_fexp Double.prec Double.emax m e l)))%Z.
Proof.
  intros H. unfold shr_fexp, shr.
  assert (Hm : shr_m (shr_record_of_loc m l) = m)
    by (destruct l as [|[| |]]; reflexivity).
  destruct (_ - e)%Z; cbn [fst]; try (rewrite Hm; exact H).
  apply iter_shr_1_nonneg. rewrite Hm. exact H.
Qed.

(** Rounding a mantissa that is not negative gives a zero, a finite number
    or an infinity of the sign asked for, and never NaN. *)
Lemma binary_round_aux_sign (s : bool) (m e : Z) (l : location) :
  (0 <= m)%Z ->
  match binary_round_aux Double.prec Double.emax s m e l with
  | S754_zero s' | S754_infinity s' | S754_finite s' _ _ => s' = s
  | S754_nan => False
  end.
Proof.
  intros H. unfold binary_round_aux.
  pose proof (shr_fexp_nonneg m e l H) as H1.
  destruct (shr_fexp Double.prec Double.emax m e l) as [mrs' e'].
  cbn [fst] in H1.
  assert (H2 : (0 <= round_nearest_even (shr_m mrs')
                       (loc_of_shr_record mrs'))%Z).
  { unfold round_nearest_even.
    destruct (loc_of_shr_record mrs') as [|[| |]];
      try destruct (Z.even _); lia. }
  pose proof (shr_fexp_nonneg _ e' loc_Exact H2) as H3.
  destruct (shr_fexp Double.prec Double.emax _ e' loc_Exact) as [mrs'' e''].
  cbn [fst] in H3.
  destruct (shr_m mrs'') as [|p|p]; [reflexivity | | lia].
  destruct (Z.leb _ _); reflexivity.
Qed.

(** The quotient of two finite numbers that are not zero is a zero (on
    underflow), a finite number or an infinity (on overflow), with the
    product of the signs; it is never NaN. *)
Lemma div_finite_sign (sx sy : bool) (mx my : positive) (ex ey : Z) :
  match Double.div (S754_finite sx mx ex) (S754_finite sy my ey) with
  | S754_zero s | S754_infinity s | S754_finite s _ _ => s = xorb sx sy
  | S754_nan => False
  end.
Proof.
  unfold Double.div, SFdiv, SFdiv_core_binary.
  set (shifted := match (ex - ey - _)%Z with
                  | Z0 => Z.pos mx
                  | Z.pos _ => Z.shiftl (Z.pos mx) _
                  | Z.neg _ => 0%Z
                  end).
  assert (Hshifted : (0 <= shifted)%Z).
  { unfold shifted. destruct (ex - ey - _)%Z; try lia.
    apply Z.shiftl_nonneg. lia. }
  pose proof (Z.div_pos shifted (Z.pos my) Hshifted ltac:(lia)) as Hq.
  unfold Z.div in Hq.
  destruct (Z.div_eucl shifted (Z.pos my)) as [q r]. cbn [fst] in Hq.
  apply binary_round_aux_sign, Hq.
Qed.

(** The ceiling of a finite number above 0 is above 0, and that of a finite
    number under 0 is at most 0. *)
Lemma ceil_finite (s : bool) (m : positive) (e : Z) :
  exists n,
    Double.ceil (S754_finite s m e) = Double.Int n /\
    if s then (n <= 0)%Z else (0 < n)%Z.
Proof.
  unfold Double.ceil. eexists. split; [reflexivity|].
  assert (Hpow : forall p, (0 < 2 ^ Z.pos p)%Z)
    by (intros p; apply Z.pow_pos_nonneg; lia).
  destruct s; unfold Double.signed.
  - destruct e as [|p|k].
    + rewrite Z.pow_0_r. lia.
    + specialize (Hpow p). nia.
    + change (- Z.neg m)%Z with (Z.pos m).
      pose proof (Z.div_pos (Z.pos m) (Z.pos (2 ^ k)) ltac:(lia) ltac:(lia)).
      lia.
  - destruct e as [|p|k].
    + rewrite Z.pow_0_r. lia.
    + specialize (Hpow p). nia.
    + change (- Z.pos m)%Z with (Z.neg m).
      assert (Z.neg m / Z.pos (2 ^ k) < 0)%Z
        by (apply Z.div_lt_upper_bound; lia).
      lia.
Qed.



(** The two ends of the range: a quotient that underflows to zero, and one
    that overflows. *)
Example numSegments_underflow :
  Dash.numSegments
    (Dash.mkPeriod (Some 0) (Some (S754_finite false 4503599627370496 (-1074))))
    (Dash.mkSegmentTemplate (Double.ofZ 1)
       (Some (S754_finite false 4503599627370496 971)) 1 None) =
  Double.Int 0.
Proof. vm_compute. reflexivity. Qed.

Example numSegments_overflow :
  Dash.numSegments
    (Dash.mkPeriod (Some 0) (Some (S754_finite false 4503599627370496 971)))
    (Dash.mkSegmentTemplate (Double.ofZ 1)
       (Some (S754_finite false 4503599627370496 (-1074))) 1 None) =
  Double.Infinity false.
Proof. vm_compute. reflexivity. Qed.

End SourceFacts.

(* ===================================================================== *)
(** * The authorization header *)
(* ===================================================================== *)

Module AuthFacts.

(** X20: the header follows the token of the last request that was
    resolved.  When [setTokenAsync] resolves, the request loaded with status
    200 and a response that parses, and the header is "Bearer " followed by
    its access token ("undefined" if it has none); whenever the promise is
    rejected or stays pending the header is the one there was; the
    authorization url is never changed. *)
Theorem setTokenAsync_header (state : Auth.State) (exchange : Auth.Exchange) :
  let after := fst (Auth.setTokenAsync state exchange) in
  let p := snd (Auth.setTokenAsync state exchange) in
  Auth.authUrl_ after = Auth.authUrl_ state /\
  match p with
  | Js.Resolved _ =>
      exists statusText access_token,
        exchange = Auth.Loaded 200 statusText (Auth.Object access_token) /\
        Auth.get_header after =
        ("Bearer " ++
         match access_token with
         | Some token => token
         | None => "undefined"
         end)%string
  | _ => after = state
  end.
Proof.
  cbn zeta. unfold Auth.setTokenAsync.
  destruct exchange as [status statusText body|]; [|now split].
  destruct (Nat.eqb status 200) eqn:E; [|now split].
  apply Nat.eqb_eq in E. subst status.
  destruct body as [| |access_token]; [now split | now split |].
  split; [reflexivity|]. exists statusText, access_token. now split.
Qed.

(** X21: the synchronous [setToken] does not look at the status: for a
    response that is not 200 and holds an access token, [setToken] stores the
    token and returns, while [setTokenAsync] rejects and keeps the header
    there was. *)
Theorem setToken_ignores_status (state : Auth.State) (status : nat)
    (statusText token : string) :
  status <> 200%nat ->
  let exchange := Auth.Loaded status statusText (Auth.Object (Some token)) in
  snd (Auth.setToken state exchange) = Js.Normal tt /\
  Auth.get_header (fst (Auth.setToken state exchange)) =
  ("Bearer " ++ token)%string /\
  (exists error,
     snd (Auth.setTokenAsync state exchange) = Js.Rejected error) /\
  Auth.get_header (fst (Auth.setTokenAsync state exchange)) =
  Auth.get_header state.
Proof.
  intros Hstatus. cbn zeta. unfold Auth.setToken, Auth.setTokenAsync.
  apply Nat.eqb_neq in Hstatus. rewrite Hstatus. cbn [fst snd].
  repeat split. eexists. reflexivity.
Qed.

Lemma setToken_ignores_status_witness :
  Auth.get_header
    (fst (Auth.setToken Auth.initial
            (Auth.Loaded 403 "Forbidden" (Auth.Object (Some "guest"))))) =
  "Bearer guest"%string /\
  Auth.get_header
    (fst (Auth.setTokenAsync Auth.initial
            (Auth.Loaded 403 "Forbidden" (Auth.Object (Some "guest"))))) =
  "Bearer "%string.
Proof.
  destruct (setToken_ignores_status Auth.initial 403 "Forbidden" "guest")
    as (_ & Hsync & _ & Hasync).
  - discriminate.
  - split; [exact Hsync | exact Hasync].
Defined.

End AuthFacts.

(* ===================================================================== *)
(** * The selection of a track *)
(* ===================================================================== *)

Module TrackSelectionFacts.

Import Info.

(** X22: [selectTrack_] returns true exactly when stream sets are stored
    for the type, a stream of the type exists, and some stored StreamInfo of
    the type has the id, enabled or not.  Then it switches the stream of the
    type to the first such StreamInfo, leaves the other streams alone and
    logs nothing; otherwise it logs one warning and changes nothing else. *)
Theorem selectTrack_outcome (this : Player.StreamVideoSource)
    (type : string) (id : nat) (immediate : bool) :
  let after := fst (Player.selectTrack_ this type id immediate) in
  let selected := snd (Player.selectTrack_ this type id immediate) in
  (selected = true <->
   Js.get (Player.streamsByType_ this) type <> None /\
   exists streamInfo,
     In streamInfo (Spec.stored this type) /\ uniqueId streamInfo = id) /\
  (selected = true ->
   Player.warnings after = Player.warnings this /\
   (exists streamInfo stream,
      Js.get (Player.streamsByType_ after) type = Some stream /\
      Player.getStreamInfo stream = Some streamInfo /\
      In streamInfo (Spec.stored this type) /\ uniqueId streamInfo = id) /\
   forall other, other <> type ->
     Js.get (Player.streamsByType_ after) other =
     Js.get (Player.streamsByType_ this) other) /\
  (selected = false ->
   exists warning,
     after = Player.log_warning warning this).
Proof.
  cbn zeta. unfold Player.selectTrack_, Spec.stored, Player.findTrack.
  destruct (Util.get (Player.streamSetsByType this) type) as [sets|].
  2:{ cbn [fst snd]. split; [|split]; [| discriminate | eauto].
      split; [discriminate | intros (_ & x & [] & _)]. }
  destruct (Js.get (Player.streamsByType_ this) type) as [stream|] eqn:Es.
  2:{ cbn [fst snd]. split; [|split]; [| discriminate | eauto].
      split; [discriminate | intros (H & _); congruence]. }
  destruct (find _ (flat_map streamInfos sets)) as [streamInfo|] eqn:Ef;
    cbn [fst snd].
  - apply find_some in Ef as [Hin Hid]. apply Nat.eqb_eq in Hid.
    split; [|split]; [| | discriminate].
    + split; [intros _ | reflexivity]. split; [discriminate | eauto].
    + intros _. split; [reflexivity|]. split.
      * exists streamInfo, (Player.switch streamInfo stream).
        cbn [Player.streamsByType_ Player.set_streamsByType_].
        rewrite ObjectFacts.get_set_same. auto.
      * intros other Hne.
        cbn [Player.streamsByType_ Player.set_streamsByType_].
        apply ObjectFacts.get_set_other. congruence.
  - split; [|split]; [| discriminate | eauto].
    split; [discriminate|]. intros (_ & streamInfo & Hin & Hid).
    apply (find_none _ _ Ef) in Hin. apply Nat.eqb_neq in Hin.
    contradiction.
Qed.

Lemma selectTrack_outcome_witness :
  Player.warnings
    (fst (Player.selectVideoTrack
            (Examples.playingSource Examples.staticManifest) 1 true)) =
  Player.warnings (Examples.playingSource Examples.staticManifest).
Proof.
  apply (proj1 (proj2 (selectTrack_outcome
                         (Examples.playingSource Examples.staticManifest)
                         "video" 1 true))).
  reflexivity.
Defined.

(** The warning of a selection of an audio track before any stream
    exists. *)
Example selectAudioTrack_too_early :
  Player.selectAudioTrack (Examples.loadedSource Examples.staticManifest) 3
    false =
  (Player.log_warning
     "Cannot select audio track 3 because there are no audio streams yet."
     (Examples.loadedSource Examples.staticManifest),
   false).
Proof. reflexivity. Qed.

(** The tracks that [collect] returns come from the items. *)
Lemma collect_in {A B} (f : A -> Js.completion (list B)) (l : list A)
    (all : list B) (b : B) :
  Player.collect f l = Js.Normal all ->
  In b all ->
  exists a bs, In a l /\ f a = Js.Normal bs /\ In b bs.
Proof.
  revert all. induction l as [|a l IH]; intros all H Hin; cbn in H.
  - injection H as <-. contradiction.
  - destruct (f a) as [bs|e] eqn:Ea; cbn in H; [|discriminate].
    destruct (Player.collect f l) as [more|e]; cbn in H; [|discriminate].
    injection H as <-. apply in_app_or in Hin as [Hin | Hin].
    + exists a, bs. repeat split; auto. now left.
    + destruct (IH more eq_refl Hin) as (a' & bs' & Ha & Hf & Hb).
      exists a', bs'. repeat split; auto. now right.
Qed.

(** X23: [enableTextTrack] shows in the listing: whenever the listing of
    the text tracks after [enableTextTrack(enabled)] returns, every track
    listed as active has its [enabled] flag equal to [enabled], and every
    other track has it false. *)
Theorem getTextTracks_after_enableTextTrack (this : Player.StreamVideoSource)
    (enabled : bool) (tracks : list TextTrack.t) (track : TextTrack.t) :
  Player.getTextTracks (Player.enableTextTrack this enabled) =
  Js.Normal tracks ->
  In track tracks ->
  TextTrack.enabled track = (TextTrack.active track && enabled)%bool.
Proof.
  intros Htracks Hin.
  destruct (LaunchFacts.enableTextTrack_streams this enabled)
    as (_ & _ & Henabled).
  set (after := Player.enableTextTrack this enabled) in *.
  unfold Player.getTextTracks in Htracks.
  destruct (Util.get (Player.streamSetsByType after) "text") as [sets|].
  2:{ injection Htracks as <-. contradiction. }
  destruct (collect_in _ _ _ _ Htracks Hin) as (set & ts & _ & Hset & Hts).
  destruct (collect_in _ _ _ _ Hset Hts) as (streamInfo & ts' & _ & Hi & Ht).
  unfold Player.newTextTrack in Hi.
  destruct (Nat.eqb _ _).
  - destruct (Js.get (Player.streamsByType_ after) "text") as [stream|]
      eqn:Es; cbn in Hi; [|discriminate].
    injection Hi as <-. destruct Ht as [<- | []]. cbn.
    now rewrite (Henabled stream eq_refl).
  - cbn in Hi. injection Hi as <-. destruct Ht as [<- | []]. reflexivity.
Qed.

Lemma getTextTracks_after_enableTextTrack_witness :
  TextTrack.enabled (TextTrack.mk 7 "en" true true) = (true && true)%bool.
Proof.
  apply (getTextTracks_after_enableTextTrack Examples.subtitledSource true
           [TextTrack.mk 7 "en" true true]).
  - reflexivity.
  - now left.
Defined.

End TrackSelectionFacts.

(* ===================================================================== *)
(** * The update timer after an update of the manifest *)
(* ===================================================================== *)

Module UpdateFacts.

Import Info.



(** An update of 2 s, with an update period of 10 s: the next one is due in
    8 s. *)
Example update_timer_delay_8s :
  1000 * Qmax (10 - (2000 - 0) / 1000) 3 == 8000.
Proof. reflexivity. Qed.


End UpdateFacts.
